(** * NoControle back end: budget limits and reports

    A shallow embedding of the budget-limit model ([src/models/Limit.js]),
    the category-limit controller, the transaction create path and the
    cash-flow report of the NoControle personal-finance back end, with the
    properties of its specification stated and settled against the code.

    Conventions of the embedding.
    - A JavaScript number is a rational ([Q]); the results of the code are
      compared with [==] ([Qeq]).  Rounding done by the code ([Math.round],
      the two-decimal getters and setters of the schemas) is written out.
      Binary floating point is not modelled: the numbers of the code are
      the binary64 values nearest to these rationals, and its arithmetic
      rounds each result to binary64.  Where a product or a quotient of
      the code falls within that rounding error of a tie of [Math.round]
      or of a threshold, the code and the embedding can give different
      results: the setter of the code stores 1 for 1.005 and the
      embedding 1.01; 19.9 spent of 20 is 99 percent in the code and 100
      here; 8.1 of 9 is under the threshold of 90 percent in the code and
      on it here.  Away from such ties the two agree.
    - A JavaScript string is the string of the bytes of its UTF-8
      encoding; its [length] is counted in UTF-16 code units, as the
      code counts it ([JSString.length]).
    - A [Date] is its time value, the number of milliseconds since the epoch
      ([Z]); the calendar functions are those of ECMA-262 (section "Date
      Objects").  The local time zone has a fixed offset [tza] from UTC.
    - A MongoDB collection is the list of its documents in natural order; a
      document is a record; [null] or an absent field is [None].
    - A request handler returns its HTTP response together with the new
      database. *)

From Stdlib Require Import ZArith QArith Qround Qabs Lqa List String Ascii Bool Lia.
From Stdlib Require Import Permutation Sorted.
Import ListNotations.

Local Open Scope Z_scope.

(* ================================================================== *)
(** ** JavaScript numbers *)

Module JSNum.

Local Open Scope Q_scope.

Definition Qltb (x y : Q) : bool := negb (Qle_bool y x).

(** [Math.round]: the nearest integer, ties towards +infinity. *)
Definition Math_round (x : Q) : Z := Qfloor (x + (1 # 2)).

Definition Math_min (x y : Q) : Q := if Qle_bool x y then x else y.
Definition Math_max (x y : Q) : Q := if Qle_bool x y then y else x.
Definition Math_abs (x : Q) : Q := Qabs x.

(** [v => Math.round(v * 100) / 100], the getter and setter of every
    monetary path of the schemas, on exact rationals: a tie goes up here,
    where the code rounds the binary64 product [v * 100], which for an
    amount such as 1.005 lies just under the tie. *)
Definition round2 (v : Q) : Q := inject_Z (Math_round (v * 100)) / 100.

(** A number with at most two decimals. *)
Definition is_cents (v : Q) : Prop := exists n : Z, v == inject_Z n / 100.

(** [x || 0] on numbers. *)
Definition or_zero (x : Q) : Q := if Qeq_bool x 0 then 0 else x.

Definition sumQ (l : list Q) : Q := fold_left Qplus l 0.

End JSNum.

(* ================================================================== *)
(** ** JavaScript strings *)

Module JSString.

Local Open Scope nat_scope.

(** The UTF-16 code units a byte of a UTF-8 string stands for: the first
    byte of a character of up to three bytes stands for one, the first
    byte of a character of four bytes for two (a surrogate pair), a
    continuation byte for none. *)
Definition units (c : ascii) : nat :=
  let n := nat_of_ascii c in
  if n <? 128 then 1
  else if n <? 192 then 0
  else if n <? 240 then 1
  else 2.

(** [s.length], which is also what the [maxlength] validator compares. *)
Fixpoint length (s : string) : nat :=
  match s with
  | EmptyString => 0
  | String c rest => units c + length rest
  end.

End JSString.

(* ================================================================== *)
(** ** ECMAScript dates *)

Module JSDate.

Definition msPerDay : Z := 86400000.

Definition Day (t : Z) : Z := t / msPerDay.
Definition TimeWithinDay (t : Z) : Z := t mod msPerDay.

Definition DaysInYear (y : Z) : Z :=
  if negb (y mod 4 =? 0) then 365
  else if negb (y mod 100 =? 0) then 366
  else if negb (y mod 400 =? 0) then 365
  else 366.

Definition DayFromYear (y : Z) : Z :=
  365 * (y - 1970) + (y - 1969) / 4 - (y - 1901) / 100 + (y - 1601) / 400.

(** ECMA-262 defines [YearFromTime t] as the largest [y] with
    [TimeFromYear y <= t]; it is computed here from an estimate over the
    400-year cycle of 146097 days, corrected by at most one year
    (see [YearFromDay_spec]). *)
Definition YearFromDay (d : Z) : Z :=
  let y := 1970 + (400 * d) / 146097 in
  if d <? DayFromYear y then y - 1
  else if DayFromYear (y + 1) <=? d then y + 1
  else y.

Definition YearFromTime (t : Z) : Z := YearFromDay (Day t).

(** 1 for a leap year, 0 otherwise. *)
Definition LeapFlag (y : Z) : Z := if DaysInYear y =? 366 then 1 else 0.

Definition InLeapYear (t : Z) : Z := LeapFlag (YearFromTime t).

Definition DayWithinYear (t : Z) : Z := Day t - DayFromYear (YearFromTime t).

(** Number of days of the year before month [m] (0 = January), [leap]
    being 1 in a leap year. *)
Definition DaysBeforeMonth (m leap : Z) : Z :=
  match m with
  | 0 => 0
  | 1 => 31
  | 2 => 59 + leap
  | 3 => 90 + leap
  | 4 => 120 + leap
  | 5 => 151 + leap
  | 6 => 181 + leap
  | 7 => 212 + leap
  | 8 => 243 + leap
  | 9 => 273 + leap
  | 10 => 304 + leap
  | _ => 334 + leap
  end.

Definition MonthFromTime (t : Z) : Z :=
  let d := DayWithinYear t in
  let l := InLeapYear t in
  if d <? 31 then 0
  else if d <? 59 + l then 1
  else if d <? 90 + l then 2
  else if d <? 120 + l then 3
  else if d <? 151 + l then 4
  else if d <? 181 + l then 5
  else if d <? 212 + l then 6
  else if d <? 243 + l then 7
  else if d <? 273 + l then 8
  else if d <? 304 + l then 9
  else if d <? 334 + l then 10
  else 11.

Definition DateFromTime (t : Z) : Z :=
  DayWithinYear t - DaysBeforeMonth (MonthFromTime t) (InLeapYear t) + 1.

Definition MakeTime (h m s ms : Z) : Z :=
  h * 3600000 + m * 60000 + s * 1000 + ms.

Definition MakeDay (year month date : Z) : Z :=
  let ym := year + month / 12 in
  let mn := month mod 12 in
  DayFromYear ym + DaysBeforeMonth mn (LeapFlag ym) + date - 1.

Definition MakeDate (day time : Z) : Z := day * msPerDay + time.

(** Number of days of month [m] (0 = January) of year [y]. *)
Definition DaysInMonthOf (y m : Z) : Z :=
  if m =? 11 then 31
  else DaysBeforeMonth (m + 1) (LeapFlag y) - DaysBeforeMonth m (LeapFlag y).

(** Number of days of the month of [t]. *)
Definition DaysInMonth (t : Z) : Z :=
  DaysInMonthOf (YearFromTime t) (MonthFromTime t).

(** The month after month [m] of year [y]. *)
Definition nextMonth (y m : Z) : Z * Z :=
  if m =? 11 then (y + 1, 0) else (y, m + 1).

Section Local.

(** Offset of local time from UTC, in milliseconds (no daylight saving). *)
Variable tza : Z.

Definition LocalTime (t : Z) : Z := t + tza.
Definition UTC (t : Z) : Z := t - tza.

Definition getFullYear (t : Z) : Z := YearFromTime (LocalTime t).
Definition getMonth (t : Z) : Z := MonthFromTime (LocalTime t).
Definition getDate (t : Z) : Z := DateFromTime (LocalTime t).

Definition setDate (t date : Z) : Z :=
  let lt := LocalTime t in
  UTC (MakeDate (MakeDay (YearFromTime lt) (MonthFromTime lt) date)
                (TimeWithinDay lt)).

Definition setMonth (t month : Z) : Z :=
  let lt := LocalTime t in
  UTC (MakeDate (MakeDay (YearFromTime lt) month (DateFromTime lt))
                (TimeWithinDay lt)).

Definition setFullYear (t year : Z) : Z :=
  let lt := LocalTime t in
  UTC (MakeDate (MakeDay year (MonthFromTime lt) (DateFromTime lt))
                (TimeWithinDay lt)).

(** [new Date(year, month, date, hours, minutes, seconds)]. *)
Definition newDate (year month date h mi s : Z) : Z :=
  let yr := if (0 <=? year) && (year <=? 99) then 1900 + year else year in
  UTC (MakeDate (MakeDay yr month date) (MakeTime h mi s 0)).

End Local.

(** [{ $month: '$data' }] of the aggregation pipeline: the month of the
    date in UTC, 1 to 12. *)
Definition mongo_month (t : Z) : Z := MonthFromTime t + 1.

End JSDate.


(* ================================================================== *)
(** ** Documents and collections *)

(** An [ObjectId] in its hexadecimal form. *)
Definition ObjectId : Type := string.

Definition oid_eqb (a b : ObjectId) : bool := String.eqb a b.

(** Equality of two optional references, as a MongoDB equality filter
    decides it ([null] matches [null] and an absent field). *)
Definition ref_eqb (a b : option ObjectId) : bool :=
  match a, b with
  | Some x, Some y => oid_eqb x y
  | None, None => true
  | _, _ => false
  end.

Inductive Tipo : Type := receita | despesa.

Definition Tipo_eqb (a b : Tipo) : bool :=
  match a, b with
  | receita, receita | despesa, despesa => true
  | _, _ => false
  end.

Inductive Status : Type := pendente | confirmada | cancelada.

Definition Status_eqb (a b : Status) : bool :=
  match a, b with
  | pendente, pendente | confirmada, confirmada | cancelada, cancelada => true
  | _, _ => false
  end.

Inductive TipoLimite : Type := categoria_ | cartao_ | geral | periodo_.

Definition TipoLimite_eqb (a b : TipoLimite) : bool :=
  match a, b with
  | categoria_, categoria_ | cartao_, cartao_ | geral, geral
  | periodo_, periodo_ => true
  | _, _ => false
  end.

Inductive Periodo : Type := diario | semanal | mensal | anual.

(** [src/models/Category.js]: the paths the budget view reads.  The view
    also tests [cat.type === 'expense']; [type] is not a path of the
    schema, so that test is false on every document. *)
Module Category.
Record doc : Type := mk {
  _id : ObjectId;
  user : ObjectId;
  nome : string;
  tipo : Tipo;
  icone : string
}.
End Category.

(** [src/models/Transaction.js]. *)
Module Transaction.
Record doc : Type := mk {
  _id : ObjectId;
  user : ObjectId;
  tipo : Tipo;
  valor : Q;
  descricao : string;
  data : Z;
  categoria : option ObjectId;
  categoriaId : option ObjectId;
  cartao : option ObjectId;
  cartaoId : option ObjectId;
  status : Status
}.
End Transaction.

(** [src/models/Limit.js], [limitSchema].  [nome] is optional in a stored
    document: the category-limit upsert writes none.  The enumerated paths
    [tipo] and [periodo] are typed by their [enum]. *)
Module Limit.
Record doc : Type := mk {
  _id : ObjectId;
  user : ObjectId;
  nome : option string;
  tipo : TipoLimite;
  valorLimite : Q;
  valorGasto : Q;
  periodo : Periodo;
  categoria : option ObjectId;
  categoriaId : option ObjectId;
  cartao : option ObjectId;
  cartaoId : option ObjectId;
  ativo : bool;
  ultimoReset : Z;
  proximoReset : option Z
}.
End Limit.

(** The three collections. *)
Record DB : Type := mkDB {
  categories : list Category.doc;
  limits : list Limit.doc;
  transactions : list Transaction.doc
}.

Definition with_limits (ls : list Limit.doc) (db : DB) : DB :=
  mkDB (categories db) ls (transactions db).

Definition with_transactions (ts : list Transaction.doc) (db : DB) : DB :=
  mkDB (categories db) (limits db) ts.

(** Errors a Mongoose call rejects with. *)
Inductive MongooseError : Type := ValidationError | CastError.

(** A Mongoose call that writes: its outcome and the database after it. *)
Definition DbOp (A : Type) : Type := DB -> (MongooseError + A) * DB.

Definition ret {A} (a : A) : DbOp A := fun db => (inr a, db).
Definition throw {A} (e : MongooseError) : DbOp A := fun db => (inl e, db).
Definition bind {A B} (m : DbOp A) (k : A -> DbOp B) : DbOp B :=
  fun db => match m db with
            | (inl e, db') => (inl e, db')
            | (inr a, db') => k a db'
            end.

Notation "x <- m ;; k" := (bind m (fun x => k))
  (at level 61, m at next level, right associativity).

(* ================================================================== *)
(** ** The Limit model *)

Module LimitModel.
Import JSNum JSDate Limit.

Local Open Scope Q_scope.

(** Getters of the schema ([get: v => Math.round(v * 100) / 100]). *)
Definition get_valorLimite (l : doc) : Q := round2 (valorLimite l).
Definition get_valorGasto (l : doc) : Q := round2 (valorGasto l).

(** Assignment to [valorGasto], through the setter of the schema. *)
Definition set_valorGasto (v : Q) (l : doc) : doc :=
  mk (_id l) (user l) (nome l) (tipo l) (valorLimite l) (round2 v)
     (periodo l) (categoria l) (categoriaId l) (cartao l) (cartaoId l)
     (ativo l) (ultimoReset l) (proximoReset l).

Definition set_ultimoReset (t : Z) (l : doc) : doc :=
  mk (_id l) (user l) (nome l) (tipo l) (valorLimite l) (valorGasto l)
     (periodo l) (categoria l) (categoriaId l) (cartao l) (cartaoId l)
     (ativo l) t (proximoReset l).

Definition set_proximoReset (t : Z) (l : doc) : doc :=
  mk (_id l) (user l) (nome l) (tipo l) (valorLimite l) (valorGasto l)
     (periodo l) (categoria l) (categoriaId l) (cartao l) (cartaoId l)
     (ativo l) (ultimoReset l) (Some t).

(** Virtual [percentualUsado]. *)
Definition percentualUsado (l : doc) : Q :=
  if Qeq_bool (get_valorLimite l) 0 then 0
  else Math_min ((get_valorGasto l / get_valorLimite l) * 100) 100.

(** Division that records a zero divisor. *)
Definition checked_div (x y : Q) : option Q :=
  if Qeq_bool y 0 then None else Some (x / y).

(** [percentualUsado] with every division checked: [None] when a division
    by zero is evaluated. *)
Definition percentualUsado_checked (l : doc) : option Q :=
  if Qeq_bool (get_valorLimite l) 0 then Some 0
  else match checked_div (get_valorGasto l) (get_valorLimite l) with
       | Some q => Some (Math_min (q * 100) 100)
       | None => None
       end.

(** Virtual [valorRestante]. *)
Definition valorRestante (l : doc) : Q :=
  Math_max 0 (get_valorLimite l - get_valorGasto l).

(** Virtual [excedido]. *)
Definition excedido (l : doc) : bool :=
  Qltb (get_valorLimite l) (get_valorGasto l).

Inductive StatusLimite : Type :=
  st_excedido | st_critico | st_alerta | st_atencao | st_normal.

(** Virtual [status].  The thresholds are compared with the exact
    percentage; the code compares the binary64 one, which for a quotient
    such as 8.1 / 9 lies just under the threshold the exact one meets. *)
Definition status (l : doc) : StatusLimite :=
  let percentual := percentualUsado l in
  if Qle_bool 100 percentual then st_excedido
  else if Qle_bool 90 percentual then st_critico
  else if Qle_bool 75 percentual then st_alerta
  else if Qle_bool 50 percentual then st_atencao
  else st_normal.

Section Zone.
Variable tza : Z.

Local Open Scope Z_scope.

(** Virtual [proximoResetCalculado]. *)
Definition proximoResetCalculado (l : doc) : Z :=
  let proximo := ultimoReset l in
  match periodo l with
  | diario => setDate tza proximo (getDate tza proximo + 1)
  | semanal => setDate tza proximo (getDate tza proximo + 7)
  | mensal => setMonth tza proximo (getMonth tza proximo + 1)
  | anual => setFullYear tza proximo (getFullYear tza proximo + 1)
  end.

(** [pre('save')]: the duplicated reference paths are synchronised and
    [proximoReset] is recomputed. *)
Definition preSave (l : doc) : doc :=
  let '(cat, catId) :=
    match categoria l, categoriaId l with
    | Some c, None => (Some c, Some c)
    | None, Some c => (Some c, Some c)
    | c, c' => (c, c')
    end in
  let '(card, cardId) :=
    match cartao l, cartaoId l with
    | Some c, None => (Some c, Some c)
    | None, Some c => (Some c, Some c)
    | c, c' => (c, c')
    end in
  mk (_id l) (user l) (nome l) (tipo l) (valorLimite l) (valorGasto l)
     (periodo l) cat catId card cardId (ativo l) (ultimoReset l)
     (Some (proximoResetCalculado l)).

(** The validators of the schema that a stored document can fail:
    [nome] required, which an absent path and the empty string both
    fail, and of a [length] of at most 100; [valorLimite] and
    [valorGasto] at least 0.  A [nome] that was set went through the
    [trim] setter then; the methods below do not set it. *)
Definition validate (l : doc) : bool :=
  match nome l with
  | Some n => negb (String.eqb n "") && Nat.leb (JSString.length n) 100
  | None => false
  end
  && Qle_bool 0 (valorLimite l) && Qle_bool 0 (valorGasto l).

(** The collection with the document of the same [_id] replaced. *)
Definition replace_doc (l : doc) (ls : list doc) : list doc :=
  map (fun x => if oid_eqb (_id x) (_id l) then l else x) ls.

(** [doc.save()] of a document read from the collection: validation, the
    [pre('save')] hook, then the write. *)
Definition save (l : doc) : DbOp doc :=
  fun db =>
    if validate l then
      let l' := preSave l in
      (inr l', with_limits (replace_doc l' (limits db)) db)
    else (inl ValidationError, db).


(** Method [resetar]; [now] is the value of [new Date()]. *)
Definition resetar_doc (now : Z) (l : doc) : doc :=
  let l1 := set_valorGasto 0%Q l in
  let l2 := set_ultimoReset now l1 in
  set_proximoReset (proximoResetCalculado l2) l2.

Definition resetar (now : Z) (l : doc) : DbOp doc :=
  save (resetar_doc now l).

(** Static [findToReset]; [agora] is the value of [new Date()]. *)
Definition findToReset (agora : Z) (db : DB) : list doc :=
  filter (fun l => ativo l &&
                   match proximoReset l with
                   | Some p => p <=? agora
                   | None => false
                   end) (limits db).

(** The filter of [updateFromTransactions]: the three branches of its
    [$or], each over [query = { user: userId, ativo: true }]. *)
Definition applies (userId : ObjectId) (categoriaId cartaoId : option ObjectId)
    (l : doc) : bool :=
  let query := oid_eqb (user l) userId && Bool.eqb (ativo l) true in
  (query && TipoLimite_eqb (tipo l) geral)
  || (query && TipoLimite_eqb (tipo l) categoria_
      && ref_eqb (Limit.categoriaId l) categoriaId)
  || (query && TipoLimite_eqb (tipo l) cartao_
      && ref_eqb (Limit.cartaoId l) cartaoId).

(** [limit.valorGasto += Math.abs(valor)]: the path is read through its
    getter and assigned through its setter. *)
Definition accrue (valor : Q) (limit : doc) : doc :=
  set_valorGasto (get_valorGasto limit + Math_abs valor)%Q limit.

(** The loop of [updateFromTransactions]: each document found is
    incremented and saved in turn; a rejected save ends the loop with the
    earlier writes kept. *)
Fixpoint saveEach (valor : Q) (found : list doc) : DbOp (list doc) :=
  match found with
  | [] => ret []
  | limit :: rest =>
      saved <- save (accrue valor limit) ;;
      others <- saveEach valor rest ;;
      ret (saved :: others)
  end.

(** What the loop stores for a limit it found. *)
Definition saved (valor : Q) (l : doc) : doc := preSave (accrue valor l).

(** Static [updateFromTransactions]. *)
Definition updateFromTransactions (userId : ObjectId)
    (categoriaId cartaoId : option ObjectId) (valor : Q) : DbOp (list doc) :=
  fun db =>
    let found := filter (applies userId categoriaId cartaoId) (limits db) in
    saveEach valor found db.

End Zone.

(** The collection with [f] applied to the documents whose [_id] is
    selected. *)
Definition updated (f : doc -> doc) (ls : list doc)
    (sel : ObjectId -> bool) : list doc :=
  map (fun x => if sel (_id x) then f x else x) ls.


(** The limits an expense counts against, in the words of the
    specification: the active limits of the owner that are general, or of
    kind category with the category of the expense, or of kind card with
    its card. *)
Definition matching_limit (ownerId : ObjectId)
    (categoryId cardId : option ObjectId) (l : doc) : Prop :=
  user l = ownerId /\ ativo l = true
  /\ (tipo l = geral
      \/ (tipo l = categoria_ /\ Limit.categoriaId l = categoryId)
      \/ (tipo l = cartao_ /\ Limit.cartaoId l = cardId)).

End LimitModel.

(* ================================================================== *)
(** ** The Limit model: alerts and statistics *)

Module LimitStatics.
Import JSNum Limit LimitModel.

(** The filter [{ user: userId, ativo: true }]. *)
Definition active_of (userId : ObjectId) (l : doc) : bool :=
  oid_eqb (user l) userId && Bool.eqb (ativo l) true.


Record Stats : Type := mkStats {
  total : Z;
  ativos : Z;
  excedidos : Z;
  emAlerta : Z
}.

(** [countDocuments(filter)] on the limits. *)
Definition countDocuments (p : doc -> bool) (db : DB) : Z :=
  Z.of_nat (List.length (filter p (limits db))).

(** Static [getStatsByUser]. *)
Definition getStatsByUser (userId : ObjectId) (db : DB) : Stats :=
  mkStats
    (countDocuments (fun l => oid_eqb (user l) userId) db)
    (countDocuments (active_of userId) db)
    (Z.of_nat (List.length
                 (filter (fun limit => excedido limit)
                         (filter (active_of userId) (limits db)))))
    (Z.of_nat (List.length
                 (filter (fun limit => Qle_bool 75 (percentualUsado limit))
                         (filter (active_of userId) (limits db))))).

End LimitStatics.

(* ================================================================== *)
(** ** Aggregation stages *)

Module Aggregate.
Import JSNum.

Section Group.
Context {A K Acc : Type}.
Variable key_eqb : K -> K -> bool.
Variable key : A -> K.
Variable init : Acc.
Variable step : Acc -> A -> Acc.

(** One document enters its group; a new group is opened at the end. *)
Fixpoint group_add (d : A) (gs : list (K * Acc)) : list (K * Acc) :=
  match gs with
  | [] => [(key d, step init d)]
  | (k, acc) :: rest =>
      if key_eqb k (key d) then (k, step acc d) :: rest
      else (k, acc) :: group_add d rest
  end.

(** [$group]: one output per distinct key, with its accumulators. *)
Definition group (docs : list A) : list (K * Acc) :=
  fold_left (fun gs d => group_add d gs) docs [].

End Group.

Section Sort.
Context {A : Type}.
Variable field : A -> Z.

Fixpoint insert_sorted (x : A) (l : list A) : list A :=
  match l with
  | [] => [x]
  | y :: rest =>
      if (field x <? field y)%Z then x :: y :: rest
      else y :: insert_sorted x rest
  end.

(** [$sort: { field: 1 }]. *)
Definition sort_asc (l : list A) : list A :=
  fold_right insert_sorted [] l.

End Sort.

(** A plain JavaScript object used as a map: the last assignment to a key
    is the one read. *)
Section Obj.
Context {K V : Type}.
Variable key_eqb : K -> K -> bool.

Definition obj_set (k : K) (v : V) (o : list (K * V)) : list (K * V) :=
  (k, v) :: o.

Fixpoint obj_get (k : K) (o : list (K * V)) : option V :=
  match o with
  | [] => None
  | (k', v) :: rest => if key_eqb k' k then Some v else obj_get k rest
  end.

End Obj.

End Aggregate.

(* ================================================================== *)
(** ** HTTP responses *)

Inductive BudgetStatus : Type := safe | warning | exceeded.

(** One entry of the budget view. *)
Module View.
Record t : Type := mk {
  id : ObjectId;
  name : string;
  icon : option string;
  budget : Q;
  spent : Q;
  remaining : Q;
  percentage : Z;
  transactions : Z;
  status : BudgetStatus
}.
End View.

Inductive Response : Type :=
| json_message (statusCode : Z) (message : string)   (* success: false *)
| json_views (statusCode : Z) (data : list View.t)
| json_view (statusCode : Z) (data : View.t)
| json_transaction (statusCode : Z) (data : Transaction.doc)
| json_success (statusCode : Z).

Definition statusCode_of (r : Response) : Z :=
  match r with
  | json_message c _ | json_views c _ | json_view c _
  | json_transaction c _ | json_success c => c
  end.

(** [errorHandler]: the response for an error a handler rejects with
    (a [CastError] ends as 400 "ID inválido": the later test of the handler
    overrides the earlier 404); the list of failed validators is left out
    of the message. *)
Definition errorHandler (e : MongooseError) : Response :=
  match e with
  | ValidationError => json_message 400 "Dados inválidos"
  | CastError => json_message 400 "ID inválido"
  end.

(* ================================================================== *)
(** ** The category-limit controller *)

Module CategoryLimitController.
Import JSNum JSDate Aggregate.

Local Open Scope Q_scope.

(** A string is truthy when it is not empty. *)
Definition truthy (s : string) : bool := negb (String.eqb s "").

Definition is_hex (c : ascii) : bool :=
  let n := nat_of_ascii c in
  ((48 <=? n) && (n <=? 57) || (65 <=? n) && (n <=? 70)
   || (97 <=? n) && (n <=? 102))%nat.

Fixpoint all_hex (s : string) : bool :=
  match s with
  | EmptyString => true
  | String c rest => is_hex c && all_hex rest
  end.

Definition lower (c : ascii) : ascii :=
  let n := nat_of_ascii c in
  if ((65 <=? n) && (n <=? 70))%nat then ascii_of_nat (n + 32) else c.

Fixpoint lower_hex (s : string) : string :=
  match s with
  | EmptyString => EmptyString
  | String c rest => String (lower c) (lower_hex rest)
  end.

(** The cast Mongoose applies to a 24-character string used where the
    schema has an [ObjectId]: 24 hexadecimal digits, or a [CastError]. *)
Definition castObjectId (s : string) : option ObjectId :=
  if all_hex s then Some (lower_hex s) else None.

Section Handlers.
Variable tza : Z.

(** The current month: [start] its first instant, [end] second 23:59:59
    of its last day, in local time. *)
Definition monthWindow (now : Z) : Z * Z :=
  let ano := getFullYear tza now in
  let mes := (getMonth tza now + 1)%Z in
  (newDate tza ano (mes - 1) 1 0 0 0, newDate tza ano mes 0 23 59 59).

(** The accumulators [{ total: { $sum: '$valor' }, count: { $sum: 1 } }]. *)
Definition sum_count (acc : Q * Z) (t : Transaction.doc) : Q * Z :=
  (fst acc + Transaction.valor t, (snd acc + 1)%Z).

(** The view computed from a budget and the month's spending; shared by
    the list and by the upsert.  The quotient is the exact one; the code
    rounds the binary64 product, which for 19.9 spent of 20 is
    99.49999999999999 and gives 99 where the exact 99.5 gives 100. *)
Definition percentage_of (budget spent : Q) : Z :=
  if Qltb 0 budget then Math_round ((spent / budget) * 100) else 0%Z.

Definition status_of (percentage : Z) : BudgetStatus :=
  if (100 <=? percentage)%Z then exceeded
  else if (80 <=? percentage)%Z then warning
  else safe.

(** A limit with its [categoria] path populated. *)
Definition populate (db : DB) (l : Limit.doc)
  : Limit.doc * option Category.doc :=
  (l, match Limit.categoria l with
      | Some c => find (fun cat => oid_eqb (Category._id cat) c)
                       (categories db)
      | None => None
      end).

(** [getCategoryLimits]. *)
Definition getCategoryLimits (now : Z) (userId : ObjectId) (db : DB)
  : Response :=
  let '(start, end_) := monthWindow now in
  let categories :=
    filter (fun c => oid_eqb (Category.user c) userId) (categories db) in
  let limits :=
    map (populate db)
        (filter (fun l => oid_eqb (Limit.user l) userId
                          && TipoLimite_eqb (Limit.tipo l) categoria_
                          && Bool.eqb (Limit.ativo l) true) (limits db)) in
  let transactions :=
    group ref_eqb Transaction.categoria (0, 0%Z) sum_count
      (filter (fun t => oid_eqb (Transaction.user t) userId
                        && Tipo_eqb (Transaction.tipo t) despesa
                        && (start <=? Transaction.data t)%Z
                        && (Transaction.data t <=? end_)%Z)
              (transactions db)) in
  let gastosPorCategoria :=
    fold_left (fun o t => obj_set (fst t) (snd t) o) transactions [] in
  let limitByCategory :=
    fold_left
      (fun o limit =>
         let catId :=
           match snd limit with
           | Some c => Some (Category._id c)
           | None => Limit.categoriaId (fst limit)
           end in
         obj_set catId limit o) limits [] in
  let response :=
    map (fun cat =>
           let catId := Some (Category._id cat) in
           let limit := obj_get ref_eqb catId limitByCategory in
           let gasto := obj_get ref_eqb catId gastosPorCategoria in
           let spent := match gasto with
                        | Some g => or_zero (fst g)
                        | None => 0
                        end in
           let transactions := match gasto with
                               | Some g => snd g
                               | None => 0%Z
                               end in
           let budget := match limit with
                         | Some (l, _) => or_zero (Limit.valorLimite l)
                         | None => 0
                         end in
           let remaining := Math_max 0 (budget - spent) in
           let percentage := percentage_of budget spent in
           let status := status_of percentage in
           let name :=
             match limit with
             | Some (_, Some c) =>
                 if truthy (Category.nome c) then Category.nome c
                 else if truthy (Category.nome cat) then Category.nome cat
                 else "Categoria"%string
             | _ => if truthy (Category.nome cat) then Category.nome cat
                    else "Categoria"%string
             end in
           let icon :=
             match limit with
             | Some (_, Some c) =>
                 if truthy (Category.icone c) then Some (Category.icone c)
                 else if truthy (Category.icone cat)
                      then Some (Category.icone cat) else None
             | _ => if truthy (Category.icone cat)
                    then Some (Category.icone cat) else None
             end in
           View.mk (match limit with
                    | Some (l, _) => Limit._id l
                    | None => Category._id cat
                    end)
                   name icon budget spent remaining percentage transactions
                   status)
        (filter (fun cat => Tipo_eqb (Category.tipo cat) despesa) categories)
  in
  json_views 200 response.

(** The body of [POST /]: [categoriaId] when it is a string and [valor]
    when it is a number, [None] when the field is missing.  (A
    [categoriaId] of another JSON type is answered 400 as well, by the
    second test of the handler.) *)
Record UpsertBody : Type := mkBody {
  body_categoriaId : option string;
  body_valor : option Q
}.

(** [Limit.findOneAndUpdate(filter, update, { new, upsert, runValidators })]
    of the upsert.  [fresh] is the [_id] given to an inserted document and
    [now] its [ultimoReset] default. *)
Definition findOneAndUpdate (fresh : ObjectId) (now : Z)
    (userId categoriaId : ObjectId) (valor : Q) (db : DB) : Limit.doc * DB :=
  match find (fun l => oid_eqb (Limit.user l) userId
                       && ref_eqb (Limit.categoria l) (Some categoriaId)
                       && TipoLimite_eqb (Limit.tipo l) categoria_)
             (limits db) with
  | Some l =>
      let l' := Limit.mk (Limit._id l) (Limit.user l) (Limit.nome l)
                  categoria_ (round2 valor) (Limit.valorGasto l)
                  (Limit.periodo l) (Some categoriaId) (Some categoriaId)
                  (Limit.cartao l) (Limit.cartaoId l) true
                  (Limit.ultimoReset l) (Limit.proximoReset l) in
      (l', with_limits (LimitModel.replace_doc l' (limits db)) db)
  | None =>
      let l' := Limit.mk fresh userId None categoria_ (round2 valor) 0
                  mensal (Some categoriaId) (Some categoriaId) None None true
                  now None in
      (l', with_limits (limits db ++ [l']) db)
  end.

(** [limit.nome || 'Categoria'], the display name used when no category
    document gives one. *)
Definition fallback_name (limit : Limit.doc) : string :=
  match Limit.nome limit with
  | Some n => if truthy n then n else "Categoria"%string
  | None => "Categoria"%string
  end.

(** [upsertCategoryLimit]. *)
Definition upsertCategoryLimit (fresh : ObjectId) (now : Z)
    (userId : ObjectId) (body : UpsertBody) (db : DB) : Response * DB :=
  match body_categoriaId body, body_valor body with
  | Some categoriaId, Some valor =>
      if negb (truthy categoriaId) || Qeq_bool valor 0 || Qle_bool valor 0
      then (json_message 400 "Categoria e valor (>0) são obrigatórios.", db)
      else if negb (JSString.length categoriaId =? 24)%nat
      then (json_message 400 "ID da categoria inválido.", db)
      else
        match castObjectId categoriaId with
        | None => (errorHandler CastError, db)
        | Some cid =>
            let '(limit, db') := findOneAndUpdate fresh now userId cid valor db in
            let category :=
              find (fun c => oid_eqb (Category._id c) cid) (categories db') in
            let '(start, end_) := monthWindow now in
            let transactions :=
              group ref_eqb Transaction.categoria (0, 0%Z) sum_count
                (filter (fun t => oid_eqb (Transaction.user t) userId
                                  && Tipo_eqb (Transaction.tipo t) despesa
                                  && ref_eqb (Transaction.categoria t)
                                             (Limit.categoria limit)
                                  && (start <=? Transaction.data t)%Z
                                  && (Transaction.data t <=? end_)%Z)
                        (transactions db')) in
            let spent := match transactions with
                         | g :: _ => or_zero (fst (snd g))
                         | [] => 0
                         end in
            let transactionsCount := match transactions with
                                     | g :: _ => snd (snd g)
                                     | [] => 0%Z
                                     end in
            let budget := or_zero (LimitModel.get_valorLimite limit) in
            let remaining := Math_max 0 (budget - spent) in
            let percentage := percentage_of budget spent in
            let status := status_of percentage in
            (json_view 201
               (View.mk (Limit._id limit)
                  (match category with
                   | Some c => if truthy (Category.nome c) then Category.nome c
                               else fallback_name limit
                   | None => fallback_name limit
                   end)
                  (match category with
                   | Some c => if truthy (Category.icone c)
                               then Some (Category.icone c) else None
                   | None => None
                   end)
                  budget spent remaining percentage transactionsCount status),
             db')
        end
  | _, _ => (json_message 400 "Categoria e valor (>0) são obrigatórios.", db)
  end.

(** The collection without the first document the filter matches
    ([findOneAndDelete]). *)
Fixpoint delete_first {A} (p : A -> bool) (l : list A) : list A :=
  match l with
  | [] => []
  | x :: rest => if p x then rest else x :: delete_first p rest
  end.

(** [deleteCategoryLimit]. *)
Definition deleteCategoryLimit (userId : ObjectId) (categoryName : string)
    (db : DB) : Response * DB :=
  match find (fun c => String.eqb (Category.nome c) categoryName)
             (categories db) with
  | None => (json_message 404 "Categoria não encontrada.", db)
  | Some category =>
      (json_success 200,
       with_limits
         (delete_first
            (fun l => oid_eqb (Limit.user l) userId
                      && ref_eqb (Limit.categoria l)
                                 (Some (Category._id category))
                      && TipoLimite_eqb (Limit.tipo l) categoria_)
            (limits db)) db)
  end.

End Handlers.

End CategoryLimitController.

(* ================================================================== *)
(** ** The transaction controller: create *)

Module TransactionController.
Import JSNum.

(** The body of [POST /transactions] once [transactionValidation.create]
    has accepted it. *)
Record Body : Type := mkBody {
  tipo : Tipo;
  valor : Q;
  descricao : string;
  data : Z;
  categoria_id : option ObjectId;
  categoriaId : option ObjectId;
  categoria : option ObjectId;
  cartao : option ObjectId;
  cartaoId : option ObjectId;
  status : option Status
}.

(** [pre('save')] of the transaction schema. *)
Definition preSave (t : Transaction.doc) : Transaction.doc :=
  let '(cat, catId) :=
    match Transaction.categoria t, Transaction.categoriaId t with
    | Some c, None => (Some c, Some c)
    | None, Some c => (Some c, Some c)
    | c, c' => (c, c')
    end in
  let '(card, cardId) :=
    match Transaction.cartao t, Transaction.cartaoId t with
    | Some c, None => (Some c, Some c)
    | None, Some c => (Some c, Some c)
    | c, c' => (c, c')
    end in
  Transaction.mk (Transaction._id t) (Transaction.user t) (Transaction.tipo t)
    (Transaction.valor t) (Transaction.descricao t) (Transaction.data t)
    cat catId card cardId (Transaction.status t).

(** The validators of the transaction schema a built document can fail:
    [descricao] required and of a [length] of at most 500.  The [trim]
    setter of the path is left out: the validation chain of the route
    has trimmed the [descricao] of the body. *)
Definition validate (t : Transaction.doc) : bool :=
  negb (String.eqb (Transaction.descricao t) "")
  && Nat.leb (JSString.length (Transaction.descricao t)) 500.

(** [transactionRepository.create]: [new Transaction(data)], [save], and
    the document read back. *)
Definition create (t : Transaction.doc) : DbOp Transaction.doc :=
  fun db =>
    if validate t then
      let saved := preSave t in
      (inr saved, with_transactions (transactions db ++ [saved]) db)
    else (inl ValidationError, db).

(** [createTransaction]; [fresh] is the [_id] of the new document.  The
    repository rethrows a rejection of Mongoose as a plain [Error], which
    the error handler answers with status 500; its message goes on with
    the text of Mongoose, left out here. *)
Definition createTransaction (fresh : ObjectId) (userId : ObjectId)
    (body : Body) (db : DB) : Response * DB :=
  let categoria1 :=
    match categoria_id body with
    | Some c => Some c
    | None => categoria body
    end in
  let categoria2 :=
    match categoriaId body with
    | Some c => Some c
    | None => categoria1
    end in
  let data_ :=
    Transaction.mk fresh userId (tipo body) (round2 (valor body))
      (descricao body) (data body) categoria2 None (cartao body)
      (cartaoId body)
      (match status body with Some s => s | None => confirmada end) in
  match create data_ db with
  | (inr transaction, db') => (json_transaction 201 transaction, db')
  | (inl _, db') => (json_message 500 "Erro ao criar transação", db')
  end.

(** The transaction with another status, and the database with the
    statuses of its transactions rewritten. *)
Definition set_status (st : Status) (t : Transaction.doc) : Transaction.doc :=
  Transaction.mk (Transaction._id t) (Transaction.user t) (Transaction.tipo t)
    (Transaction.valor t) (Transaction.descricao t) (Transaction.data t)
    (Transaction.categoria t) (Transaction.categoriaId t)
    (Transaction.cartao t) (Transaction.cartaoId t) st.

Definition restatus (f : Transaction.doc -> Status) (db : DB) : DB :=
  with_transactions (map (fun t => set_status (f t) t) (transactions db)) db.

End TransactionController.

(* ================================================================== *)
(** ** The cash-flow report *)

Module ReportService.
Import JSNum JSDate Aggregate.

Local Open Scope Q_scope.

(** One output of [getMonthlyCashFlow]. *)
Record FluxoMes : Type := mkFluxo {
  mes : Z;
  receitas : Q;
  despesas : Q;
  saldo : Q
}.

(** One entry of [fluxoMensal]: [{ ...mes, saldoAcumulado }]. *)
Record FluxoAcumulado : Type := mkAcumulado {
  fluxo : FluxoMes;
  saldoAcumulado : Q
}.

Record ResumoAnual : Type := mkResumo {
  totalReceitas : Q;
  totalDespesas : Q;
  saldoTotal : Q;
  mediaReceitas : Q;
  mediaDespesas : Q;
  mediaSaldo : Q
}.

(** The report, without its [analises] texts. *)
Record CashFlowReport : Type := mkReport {
  ano : Z;
  fluxoMensal : list FluxoAcumulado;
  resumoAnual : ResumoAnual
}.

Definition month_tipo_eqb (a b : Z * Tipo) : bool :=
  (fst a =? fst b)%Z && Tipo_eqb (snd a) (snd b).

Section Zone.
Variable tza : Z.

(** The [$match] stage of [getMonthlyCashFlow]. *)
Definition cashFlowMatch (userId : ObjectId) (year : Z)
    (t : Transaction.doc) : bool :=
  let startDate := newDate tza year 0 1 0 0 0 in
  let endDate := newDate tza year 11 31 23 59 59 in
  oid_eqb (Transaction.user t) userId
  && Status_eqb (Transaction.status t) confirmada
  && (startDate <=? Transaction.data t)%Z
  && (Transaction.data t <=? endDate)%Z.

(** [transactionRepository.getMonthlyCashFlow]: the five stages of its
    pipeline. *)
Definition getMonthlyCashFlow (userId : ObjectId) (year : Z) (db : DB)
  : list FluxoMes :=
  let matched := filter (cashFlowMatch userId year) (transactions db) in
  let byMonthTipo :=
    group month_tipo_eqb
      (fun t => (mongo_month (Transaction.data t), Transaction.tipo t))
      0 (fun total t => total + Transaction.valor t) matched in
  let byMonth :=
    group Z.eqb (fun g : (Z * Tipo) * Q => fst (fst g)) (0, 0)
      (fun acc g =>
         (fst acc + (if Tipo_eqb (snd (fst g)) receita
                     then Qabs (snd g) else 0),
          snd acc + (if Tipo_eqb (snd (fst g)) despesa
                     then Qabs (snd g) else 0)))
      byMonthTipo in
  let projected :=
    map (fun g : Z * (Q * Q) =>
           mkFluxo (fst g) (fst (snd g)) (snd (snd g))
                   (fst (snd g) - snd (snd g))) byMonth in
  sort_asc mes projected.

(** The months of the loop [for (let mes = 1; mes <= 12; mes++)]. *)
Definition meses : list Z := map Z.of_nat (seq 1 12).

(** The running balance of the [map] over [fluxoCompleto]. *)
Fixpoint acumular (saldoAcumulado : Q) (fluxoCompleto : list FluxoMes)
  : list FluxoAcumulado :=
  match fluxoCompleto with
  | [] => []
  | m :: rest =>
      let saldoAcumulado := saldoAcumulado + saldo m in
      mkAcumulado m saldoAcumulado :: acumular saldoAcumulado rest
  end.

(** [reportService.generateCashFlowReport]. *)
Definition generateCashFlowReport (userId : ObjectId) (ano : Z) (db : DB)
  : CashFlowReport :=
  let fluxoCaixa := getMonthlyCashFlow userId ano db in
  let fluxoCompleto :=
    map (fun m =>
           match find (fun f => (mes f =? m)%Z) fluxoCaixa with
           | Some dadosMes => dadosMes
           | None => mkFluxo m 0 0 0
           end) meses in
  let fluxoComAcumulado := acumular 0 fluxoCompleto in
  let totalReceitas :=
    fold_left (fun sum m => sum + receitas m) fluxoCompleto 0 in
  let totalDespesas :=
    fold_left (fun sum m => sum + despesas m) fluxoCompleto 0 in
  let saldoTotal := totalReceitas - totalDespesas in
  mkReport ano fluxoComAcumulado
    (mkResumo totalReceitas totalDespesas saldoTotal
       (totalReceitas / 12) (totalDespesas / 12) (saldoTotal / 12)).

End Zone.

(** The database without its pending and cancelled transactions. *)
Definition confirmed_only (db : DB) : DB :=
  with_transactions
    (filter (fun t => Status_eqb (Transaction.status t) confirmada)
            (transactions db)) db.

End ReportService.

(* ================================================================== *)
(** ** The transaction repository and the handlers by id *)

Module TransactionRepository.
Import JSNum Aggregate.

Local Open Scope Q_scope.

(** [findById], without the populated display paths. *)
Definition findById (id : ObjectId) (db : DB) : option Transaction.doc :=
  find (fun t => oid_eqb (Transaction._id t) id) (transactions db).

(** The paths an update sets; a path the body does not have is [None]. *)
Record UpdateData : Type := mkUpdate {
  u_user : option ObjectId;
  u_tipo : option Tipo;
  u_valor : option Q;
  u_descricao : option string;
  u_data : option Z;
  u_categoria : option ObjectId;
  u_cartao : option ObjectId;
  u_cartaoId : option ObjectId;
  u_status : option Status
}.

Definition or_else {A} (o : option A) (a : A) : A :=
  match o with Some x => x | None => a end.

Definition or_keep {A} (o : option A) (a : option A) : option A :=
  match o with Some x => Some x | None => a end.

(** The document with the paths of the update set ([valor] through its
    setter); [categoriaId] is not a path the handler lets through. *)
Definition apply_update (u : UpdateData) (t : Transaction.doc)
  : Transaction.doc :=
  Transaction.mk (Transaction._id t)
    (or_else (u_user u) (Transaction.user t))
    (or_else (u_tipo u) (Transaction.tipo t))
    (match u_valor u with
     | Some v => round2 v
     | None => Transaction.valor t
     end)
    (or_else (u_descricao u) (Transaction.descricao t))
    (or_else (u_data u) (Transaction.data t))
    (or_keep (u_categoria u) (Transaction.categoria t))
    (Transaction.categoriaId t)
    (or_keep (u_cartao u) (Transaction.cartao t))
    (or_keep (u_cartaoId u) (Transaction.cartaoId t))
    (or_else (u_status u) (Transaction.status t)).

(** The update validators ([runValidators: true]) a typed update can
    fail: [descricao], when set, required and of a [length] of at most
    500.  The [trim] setter of the path is left out: the validation
    chain of the route has trimmed the [descricao] of the body. *)
Definition validate_update (u : UpdateData) : bool :=
  match u_descricao u with
  | Some d => negb (String.eqb d "") && Nat.leb (JSString.length d) 500
  | None => true
  end.

(** The collection with the first document of that [_id] replaced. *)
Fixpoint replace_first (id : ObjectId) (t' : Transaction.doc)
    (ts : list Transaction.doc) : list Transaction.doc :=
  match ts with
  | [] => []
  | t :: rest =>
      if oid_eqb (Transaction._id t) id then t' :: rest
      else t :: replace_first id t' rest
  end.

(** [update]: [findByIdAndUpdate] and the document read back; [None]
    when no document has the id.  A rejection of Mongoose is rethrown by
    the repository as a plain [Error]. *)
Definition update (id : ObjectId) (updateData : UpdateData) (db : DB)
  : (unit + option Transaction.doc) * DB :=
  if validate_update updateData then
    match findById id db with
    | Some t =>
        let t' := apply_update updateData t in
        let db' :=
          with_transactions (replace_first id t' (transactions db)) db in
        (inr (findById id db'), db')
    | None => (inr None, db)
    end
  else (inl tt, db).

(** The collection without the first document of that [_id]
    ([findByIdAndDelete]). *)
Fixpoint remove_first (id : ObjectId) (ts : list Transaction.doc)
  : list Transaction.doc :=
  match ts with
  | [] => []
  | t :: rest =>
      if oid_eqb (Transaction._id t) id then rest
      else t :: remove_first id rest
  end.

Definition delete (id : ObjectId) (db : DB) : DB :=
  with_transactions (remove_first id (transactions db)) db.

Record Summary : Type := mkSummary {
  receitas : Q;
  despesas : Q;
  saldo : Q;
  totalTransacoes : Z
}.

(** The [$match] stage of [getFinancialSummary]; the bounds on [data]
    are optional. *)
Definition summaryMatch (userId : ObjectId) (startDate endDate : option Z)
    (t : Transaction.doc) : bool :=
  oid_eqb (Transaction.user t) userId
  && Status_eqb (Transaction.status t) confirmada
  && match startDate with
     | Some s => (s <=? Transaction.data t)%Z
     | None => true
     end
  && match endDate with
     | Some e => (Transaction.data t <=? e)%Z
     | None => true
     end.

(** One turn of [result.forEach] on the summary. *)
Definition summaryItem (summary : Q * Q * Z) (item : Tipo * (Q * Z))
  : Q * Q * Z :=
  let '(rec, desp, n) := summary in
  match fst item with
  | receita => (Qabs (fst (snd item)), desp, (n + snd (snd item))%Z)
  | despesa => (rec, Qabs (fst (snd item)), (n + snd (snd item))%Z)
  end.

(** [getFinancialSummary]. *)
Definition getFinancialSummary (userId : ObjectId)
    (startDate endDate : option Z) (db : DB) : Summary :=
  let result :=
    group Tipo_eqb Transaction.tipo (0, 0%Z)
      CategoryLimitController.sum_count
      (filter (summaryMatch userId startDate endDate) (transactions db)) in
  let '(rec, desp, n) := fold_left summaryItem result (0, 0, 0%Z) in
  mkSummary rec desp (rec - desp) n.

End TransactionRepository.

(** The handlers of [transactionController] that take an id. *)
Module TransactionById.
Import JSNum TransactionRepository.

Inductive TxResponse : Type :=
| tx_data (statusCode : Z) (data : option Transaction.doc)
| tx_done (statusCode : Z) (message : string)
| tx_error (statusCode : Z) (message : string).

(** [getTransactionById]. *)
Definition getTransactionById (id userId : ObjectId) (db : DB) : TxResponse :=
  match findById id db with
  | None => tx_error 404 "Transação não encontrada"
  | Some transaction =>
      if negb (oid_eqb (Transaction.user transaction) userId)
      then tx_error 403 "Acesso negado"
      else tx_data 200 (Some transaction)
  end.

(** [deleteTransaction]. *)
Definition deleteTransaction (id userId : ObjectId) (db : DB)
  : TxResponse * DB :=
  match findById id db with
  | None => (tx_error 404 "Transação não encontrada", db)
  | Some existingTransaction =>
      if negb (oid_eqb (Transaction.user existingTransaction) userId)
      then (tx_error 403 "Acesso negado", db)
      else (tx_done 200 "Transação deletada com sucesso", delete id db)
  end.

(** The body of [PUT /transactions/:id] once [transactionValidation.update]
    has accepted it. *)
Record UpdateBody : Type := mkUpdateBody {
  b_user : option ObjectId;
  b_tipo : option Tipo;
  b_valor : option Q;
  b_descricao : option string;
  b_data : option Z;
  b_categoria_id : option ObjectId;
  b_categoriaId : option ObjectId;
  b_categoria : option ObjectId;
  b_cartao : option ObjectId;
  b_cartaoId : option ObjectId;
  b_status : option Status
}.

(** The object [data] of [updateTransaction] when it reaches the
    repository: [categoria_id], then [categoriaId], have overwritten
    [categoria] and are deleted. *)
Definition update_of (body : UpdateBody) : UpdateData :=
  let categoria1 := or_keep (b_categoria_id body) (b_categoria body) in
  let categoria2 := or_keep (b_categoriaId body) categoria1 in
  mkUpdate (b_user body) (b_tipo body) (b_valor body) (b_descricao body)
    (b_data body) categoria2 (b_cartao body) (b_cartaoId body)
    (b_status body).

(** [updateTransaction]; the repository ignores the [userId] it is
    given.  An error of the repository is a plain [Error], which the
    error handler answers with status 500; its message goes on with the
    text of Mongoose, left out here. *)
Definition updateTransaction (id userId : ObjectId) (body : UpdateBody)
    (db : DB) : TxResponse * DB :=
  match update id (update_of body) db with
  | (inr transaction, db') => (tx_data 200 transaction, db')
  | (inl _, db') => (tx_error 500 "Erro ao atualizar transação", db')
  end.

End TransactionById.

(* ================================================================== *)
(** ** The report service: the analyses of the cash flow *)

Module ReportAnalysis.
Import JSNum ReportService.

Local Open Scope Q_scope.

(** The entries of [analises], with the numbers their texts quote. *)
Inductive Analise : Type :=
| MesesNegativos (quantos : nat)
| MelhorMes (mes : Z) (saldo : Q)
| PiorMes (mes : Z) (saldo : Q).

(** [Array.prototype.reduce] without an initial value; it throws on an
    empty array. *)
Definition reduce {A} (f : A -> A -> A) (l : list A) : option A :=
  match l with
  | [] => None
  | x :: rest => Some (fold_left f rest x)
  end.

(** [analyzeCashFlow]; [None] is the [TypeError] of [reduce]. *)
Definition analyzeCashFlow (fluxoMensal : list FluxoAcumulado)
  : option (list Analise) :=
  let mesesNegativos :=
    filter (fun m => Qltb (saldo (fluxo m)) 0) fluxoMensal in
  let analises :=
    if (0 <? List.length mesesNegativos)%nat
    then [MesesNegativos (List.length mesesNegativos)]
    else [] in
  match
    reduce (fun max current =>
              if Qltb (saldo (fluxo max)) (saldo (fluxo current))
              then current else max) fluxoMensal,
    reduce (fun min current =>
              if Qltb (saldo (fluxo current)) (saldo (fluxo min))
              then current else min) fluxoMensal
  with
  | Some melhorMes, Some piorMes =>
      Some (analises
            ++ [MelhorMes (mes (fluxo melhorMes)) (saldo (fluxo melhorMes));
                PiorMes (mes (fluxo piorMes)) (saldo (fluxo piorMes))])
  | _, _ => None
  end.

End ReportAnalysis.

(* ================================================================== *)
(** ** Transaction statistics, top categories, monthly evolution *)

Module TransactionStats.
Import JSDate.

Local Open Scope Z_scope.

(** [date.setHours(h, m, s, ms)]: the time value it returns. *)
Definition setHours (tza t h m s ms : Z) : Z :=
  UTC tza (MakeDate (Day (LocalTime tza t)) (MakeTime h m s ms)).

Record Stats : Type := mkStats {
  total : Z;
  receitas : Z;
  despesas : Z;
  pendentes : Z;
  hoje : Z
}.

(** [Transaction.countDocuments(filter)]. *)
Definition countDocuments (p : Transaction.doc -> bool) (db : DB) : Z :=
  Z.of_nat (List.length (filter p (transactions db))).

(** [transactionRepository.getStatsByUser]; [now1] and [now2] are the
    values of the two [new Date()] of the last filter. *)
Definition getStatsByUser (tza now1 now2 : Z) (userId : ObjectId) (db : DB)
  : Stats :=
  mkStats
    (countDocuments (fun t => oid_eqb (Transaction.user t) userId) db)
    (countDocuments (fun t => oid_eqb (Transaction.user t) userId
                              && Tipo_eqb (Transaction.tipo t) receita) db)
    (countDocuments (fun t => oid_eqb (Transaction.user t) userId
                              && Tipo_eqb (Transaction.tipo t) despesa) db)
    (countDocuments (fun t => oid_eqb (Transaction.user t) userId
                              && Status_eqb (Transaction.status t) pendente)
                    db)
    (countDocuments
       (fun t => oid_eqb (Transaction.user t) userId
                 && (setHours tza now1 0 0 0 0 <=? Transaction.data t)
                 && (Transaction.data t <=? setHours tza now2 23 59 59 999))
       db).

End TransactionStats.

Module TopCategories.
Import JSNum.

Local Open Scope Q_scope.

(** One output of [transactionRepository.getByCategory]. *)
Record Row : Type := mkRow {
  categoria : Category.doc;
  tipo : Tipo;
  total : Q;
  count : Z
}.

(** [Array.prototype.sort((a, b) => b.total - a.total)]: the sort is
    stable, so an element stays before the later ones of equal total. *)
Fixpoint insert_desc (x : Row) (l : list Row) : list Row :=
  match l with
  | [] => [x]
  | y :: rest =>
      if Qltb (total x) (total y) then y :: insert_desc x rest
      else x :: y :: rest
  end.

Definition sort_desc (l : list Row) : list Row := fold_right insert_desc [] l.

(** The chain [.filter(t => t.tipo === k).sort(...).slice(0, 5)]. *)
Definition top5 (k : Tipo) (transacoesPorCategoria : list Row) : list Row :=
  firstn 5
    (sort_desc (filter (fun t => Tipo_eqb (tipo t) k) transacoesPorCategoria)).

Record Top : Type := mkTop {
  receitas : list Row;
  despesas : list Row
}.

(** [getTopCategories], from what [getByCategory] returned. *)
Definition getTopCategories (transacoesPorCategoria : list Row) : Top :=
  mkTop (top5 receita transacoesPorCategoria)
        (top5 despesa transacoesPorCategoria).

End TopCategories.

Module MonthlyEvolution.
Import JSDate TransactionRepository.

Local Open Scope Z_scope.

(** One entry of [meses]: [{ ano, mes, ...resumoMes }]. *)
Record MesEvolucao : Type := mkMes {
  ano : Z;
  mes : Z;
  resumo : Summary
}.

Section Zone.
Variable tza : Z.
Variable userId : ObjectId.
Variable db : DB.

(** What one turn of the loop pushes. *)
Definition mesDe (inicio : Z) : MesEvolucao :=
  let inicioMes :=
    newDate tza (getFullYear tza inicio) (getMonth tza inicio) 1 0 0 0 in
  let fimMes :=
    newDate tza (getFullYear tza inicio) (getMonth tza inicio + 1) 0
            23 59 59 in
  let resumoMes :=
    getFinancialSummary userId (Some inicioMes) (Some fimMes) db in
  mkMes (getFullYear tza inicio) (getMonth tza inicio + 1) resumoMes.

(** [inicio.setMonth(inicio.getMonth() + 1)]. *)
Definition avancar (inicio : Z) : Z :=
  setMonth tza inicio (getMonth tza inicio + 1).

(** The loop [while (inicio <= fim)]; [None] when the turns allowed are
    used up before it ends. *)
Fixpoint enquanto (turns : nat) (inicio fim : Z) (meses : list MesEvolucao)
  : option (list MesEvolucao) :=
  match turns with
  | O => None
  | S turns' =>
      if inicio <=? fim
      then enquanto turns' (avancar inicio) fim (meses ++ [mesDe inicio])
      else Some meses
  end.

(** [getMonthlyEvolution]. *)
Definition getMonthlyEvolution (turns : nat) (startDate endDate : Z)
  : option (list MesEvolucao) :=
  enquanto turns startDate endDate [].

(** [getDefaultStartDate]; [hoje] is the value of [new Date()]. *)
Definition getDefaultStartDate (hoje : Z) : Z :=
  newDate tza (getFullYear tza hoje) (getMonth tza hoje - 3) 1 0 0 0.

End Zone.

End MonthlyEvolution.

(* ================================================================== *)
(** ** Concrete documents used by the examples *)

Module Scenario.
Import JSDate.

Local Open Scope string_scope.

Definition alice : ObjectId := "64a000000000000000000001".
Definition bob : ObjectId := "64a000000000000000000002".
Definition food : ObjectId := "64c000000000000000000001".
Definition food_bob : ObjectId := "64c000000000000000000002".
Definition visa : ObjectId := "64d000000000000000000001".

(** 15 June 2024, 12:00 UTC. *)
Definition june15 : Z := newDate 0 2024 5 15 12 0 0.

Definition limit_geral : Limit.doc :=
  Limit.mk "64e000000000000000000001" alice (Some "Geral") geral
    1000 0 mensal None None None None true june15 None.

Definition limit_food : Limit.doc :=
  Limit.mk "64e000000000000000000002" alice (Some "Food") categoria_
    300 0 mensal (Some food) (Some food) None None true june15 None.

Definition limit_inativo : Limit.doc :=
  Limit.mk "64e000000000000000000003" alice (Some "Old") geral
    200 0 mensal None None None None false june15 None.

Definition limit_bob : Limit.doc :=
  Limit.mk "64e000000000000000000004" bob (Some "Geral") geral
    900 0 mensal None None None None true june15 None.

Definition limit_food500 : Limit.doc :=
  Limit.mk "64e000000000000000000005" alice None categoria_
    500 0 mensal (Some food) (Some food) None None true june15 None.

(** Ceiling 300 with 550 accrued, and ceiling 0 with 550 accrued. *)
Definition limit_over : Limit.doc :=
  Limit.mk "64e000000000000000000007" alice (Some "Over") geral
    300 550 mensal None None None None true june15 None.

Definition limit_zero : Limit.doc :=
  Limit.mk "64e000000000000000000008" alice (Some "Zero") geral
    0 550 mensal None None None None true june15 None.

(** A monthly limit last reset on 31 January 2023, 12:00. *)
Definition limit_jan31 : Limit.doc :=
  Limit.mk "64e000000000000000000006" alice (Some "Mensal") geral
    1000 0 mensal None None None None true
    (newDate 0 2023 0 31 12 0 0) None.

Definition cat_food : Category.doc :=
  Category.mk food alice "Food" despesa "utensils".

Definition cat_food_bob : Category.doc :=
  Category.mk food_bob bob "Food" despesa "pizza".

Definition expense (id : ObjectId) (v : Q) (day : Z) (st : Status)
  : Transaction.doc :=
  Transaction.mk id alice despesa v "mercado" (newDate 0 2024 5 day 10 0 0)
    (Some food) (Some food) None None st.

Definition db_limits : DB :=
  mkDB [cat_food] [limit_geral; limit_food; limit_inativo; limit_bob] [].

(** Budget 500 on Food; confirmed expenses of 150, 200 and 200. *)
Definition db_food550 : DB :=
  mkDB [cat_food] [limit_food500]
    [expense "64f000000000000000000001" 150 3 confirmada;
     expense "64f000000000000000000002" 200 7 confirmada;
     expense "64f000000000000000000003" 200 9 confirmada].

(** Budget 500 on Food; one pending and one cancelled expense. *)
Definition db_unconfirmed : DB :=
  mkDB [cat_food] [limit_food500]
    [expense "64f000000000000000000004" 100 3 pendente;
     expense "64f000000000000000000005" 50 7 cancelada].

(** Alice has a limit on her category Food; Bob has a category of the
    same name, created first. *)
Definition db_alice_only : DB := mkDB [cat_food] [limit_food500] [].
Definition db_with_bob : DB := mkDB [cat_food_bob; cat_food] [limit_food500] [].

(** Bob's category Viagem, and a database where it is the only
    category. *)
Definition trip_bob : ObjectId := "64c0000000000000000000b2".

Definition cat_trip_bob : Category.doc :=
  Category.mk trip_bob bob "Viagem" receita "plane".

Definition db_trip : DB := mkDB [cat_trip_bob] [] [].

Definition fresh_id : ObjectId := "64e0000000000000000000ff".

(** A zone three hours behind UTC, and a confirmed expense of 40 on
    31 December 2024 at 22:00 of that zone, which is 1 January 2025 at
    01:00 UTC. *)
Definition utc_minus_3 : Z := -10800000.

Definition expense_dec31 : Transaction.doc :=
  Transaction.mk "64f0000000000000000000d1" alice despesa 40 "ceia"
    (newDate utc_minus_3 2024 11 31 22 0 0)
    (Some food) (Some food) None None confirmada.

Definition db_dec31 : DB := mkDB [cat_food] [] [expense_dec31].


Definition body_trip : CategoryLimitController.UpsertBody :=
  CategoryLimitController.mkBody (Some trip_bob) (Some 100%Q).

Definition body_food500 : CategoryLimitController.UpsertBody :=
  CategoryLimitController.mkBody (Some food) (Some 500%Q).

(** The database [db_food550] with a limit and an expense of Bob added. *)
Definition db_food550_bob : DB :=
  mkDB (categories db_food550) (limit_bob :: limits db_food550)
    (Transaction.mk "64f0000000000000000000b1" bob despesa 999 "bob" june15
       (Some food) (Some food) None None confirmada
     :: transactions db_food550).

Definition body80 : TransactionController.Body :=
  TransactionController.mkBody despesa 80 "mercado" june15 None (Some food)
    None None None None.

(** Bob's expense in [db_food550_bob], and an update that moves a
    transaction to Bob's category with the amount 10. *)
Definition tx_bob : ObjectId := "64f0000000000000000000b1".

Definition update_food_bob : TransactionById.UpdateBody :=
  TransactionById.mkUpdateBody None None (Some 10%Q) None None None
    (Some food_bob) None None None None.

End Scenario.
Module DateFacts.
Import JSDate.

Ltac euclid := Z.to_euclidean_division_equations; lia.

Lemma DayFromYear_succ y : DayFromYear (y + 1) = DayFromYear y + DaysInYear y.
Proof.
  unfold DayFromYear, DaysInYear.
  assert (H4 : (y + 1 - 1969) / 4
               = (y - 1969) / 4 + (if y mod 4 =? 0 then 1 else 0))
    by (destruct (Z.eqb_spec (y mod 4) 0); euclid).
  assert (H100 : (y + 1 - 1901) / 100
                 = (y - 1901) / 100 + (if y mod 100 =? 0 then 1 else 0))
    by (destruct (Z.eqb_spec (y mod 100) 0); euclid).
  assert (H400 : (y + 1 - 1601) / 400
                 = (y - 1601) / 400 + (if y mod 400 =? 0 then 1 else 0))
    by (destruct (Z.eqb_spec (y mod 400) 0); euclid).
  assert (H1 : y mod 400 = 0 -> y mod 100 = 0) by euclid.
  assert (H2 : y mod 100 = 0 -> y mod 4 = 0) by euclid.
  rewrite H4, H100, H400.
  destruct (Z.eqb_spec (y mod 4) 0), (Z.eqb_spec (y mod 100) 0),
    (Z.eqb_spec (y mod 400) 0); cbn [negb]; lia.
Qed.

(** The computed year is the one of ECMA-262: the last year that starts
    on or before the day. *)
Lemma YearFromDay_spec d :
  DayFromYear (YearFromDay d) <= d < DayFromYear (YearFromDay d + 1).
Proof.
  unfold YearFromDay.
  set (y := 1970 + 400 * d / 146097).
  destruct (Z.ltb_spec d (DayFromYear y)).
  - replace (y - 1 + 1) with y by lia. split; [|lia].
    unfold DayFromYear in *. subst y. euclid.
  - destruct (Z.leb_spec (DayFromYear (y + 1)) d).
    + split; [lia|]. replace (y + 1 + 1) with (y + 2) by lia.
      unfold DayFromYear in *. subst y. euclid.
    + lia.
Qed.

End DateFacts.

Module DateSetters.
Import JSDate DateFacts.

Lemma MonthFromTime_range t : 0 <= MonthFromTime t <= 11.
Proof.
  unfold MonthFromTime.
  repeat match goal with
         | |- context [if ?c then _ else _] => destruct c
         end; lia.
Qed.

Lemma DaysInYear_leap y : DaysInYear y = 365 + LeapFlag y.
Proof.
  unfold LeapFlag, DaysInYear.
  destruct (negb (y mod 4 =? 0)), (negb (y mod 100 =? 0)),
    (negb (y mod 400 =? 0)); reflexivity.
Qed.

Lemma month_cases m :
  0 <= m <= 11 ->
  m = 0 \/ m = 1 \/ m = 2 \/ m = 3 \/ m = 4 \/ m = 5 \/ m = 6 \/ m = 7
  \/ m = 8 \/ m = 9 \/ m = 10 \/ m = 11.
Proof. lia. Qed.

Lemma MakeDay_in_range y m d :
  0 <= m <= 11 ->
  MakeDay y m d = DayFromYear y + DaysBeforeMonth m (LeapFlag y) + d - 1.
Proof.
  intros Hm. unfold MakeDay.
  rewrite Z.div_small, Z.mod_small, Z.add_0_r by lia. reflexivity.
Qed.

Lemma MakeDay_month12 y d : MakeDay y 12 d = DayFromYear (y + 1) + d - 1.
Proof.
  unfold MakeDay. change (12 / 12) with 1. change (12 mod 12) with 0.
  cbv [DaysBeforeMonth]. lia.
Qed.

Lemma DaysBeforeMonth_leap m l l' :
  0 <= m <= 11 ->
  DaysBeforeMonth m l'
  = DaysBeforeMonth m l + (if m <? 2 then 0 else l' - l).
Proof.
  intros Hm. apply month_cases in Hm.
  repeat (destruct Hm as [Hm | Hm]); subst m; cbv [DaysBeforeMonth];
    match goal with |- context [?a <? 2] =>
      let v := eval vm_compute in (a <? 2) in change (a <? 2) with v end;
    cbv iota; lia.
Qed.

(** The day of a date with the day-of-month moved by [k]. *)
Lemma MakeDay_same_month t k :
  MakeDay (YearFromTime t) (MonthFromTime t) (DateFromTime t + k) = Day t + k.
Proof.
  rewrite MakeDay_in_range by apply MonthFromTime_range.
  unfold DateFromTime, DayWithinYear, InLeapYear. lia.
Qed.

(** The day of a date with the month moved to the next one. *)
Lemma MakeDay_next_month t :
  MakeDay (YearFromTime t) (MonthFromTime t + 1) (DateFromTime t)
  = Day t + DaysInMonth t.
Proof.
  pose proof (MonthFromTime_range t) as Hm.
  unfold DaysInMonth, DaysInMonthOf, DateFromTime, DayWithinYear, InLeapYear.
  destruct (Z.eqb_spec (MonthFromTime t) 11) as [E | E].
  - rewrite E. change (11 + 1) with 12.
    rewrite MakeDay_month12, DayFromYear_succ.
    rewrite (DaysInYear_leap (YearFromTime t)) at 1.
    cbv [DaysBeforeMonth]. lia.
  - rewrite MakeDay_in_range by lia. lia.
Qed.

(** The day of a date with the year moved to the next one. *)
Lemma MakeDay_next_year t :
  MakeDay (YearFromTime t + 1) (MonthFromTime t) (DateFromTime t)
  = Day t + (if MonthFromTime t <? 2 then DaysInYear (YearFromTime t)
             else DaysInYear (YearFromTime t + 1)).
Proof.
  pose proof (MonthFromTime_range t) as Hm.
  rewrite MakeDay_in_range by lia.
  unfold DateFromTime, DayWithinYear, InLeapYear.
  rewrite (DaysBeforeMonth_leap (MonthFromTime t)
             (LeapFlag (YearFromTime t)) (LeapFlag (YearFromTime t + 1)))
    by lia.
  rewrite DayFromYear_succ.
  pose proof (DaysInYear_leap (YearFromTime t)).
  pose proof (DaysInYear_leap (YearFromTime t + 1)).
  destruct (MonthFromTime t <? 2); lia.
Qed.

Lemma MakeDate_shift t k :
  MakeDate (Day t + k) (TimeWithinDay t) = t + k * msPerDay.
Proof.
  unfold MakeDate, Day, TimeWithinDay.
  pose proof (Z.div_mod t msPerDay). unfold msPerDay in *. lia.
Qed.

Lemma DayFromYear_mono y1 y2 : y1 <= y2 -> DayFromYear y1 <= DayFromYear y2.
Proof. intros H. unfold DayFromYear. euclid. Qed.

(** The year of a day is the only one that contains it. *)
Lemma YearFromDay_unique y d :
  DayFromYear y <= d < DayFromYear (y + 1) -> YearFromDay d = y.
Proof.
  intros [Hlo Hhi]. pose proof (YearFromDay_spec d) as [Slo Shi].
  destruct (Z.lt_trichotomy (YearFromDay d) y) as [L | [E | G]].
  - pose proof (DayFromYear_mono (YearFromDay d + 1) y ltac:(lia)). lia.
  - exact E.
  - pose proof (DayFromYear_mono (y + 1) (YearFromDay d) ltac:(lia)). lia.
Qed.

Lemma LeapFlag_cases y : LeapFlag y = 0 \/ LeapFlag y = 1.
Proof. unfold LeapFlag. destruct (DaysInYear y =? 366); auto. Qed.

(** Evaluation of the month tables at a literal month. *)
Ltac month_calc :=
  repeat match goal with
         | |- context [DaysBeforeMonth (?a + 1) ?l] =>
             let v := eval vm_compute in (a + 1) in
             change (DaysBeforeMonth (a + 1) l) with (DaysBeforeMonth v l)
         | |- context [?a =? 11] =>
             let v := eval vm_compute in (a =? 11) in
             change (a =? 11) with v
         end;
  cbv beta iota delta [DaysBeforeMonth].

Lemma DaysInMonthOf_table y m :
  0 <= m <= 11 ->
  DaysInMonthOf y m
  = match m with
    | 1 => 28 + LeapFlag y
    | 3 | 5 | 8 | 10 => 30
    | _ => 31
    end.
Proof.
  intros Hm. unfold DaysInMonthOf. apply month_cases in Hm.
  repeat (destruct Hm as [Hm | Hm]); subst m; month_calc; lia.
Qed.

Ltac decide_ltb :=
  repeat match goal with
         | |- context [?a <? ?b] => destruct (Z.ltb_spec a b); try lia
         end.

(** The day of a date of the calendar lies within its year. *)
Lemma day_within_year y m d :
  0 <= m <= 11 -> 1 <= d <= DaysInMonthOf y m ->
  0 <= DaysBeforeMonth m (LeapFlag y) + d - 1 < DaysInYear y.
Proof.
  intros Hm Hd. rewrite DaysInYear_leap.
  rewrite DaysInMonthOf_table in Hd by exact Hm.
  destruct (LeapFlag_cases y) as [L | L]; rewrite L in *;
    apply month_cases in Hm;
    repeat (destruct Hm as [Hm | Hm]); subst m;
    cbv beta iota delta [DaysBeforeMonth] in *; lia.
Qed.

(** From a date of the calendar to a time value and back. *)
Lemma date_round_trip y m d tod :
  0 <= m <= 11 -> 1 <= d <= DaysInMonthOf y m -> 0 <= tod < msPerDay ->
  let t := MakeDate (MakeDay y m d) tod in
  YearFromTime t = y /\ MonthFromTime t = m /\ DateFromTime t = d
  /\ TimeWithinDay t = tod.
Proof.
  intros Hm Hd Htod t.
  pose proof (day_within_year y m d Hm Hd) as Hw.
  assert (Hday : Day t = MakeDay y m d).
  { unfold t, Day, MakeDate. unfold msPerDay in *.
    rewrite Z.div_add_l by lia. rewrite Z.div_small by lia. lia. }
  assert (Htwd : TimeWithinDay t = tod).
  { unfold t, TimeWithinDay, MakeDate. unfold msPerDay in *.
    rewrite Z.add_comm, Z.mod_add by lia. apply Z.mod_small. lia. }
  rewrite MakeDay_in_range in Hday by exact Hm.
  assert (Hy : YearFromTime t = y).
  { unfold YearFromTime. apply YearFromDay_unique.
    rewrite DayFromYear_succ, Hday. lia. }
  assert (Hdw : DayWithinYear t = DaysBeforeMonth m (LeapFlag y) + d - 1).
  { unfold DayWithinYear. rewrite Hy, Hday. lia. }
  assert (Hmonth : MonthFromTime t = m).
  { unfold MonthFromTime, InLeapYear. rewrite Hy, Hdw.
    rewrite DaysInYear_leap in Hw.
    rewrite DaysInMonthOf_table in Hd by exact Hm.
    destruct (LeapFlag_cases y) as [L | L]; rewrite L in *;
      apply month_cases in Hm;
      repeat (destruct Hm as [Hm | Hm]); subst m;
      cbv beta iota delta [DaysBeforeMonth] in *;
      decide_ltb; reflexivity. }
  repeat split; try assumption.
  unfold DateFromTime, InLeapYear. rewrite Hmonth, Hy, Hdw. lia.
Qed.

(** The day-of-month of a time value is a day of its month. *)
Lemma DateFromTime_range t : 1 <= DateFromTime t <= DaysInMonth t.
Proof.
  pose proof (YearFromDay_spec (Day t)) as [Hlo Hhi].
  rewrite DayFromYear_succ, DaysInYear_leap in Hhi.
  unfold DaysInMonth.
  rewrite DaysInMonthOf_table by apply MonthFromTime_range.
  unfold DateFromTime, MonthFromTime.
  unfold InLeapYear, DayWithinYear, YearFromTime in *.
  destruct (LeapFlag_cases (YearFromDay (Day t))) as [L | L]; rewrite L in *;
    decide_ltb; cbv beta iota delta [DaysBeforeMonth]; lia.
Qed.

Lemma DaysInMonthOf_range y m : 0 <= m <= 11 -> 28 <= DaysInMonthOf y m <= 31.
Proof.
  intros Hm. rewrite DaysInMonthOf_table by exact Hm.
  destruct (LeapFlag_cases y) as [L | L]; rewrite L;
    apply month_cases in Hm;
    repeat (destruct Hm as [Hm | Hm]); subst m; lia.
Qed.

Lemma nextMonth_range y m :
  0 <= m <= 11 -> 0 <= snd (nextMonth y m) <= 11.
Proof.
  intros Hm. unfold nextMonth.
  destruct (Z.eqb_spec m 11); cbn [snd]; lia.
Qed.

(** Month [m + 1] of year [y], as [MakeDay] reads it, is the month after
    month [m]. *)
Lemma MakeDay_nextMonth y m d :
  0 <= m <= 11 ->
  MakeDay y (m + 1) d
  = MakeDay (fst (nextMonth y m)) (snd (nextMonth y m)) d.
Proof.
  intros Hm. unfold nextMonth.
  destruct (Z.eqb_spec m 11) as [E | E]; cbn [fst snd].
  - subst m. change (11 + 1) with 12. rewrite MakeDay_month12.
    rewrite MakeDay_in_range by lia. cbv [DaysBeforeMonth]. lia.
  - reflexivity.
Qed.

(** A day-of-month beyond the end of the month is carried into the month
    after. *)
Lemma MakeDay_overflow y m d :
  0 <= m <= 11 ->
  MakeDay y m d
  = MakeDay (fst (nextMonth y m)) (snd (nextMonth y m))
            (d - DaysInMonthOf y m).
Proof.
  intros Hm. rewrite <- MakeDay_nextMonth by exact Hm.
  unfold DaysInMonthOf.
  destruct (Z.eqb_spec m 11) as [E | E].
  - subst m. change (11 + 1) with 12. rewrite MakeDay_month12.
    rewrite MakeDay_in_range, DayFromYear_succ, DaysInYear_leap by lia.
    cbv [DaysBeforeMonth]. lia.
  - rewrite !MakeDay_in_range by lia. lia.
Qed.

Section Zone.
Variable tza : Z.

Lemma setDate_shift t k :
  setDate tza t (getDate tza t + k) = t + k * msPerDay.
Proof.
  unfold setDate, getDate, UTC.
  rewrite MakeDay_same_month, MakeDate_shift. unfold LocalTime. lia.
Qed.

Lemma setMonth_next t :
  setMonth tza t (getMonth tza t + 1)
  = t + DaysInMonth (LocalTime tza t) * msPerDay.
Proof.
  unfold setMonth, getMonth, UTC.
  rewrite MakeDay_next_month, MakeDate_shift. unfold LocalTime. lia.
Qed.

Lemma setFullYear_next t :
  setFullYear tza t (getFullYear tza t + 1)
  = t + (if MonthFromTime (LocalTime tza t) <? 2
         then DaysInYear (YearFromTime (LocalTime tza t))
         else DaysInYear (YearFromTime (LocalTime tza t) + 1)) * msPerDay.
Proof.
  unfold setFullYear, getFullYear, UTC.
  rewrite MakeDay_next_year, MakeDate_shift. unfold LocalTime. lia.
Qed.

End Zone.

End DateSetters.

(* ================================================================== *)
(** ** Facts on numbers *)

Module NumFacts.
Import JSNum.

Local Open Scope Q_scope.

Lemma Qltb_iff x y : Qltb x y = true <-> x < y.
Proof.
  unfold Qltb. rewrite negb_true_iff.
  destruct (Qle_bool y x) eqn:E.
  - apply Qle_bool_iff in E. split; [discriminate|].
    intros H. exfalso. apply (Qlt_not_le _ _ H E).
  - split; [intros _|reflexivity].
    apply Qnot_le_lt. intros H. apply Qle_bool_iff in H. congruence.
Qed.

Lemma Qfloor_unique x n :
  inject_Z n <= x -> x < inject_Z (n + 1) -> Qfloor x = n.
Proof.
  intros Hlo Hhi.
  pose proof (Qfloor_le x) as H1. pose proof (Qlt_floor x) as H2.
  assert (A : (Qfloor x < n + 1)%Z).
  { rewrite Zlt_Qlt. eapply Qle_lt_trans; eassumption. }
  assert (B : (n < Qfloor x + 1)%Z).
  { rewrite Zlt_Qlt. eapply Qle_lt_trans; eassumption. }
  lia.
Qed.

Lemma Math_round_Z n : Math_round (inject_Z n) = n.
Proof.
  unfold Math_round. apply Qfloor_unique.
  - rewrite <- (Qplus_0_r (inject_Z n)) at 1.
    apply Qplus_le_r. discriminate.
  - rewrite inject_Z_plus. apply Qplus_lt_r. reflexivity.
Qed.

Lemma Math_round_nonneg x : 0 <= x -> (0 <= Math_round x)%Z.
Proof.
  intros H. unfold Math_round.
  change 0%Z with (Qfloor 0). apply Qfloor_resp_le.
  rewrite <- (Qplus_0_r 0). apply Qplus_le_compat; [exact H|discriminate].
Qed.

Lemma round2_nonneg v : 0 <= v -> 0 <= round2 v.
Proof.
  intros H. unfold round2.
  apply Qle_shift_div_l; [reflexivity|]. rewrite Qmult_0_l.
  change 0 with (inject_Z 0). rewrite <- Zle_Qle.
  apply Math_round_nonneg.
  rewrite <- (Qmult_0_l 100). apply Qmult_le_compat_r; [exact H|discriminate].
Qed.


Lemma round2_is_cents v : is_cents (round2 v).
Proof. exists (Math_round (v * 100)). reflexivity. Qed.

(** The rounding leaves a two-decimal number as it is. *)
Lemma round2_cents v : is_cents v -> round2 v == v.
Proof.
  intros [n Hn]. unfold round2.
  assert (E : v * 100 == inject_Z n) by (rewrite Hn; field).
  unfold Math_round. rewrite E. fold (Math_round (inject_Z n)).
  rewrite Math_round_Z. symmetry. exact Hn.
Qed.



Lemma Math_min_le_r x y : Math_min x y <= y.
Proof.
  unfold Math_min. destruct (Qle_bool x y) eqn:E.
  - apply Qle_bool_iff, E.
  - apply Qle_refl.
Qed.

Lemma Math_min_glb z x y : z <= x -> z <= y -> z <= Math_min x y.
Proof. intros. unfold Math_min. destruct (Qle_bool x y); assumption. Qed.

End NumFacts.

(* ================================================================== *)
(** ** The derived state of a limit *)

Module LimitFacts.
Import JSNum JSDate NumFacts DateSetters Limit LimitModel.

Local Open Scope Q_scope.

Lemma percentualUsado_upper l : percentualUsado l <= 100.
Proof.
  unfold percentualUsado. destruct (Qeq_bool (get_valorLimite l) 0).
  - discriminate.
  - apply Math_min_le_r.
Qed.

Lemma percentualUsado_lower l :
  0 < get_valorLimite l -> 0 <= valorGasto l -> 0 <= percentualUsado l.
Proof.
  intros Hc Hg. unfold percentualUsado.
  destruct (Qeq_bool (get_valorLimite l) 0); [apply Qle_refl|].
  apply Math_min_glb; [|discriminate].
  rewrite <- (Qmult_0_l 100). apply Qmult_le_compat_r; [|discriminate].
  apply Qle_shift_div_l; [exact Hc|]. rewrite Qmult_0_l.
  apply round2_nonneg, Hg.
Qed.

Lemma percentualUsado_zero_ceiling l :
  get_valorLimite l == 0 -> percentualUsado l = 0 /\ status l = st_normal.
Proof.
  intros H. apply Qeq_bool_iff in H.
  unfold status, percentualUsado. rewrite H. split; reflexivity.
Qed.

(** No division of [percentualUsado] has a zero divisor. *)
Lemma percentualUsado_no_zero_division l :
  percentualUsado_checked l = Some (percentualUsado l).
Proof.
  unfold percentualUsado_checked, percentualUsado, checked_div.
  destruct (Qeq_bool (get_valorLimite l) 0); reflexivity.
Qed.

(** C5.  For a limit whose ceiling ([valorLimite], as read) is positive,
    [percentualUsado] is at most 100 whatever the accrued amount, and at
    least 0 as soon as the stored accrued amount is not negative (the
    [min: 0] validator of the schema); [excedido] holds exactly when the
    accrued amount is above the ceiling.  For a ceiling of 0,
    [percentualUsado] is 0 and [status] is [normal] whatever the accrued
    amount.  The guard on the ceiling precedes the only division, so no
    division by zero is evaluated. *)
Theorem limit_derived_state (l : Limit.doc) :
  (0 < get_valorLimite l ->
     (0 <= valorGasto l -> 0 <= percentualUsado l)
     /\ percentualUsado l <= 100
     /\ (excedido l = true <-> get_valorLimite l < get_valorGasto l))
  /\ (get_valorLimite l == 0 ->
        percentualUsado l == 0 /\ status l = st_normal)
  /\ percentualUsado_checked l = Some (percentualUsado l).
Proof.
  split; [|split].
  - intros Hc. split; [|split].
    + apply percentualUsado_lower, Hc.
    + apply percentualUsado_upper.
    + unfold excedido. apply Qltb_iff.
  - intros Hz. destruct (percentualUsado_zero_ceiling l Hz) as [E S].
    rewrite E. split; [reflexivity|exact S].
  - apply percentualUsado_no_zero_division.
Qed.

(** The theorem at a limit of ceiling 300 with 550 accrued, and at one of
    ceiling 0. *)
Lemma limit_derived_state_witness :
  let over := Scenario.limit_over in
  let zero := Scenario.limit_zero in
  (0 <= percentualUsado over /\ percentualUsado over <= 100
   /\ excedido over = true)
  /\ (percentualUsado zero == 0 /\ status zero = st_normal).
Proof.
  intros over zero. split.
  - destruct (limit_derived_state over) as [H _].
    destruct H as [H1 [H2 H3]]; [reflexivity|].
    split; [apply H1; discriminate|]. split; [exact H2|].
    apply H3. reflexivity.
  - destruct (limit_derived_state zero) as [_ [H _]].
    apply H. reflexivity.
Defined.

End LimitFacts.

(* ================================================================== *)
(** ** The reset schedule *)

Module ResetFacts.
Import JSNum JSDate NumFacts DateSetters Limit LimitModel.

Local Open Scope Z_scope.

Lemma proximoReset_shift (tza : Z) (l : Limit.doc) :
  let t := ultimoReset l in
  let lt := LocalTime tza t in
  proximoResetCalculado tza l =
  match periodo l with
  | diario => t + msPerDay
  | semanal => t + 7 * msPerDay
  | mensal => t + DaysInMonth lt * msPerDay
  | anual => t + (if MonthFromTime lt <? 2
                  then DaysInYear (YearFromTime lt)
                  else DaysInYear (YearFromTime lt + 1)) * msPerDay
  end.
Proof.
  intros t lt. unfold proximoResetCalculado. fold t.
  destruct (periodo l).
  - rewrite setDate_shift. lia.
  - rewrite setDate_shift. lia.
  - apply setMonth_next.
  - apply setFullYear_next.
Qed.

(** The local date of the next reset of a monthly limit: the day-of-month
    of the last reset in the month after it when that month has this day,
    and otherwise the days in excess carried into the month that
    follows. *)
Lemma proximoReset_monthly_date (tza : Z) (l : Limit.doc) :
  periodo l = mensal ->
  let lt := LocalTime tza (ultimoReset l) in
  let next := LocalTime tza (proximoResetCalculado tza l) in
  let ym1 := nextMonth (YearFromTime lt) (MonthFromTime lt) in
  let ym2 := nextMonth (fst ym1) (snd ym1) in
  let d := DateFromTime lt in
  let len1 := DaysInMonthOf (fst ym1) (snd ym1) in
  TimeWithinDay next = TimeWithinDay lt
  /\ if d <=? len1
     then YearFromTime next = fst ym1 /\ MonthFromTime next = snd ym1
          /\ DateFromTime next = d
     else YearFromTime next = fst ym2 /\ MonthFromTime next = snd ym2
          /\ DateFromTime next = d - len1.
Proof.
  intros Hp lt next ym1 ym2 d len1.
  pose proof (MonthFromTime_range lt) as Hm.
  pose proof (DateFromTime_range lt) as Hd. fold d in Hd.
  pose proof (nextMonth_range (YearFromTime lt) _ Hm) as Hm1. fold ym1 in Hm1.
  pose proof (nextMonth_range (fst ym1) _ Hm1) as Hm2. fold ym2 in Hm2.
  pose proof (DaysInMonthOf_range (YearFromTime lt) _ Hm) as Hl0.
  fold (DaysInMonth lt) in Hl0.
  pose proof (DaysInMonthOf_range (fst ym1) _ Hm1) as Hl1. fold len1 in Hl1.
  pose proof (DaysInMonthOf_range (fst ym2) _ Hm2) as Hl2.
  assert (Htod : 0 <= TimeWithinDay lt < msPerDay)
    by (apply Z.mod_pos_bound; reflexivity).
  assert (E : next = MakeDate (MakeDay (fst ym1) (snd ym1) d)
                              (TimeWithinDay lt)).
  { unfold next, proximoResetCalculado. rewrite Hp.
    unfold setMonth, getMonth, LocalTime, UTC. fold (LocalTime tza (ultimoReset l)).
    fold lt. rewrite MakeDay_nextMonth by exact Hm. fold ym1 d. lia. }
  destruct (Z.leb_spec d len1) as [Hle | Hgt].
  - destruct (date_round_trip (fst ym1) (snd ym1) d (TimeWithinDay lt))
      as (Hy & Hmo & Hda & Ht); try lia.
    rewrite E. repeat split; assumption.
  - rewrite (MakeDay_overflow (fst ym1) (snd ym1)) in E by exact Hm1.
    fold ym2 len1 in E.
    destruct (date_round_trip (fst ym2) (snd ym2) (d - len1)
                (TimeWithinDay lt)) as (Hy & Hmo & Hda & Ht); try lia.
    rewrite E. repeat split; assumption.
Qed.

(** C6, as the code has it.  The next reset is the last reset moved by
    one period: a day for [diario], seven days for [semanal]; for [anual]
    the year is set to the next one, which moves the date by the length of
    the year the interval crosses; for [mensal] the month is set to the
    next one with the day-of-month kept, which moves the date by the
    length of the month of the last reset: the next reset falls on the
    same day-of-month of the next month when that month has this day, and
    otherwise, without any clamp to the length of the month, on the days
    in excess counted into the month after it. *)
Theorem proximoReset_period (tza : Z) (l : Limit.doc) :
  let t := ultimoReset l in
  let lt := LocalTime tza t in
  let next := LocalTime tza (proximoResetCalculado tza l) in
  proximoResetCalculado tza l
  = match periodo l with
    | diario => t + msPerDay
    | semanal => t + 7 * msPerDay
    | mensal => t + DaysInMonth lt * msPerDay
    | anual => t + (if MonthFromTime lt <? 2
                    then DaysInYear (YearFromTime lt)
                    else DaysInYear (YearFromTime lt + 1)) * msPerDay
    end
  /\ match periodo l with
     | mensal =>
         let ym1 := nextMonth (YearFromTime lt) (MonthFromTime lt) in
         let ym2 := nextMonth (fst ym1) (snd ym1) in
         let len1 := DaysInMonthOf (fst ym1) (snd ym1) in
         TimeWithinDay next = TimeWithinDay lt
         /\ if DateFromTime lt <=? len1
            then YearFromTime next = fst ym1 /\ MonthFromTime next = snd ym1
                 /\ DateFromTime next = DateFromTime lt
            else YearFromTime next = fst ym2 /\ MonthFromTime next = snd ym2
                 /\ DateFromTime next = DateFromTime lt - len1
     | _ => True
     end.
Proof.
  intros t lt next. split.
  - apply proximoReset_shift.
  - destruct (periodo l) eqn:Hp; try exact I.
    apply proximoReset_monthly_date, Hp.
Qed.

(** Against C6 as stated.  A monthly limit last reset on 31 January 2023
    at noon has its next reset on 3 March 2023 at noon, not on the last
    day of February. *)
Lemma proximoReset_jan31_not_clamped :
  periodo Scenario.limit_jan31 = mensal
  /\ ultimoReset Scenario.limit_jan31 = newDate 0 2023 0 31 12 0 0
  /\ proximoResetCalculado 0 Scenario.limit_jan31 = newDate 0 2023 2 3 12 0 0
  /\ proximoResetCalculado 0 Scenario.limit_jan31
     <> newDate 0 2023 1 28 12 0 0.
Proof.
  split; [reflexivity|]. split; [reflexivity|].
  split; [vm_compute; reflexivity|]. vm_compute. discriminate.
Qed.

(** [pre('save')] keeps the paths the schedule is computed from. *)
Lemma preSave_fields tza l :
  let l' := preSave tza l in
  _id l' = _id l /\ valorGasto l' = valorGasto l
  /\ valorLimite l' = valorLimite l /\ nome l' = nome l
  /\ ultimoReset l' = ultimoReset l /\ periodo l' = periodo l
  /\ user l' = user l /\ tipo l' = tipo l /\ ativo l' = ativo l
  /\ proximoReset l' = Some (proximoResetCalculado tza l).
Proof.
  unfold preSave.
  destruct (categoria l), (categoriaId l), (cartao l), (cartaoId l);
    cbn; repeat split.
Qed.

Lemma proximoResetCalculado_preSave tza l :
  proximoResetCalculado tza (preSave tza l) = proximoResetCalculado tza l.
Proof.
  destruct (preSave_fields tza l) as (_ & _ & _ & _ & Hu & Hp & _).
  unfold proximoResetCalculado. rewrite Hu, Hp. reflexivity.
Qed.

Lemma validate_resetar_doc tza now l :
  validate l = true -> validate (resetar_doc tza now l) = true.
Proof.
  unfold validate, resetar_doc. cbn.
  intros H. apply andb_true_iff in H as [H _].
  rewrite H. reflexivity.
Qed.

Lemma resetar_ok tza now l db :
  validate l = true ->
  let l1 := preSave tza (resetar_doc tza now l) in
  resetar tza now l db
  = (inr l1, with_limits (replace_doc l1 (limits db)) db)
  /\ (valorGasto l1 == 0)%Q
  /\ ultimoReset l1 = now
  /\ proximoReset l1 = Some (proximoResetCalculado tza l1)
  /\ validate l1 = true.
Proof.
  intros Hv l1.
  pose proof (validate_resetar_doc tza now l Hv) as Hv'.
  destruct (preSave_fields tza (resetar_doc tza now l))
    as (_ & Hg & Hl & Hn & Hu & _ & _ & _ & _ & Hp).
  fold l1 in Hg, Hl, Hn, Hu, Hp.
  split; [|split; [|split; [|split]]].
  - unfold resetar, save. rewrite Hv'. reflexivity.
  - rewrite Hg. reflexivity.
  - rewrite Hu. reflexivity.
  - rewrite Hp. unfold l1. rewrite proximoResetCalculado_preSave.
    reflexivity.
  - unfold validate in *. rewrite Hn, Hl, Hg. exact Hv'.
Qed.







End ResetFacts.

(* ================================================================== *)
(** ** Accrual *)

Module AccrualFacts.
Import JSNum JSDate NumFacts Limit LimitModel ResetFacts.

Lemma oid_eqb_eq a b : oid_eqb a b = true <-> a = b.
Proof. apply String.eqb_eq. Qed.

Lemma ref_eqb_eq a b : ref_eqb a b = true <-> a = b.
Proof.
  destruct a as [x|], b as [y|]; cbn; try (split; congruence).
  rewrite oid_eqb_eq. split; congruence.
Qed.

Lemma TipoLimite_eqb_eq a b : TipoLimite_eqb a b = true <-> a = b.
Proof. destruct a, b; cbn; split; congruence. Qed.

(** The filter of the code selects the limits the specification names. *)
Lemma applies_matching userId categoriaId cartaoId l :
  applies userId categoriaId cartaoId l = true
  <-> matching_limit userId categoriaId cartaoId l.
Proof.
  unfold applies, matching_limit.
  rewrite !orb_true_iff, !andb_true_iff, !TipoLimite_eqb_eq, !ref_eqb_eq,
    oid_eqb_eq, Bool.eqb_true_iff.
  tauto.
Qed.

Section Replace.
Variable f : doc -> doc.
Hypothesis f_id : forall x, _id (f x) = _id x.
Variable ls : list doc.
Hypothesis ids_unique : NoDup (map _id ls).

Lemma same_id_same_doc x y : In x ls -> In y ls -> _id x = _id y -> x = y.
Proof.
  clear f f_id. induction ls as [|a rest IH]; cbn; [tauto|].
  inversion ids_unique as [|? ? Hnot Hrest]; subst.
  intros [Hx|Hx] [Hy|Hy] E; subst.
  - reflexivity.
  - exfalso. apply Hnot. rewrite E. apply in_map, Hy.
  - exfalso. apply Hnot. rewrite <- E. apply in_map, Hx.
  - apply IH; assumption.
Qed.

Local Abbreviation updated := (LimitModel.updated f ls).

Lemma updated_ext sel sel' :
  (forall x, In x ls -> sel (_id x) = sel' (_id x)) ->
  updated sel = updated sel'.
Proof.
  intros H. apply map_ext_in. intros x Hx. rewrite (H x Hx). reflexivity.
Qed.

Lemma replace_updated sel l :
  In l ls ->
  replace_doc (f l) (updated sel)
  = updated (fun i => oid_eqb i (_id l) || sel i).
Proof.
  intros Hl. unfold replace_doc, updated. rewrite map_map.
  apply map_ext_in. intros x Hx. rewrite f_id.
  assert (E : _id (if sel (_id x) then f x else x) = _id x)
    by (destruct (sel (_id x)); [apply f_id|reflexivity]).
  rewrite E. destruct (oid_eqb (_id x) (_id l)) eqn:Q; cbn.
  - apply oid_eqb_eq in Q.
    rewrite (same_id_same_doc x l Hx Hl Q). reflexivity.
  - reflexivity.
Qed.

Lemma fold_replace_updated found :
  incl found ls ->
  forall sel,
    fold_left (fun cur l => replace_doc (f l) cur) found (updated sel)
    = updated (fun i => existsb (fun l => oid_eqb i (_id l)) found || sel i).
Proof.
  induction found as [|l rest IH]; intros Hin sel; cbn.
  - reflexivity.
  - rewrite replace_updated by (apply Hin; left; reflexivity).
    rewrite IH by (intros x Hx; apply Hin; right; exact Hx).
    apply updated_ext. intros x _.
    rewrite orb_assoc, (orb_comm (existsb _ rest)). reflexivity.
Qed.

Lemma fold_replace_filter p :
  fold_left (fun cur l => replace_doc (f l) cur) (filter p ls) ls
  = map (fun x => if p x then f x else x) ls.
Proof.
  assert (E0 : ls = updated (fun _ => false)).
  { unfold updated. symmetry. rewrite <- (map_id ls) at 2.
    apply map_ext. reflexivity. }
  rewrite E0 at 2.
  rewrite fold_replace_updated by (intros x Hx; apply filter_In in Hx; tauto).
  unfold updated. apply map_ext_in. intros x Hx.
  rewrite orb_false_r.
  destruct (p x) eqn:Px.
  - replace (existsb (fun l => oid_eqb (_id x) (_id l)) (filter p ls))
      with true; [reflexivity|].
    symmetry. apply existsb_exists. exists x. split.
    + apply filter_In. tauto.
    + apply oid_eqb_eq. reflexivity.
  - replace (existsb (fun l => oid_eqb (_id x) (_id l)) (filter p ls))
      with false; [reflexivity|].
    symmetry. apply not_true_iff_false. intros H.
    apply existsb_exists in H as (y & Hy & Q).
    apply filter_In in Hy as [Hy Py]. apply oid_eqb_eq in Q.
    rewrite (same_id_same_doc x y Hx Hy Q) in Px. congruence.
Qed.



End Replace.





Section Zone.
Variable tza : Z.

Local Abbreviation saved := (LimitModel.saved tza).

Lemma saved_id valor l : _id (saved valor l) = _id l.
Proof.
  unfold saved. destruct (preSave_fields tza (accrue valor l)) as [H _].
  exact H.
Qed.


Lemma validate_accrue valor l :
  validate l = true -> validate (accrue valor l) = true.
Proof.
  unfold validate, accrue. cbn. intros H.
  apply andb_true_iff in H as [H Hg]. rewrite H. cbn.
  apply Qle_bool_iff. apply round2_nonneg.
  apply Qle_bool_iff in Hg.
  rewrite <- (Qplus_0_r 0).
  apply Qplus_le_compat; [apply round2_nonneg, Hg|apply Qabs_nonneg].
Qed.

Lemma saveEach_ok valor found :
  Forall (fun l => validate l = true) found ->
  forall db,
    saveEach tza valor found db
    = (inr (map (saved valor) found),
       with_limits
         (fold_left (fun cur l => replace_doc (saved valor l) cur) found
                    (limits db)) db).
Proof.
  induction 1 as [|l rest Hl _ IH]; intros db; cbn.
  - destruct db; reflexivity.
  - unfold bind at 1. unfold save at 1.
    rewrite (validate_accrue valor l Hl).
    unfold bind at 1. rewrite IH. cbn. reflexivity.
Qed.



Lemma updateFromTransactions_ok userId categoriaId cartaoId valor db :
  NoDup (map _id (limits db)) ->
  (forall l, In l (limits db) ->
             applies userId categoriaId cartaoId l = true ->
             validate l = true) ->
  updateFromTransactions tza userId categoriaId cartaoId valor db
  = (inr (map (saved valor)
              (filter (applies userId categoriaId cartaoId) (limits db))),
     with_limits
       (map (fun l => if applies userId categoriaId cartaoId l
                      then saved valor l else l) (limits db)) db).
Proof.
  intros Hids Hvalid. unfold updateFromTransactions.
  rewrite saveEach_ok.
  - rewrite (fold_replace_filter (saved valor) (saved_id valor) _ Hids).
    reflexivity.
  - apply Forall_forall. intros l Hl. apply filter_In in Hl as [Hl Ha].
    apply Hvalid; assumption.
Qed.

End Zone.





End AccrualFacts.

(* ================================================================== *)
(** ** Recording a transaction *)

Module TransactionFacts.
Import JSNum Limit LimitModel TransactionController AccrualFacts.

(** C1, as the code has it.  [createTransaction] only inserts the
    transaction: whatever the request, the limits of the database, their
    [valorGasto] included, and its categories are the ones before the
    call; a response 201 comes with the new transaction appended. *)
Theorem createTransaction_leaves_limits
    (fresh userId : ObjectId) (body : Body) (db : DB) :
  let '(response, db') := createTransaction fresh userId body db in
  limits db' = limits db
  /\ categories db' = categories db
  /\ (statusCode_of response = 201 ->
      exists t, response = json_transaction 201 t
                /\ transactions db' = transactions db ++ [t]).
Proof.
  unfold createTransaction, create.
  destruct (validate _) eqn:V; cbn.
  - split; [reflexivity|]. split; [reflexivity|].
    intros _. eexists. split; reflexivity.
  - split; [reflexivity|]. split; [reflexivity|]. discriminate.
Qed.

(** Against C1 as stated.  Alice records an expense of 80 on Food.  Her active general limit
    matches the expense, and after the call it still has 0 accrued, not
    80. *)
Lemma createTransaction_no_accrual :
  exists t db',
    createTransaction Scenario.fresh_id Scenario.alice Scenario.body80
      Scenario.db_limits = (json_transaction 201 t, db')
    /\ Transaction.tipo t = despesa
    /\ matching_limit Scenario.alice (Transaction.categoriaId t)
         (Transaction.cartaoId t) Scenario.limit_geral
    /\ In Scenario.limit_geral (limits Scenario.db_limits)
    /\ In Scenario.limit_geral (limits db')
    /\ (valorGasto Scenario.limit_geral == 0)%Q
    /\ ~ (valorGasto Scenario.limit_geral
          == 0 + Qabs (Transaction.valor t))%Q.
Proof.
  do 2 eexists. split; [vm_compute; reflexivity|].
  split; [reflexivity|]. split.
  { apply applies_matching. vm_compute. reflexivity. }
  split; [left; reflexivity|]. split; [left; reflexivity|].
  split; [reflexivity|]. vm_compute. discriminate.
Qed.

End TransactionFacts.

(* ================================================================== *)
(** ** The budget view *)

Module BudgetFacts.
Import JSNum JSDate NumFacts Aggregate CategoryLimitController
  TransactionController.

Local Open Scope Q_scope.

Section GroupMap.
Context {A K Acc : Type}.
Variable key_eqb : K -> K -> bool.
Variable key : A -> K.
Variable init : Acc.
Variable step : Acc -> A -> Acc.
Variable g : A -> A.
Hypothesis key_g : forall d, key (g d) = key d.
Hypothesis step_g : forall acc d, step acc (g d) = step acc d.

Lemma group_add_map d gs :
  group_add key_eqb key init step (g d) gs
  = group_add key_eqb key init step d gs.
Proof.
  induction gs as [|[k acc] rest IH]; cbn.
  - rewrite key_g, step_g. reflexivity.
  - rewrite key_g, step_g, IH. reflexivity.
Qed.

Lemma group_map docs :
  group key_eqb key init step (map g docs)
  = group key_eqb key init step docs.
Proof.
  unfold group. generalize (@nil (K * Acc)).
  induction docs as [|d rest IH]; intros gs; cbn.
  - reflexivity.
  - rewrite group_add_map. apply IH.
Qed.

End GroupMap.

Lemma filter_map_same {A} (p : A -> bool) (g : A -> A) l :
  (forall x, p (g x) = p x) -> filter p (map g l) = map g (filter p l).
Proof.
  intros H. induction l as [|x rest IH]; cbn; [reflexivity|].
  rewrite H. destruct (p x); cbn; rewrite IH; reflexivity.
Qed.

(** The budget view never reads the status of a transaction. *)
Lemma getCategoryLimits_ignores_status tza now userId f db :
  getCategoryLimits tza now userId (restatus f db)
  = getCategoryLimits tza now userId db.
Proof.
  unfold getCategoryLimits. destruct (monthWindow tza now) as [start end_].
  cbn [restatus with_transactions transactions categories limits].
  rewrite filter_map_same by reflexivity.
  rewrite (group_map ref_eqb Transaction.categoria (0, 0%Z) sum_count
             (fun t => set_status (f t) t)) by reflexivity.
  reflexivity.
Qed.

(** C3 fails on the code.  Alice's only expenses of the month on Food are
    one pending (100) and one cancelled (50); the budget view reports 150
    spent over 2 transactions and 30 percent of the budget of 500, where
    the claim has 0 for each.  More generally the view is the same
    whatever the statuses of the transactions: the [$match] stage of
    [getCategoryLimits] has no filter on [status]. *)
Theorem getCategoryLimits_counts_unconfirmed :
  (exists v,
     getCategoryLimits 0 Scenario.june15 Scenario.alice
       Scenario.db_unconfirmed = json_views 200 [v]
     /\ View.spent v == 150 /\ View.transactions v = 2%Z
     /\ View.percentage v = 30%Z)
  /\ (forall tza now userId f db,
        getCategoryLimits tza now userId (restatus f db)
        = getCategoryLimits tza now userId db).
Proof.
  split.
  - eexists. split; [vm_compute; reflexivity|].
    split; [reflexivity|]. split; reflexivity.
  - intros. apply getCategoryLimits_ignores_status.
Qed.

Lemma percentage_over budget spent :
  0 < budget -> budget < spent -> (100 <= percentage_of budget spent)%Z.
Proof.
  intros Hb Hs. unfold percentage_of.
  apply Qltb_iff in Hb as Hb'. rewrite Hb'.
  unfold Math_round. change 100%Z with (Qfloor (inject_Z 100)).
  apply Qfloor_resp_le.
  apply Qle_trans with (spent / budget * 100).
  - change (inject_Z 100) with (1 * 100).
    apply Qmult_le_compat_r; [|discriminate].
    apply Qle_shift_div_l; [exact Hb|].
    rewrite Qmult_1_l. apply Qlt_le_weak, Hs.
  - rewrite <- (Qplus_0_r (spent / budget * 100)) at 1.
    apply Qplus_le_r. discriminate.
Qed.

Lemma remaining_over budget spent :
  budget < spent -> Math_max 0 (budget - spent) == 0.
Proof.
  intros Hs. unfold Math_max.
  destruct (Qle_bool 0 (budget - spent)) eqn:E; [|reflexivity].
  apply Qle_bool_iff in E. exfalso.
  apply (Qlt_not_le _ _ Hs).
  apply Qplus_le_l with (z := - spent).
  rewrite Qplus_opp_r. exact E.
Qed.

(** Against C4 as stated.  A budget of 500 with 550 spent: the view
    reports 110 percent, not 100. *)
Lemma getCategoryLimits_percentage_110 :
  exists v,
    getCategoryLimits 0 Scenario.june15 Scenario.alice Scenario.db_food550
    = json_views 200 [v]
    /\ View.budget v == 500 /\ View.spent v == 550
    /\ View.percentage v = 110%Z /\ View.percentage v <> 100%Z.
Proof.
  eexists. split; [vm_compute; reflexivity|].
  split; [reflexivity|]. split; [reflexivity|].
  split; [reflexivity|]. vm_compute. discriminate.
Qed.

Lemma percentage_above budget spent :
  0 < budget -> (101 # 100) * budget <= spent ->
  (100 < percentage_of budget spent)%Z.
Proof.
  intros Hb Hs. unfold percentage_of.
  apply Qltb_iff in Hb as Hb'. rewrite Hb'.
  unfold Math_round.
  apply Z.lt_le_trans with (Qfloor (inject_Z 101)); [reflexivity|].
  apply Qfloor_resp_le.
  apply Qle_trans with (spent / budget * 100).
  - apply Qle_trans with ((101 # 100) * 100); [discriminate|].
    apply Qmult_le_compat_r; [|discriminate].
    apply Qle_shift_div_l; assumption.
  - rewrite <- (Qplus_0_r (spent / budget * 100)) at 1.
    apply Qplus_le_r. discriminate.
Qed.

(** C4, as the code has it.  In every view of the list and in the view
    of every upsert answered 201 the percentage is the one computed from
    the budget and the amount spent of the view,
    [Math.round(spent / budget * 100)] for a positive budget, without any
    clamp; the status is computed from that percentage and the remaining
    amount is the budget less the amount spent, or 0 when that is
    negative.  So with more spent than the budget the percentage is at
    least 100, the status is [exceeded] and the remaining amount is 0,
    and from 101 hundredths of the budget on the percentage is above
    100.  For a budget of 500 and 550 spent, the list and the upsert both
    report 550 spent, 110 percent, 0 remaining and [exceeded]. *)
Theorem budget_percentage_unclamped (tza : Z) (fresh : ObjectId) (now : Z)
    (userId : ObjectId) (body : UpsertBody) (db : DB) :
  let computed v :=
    View.percentage v = percentage_of (View.budget v) (View.spent v)
    /\ View.status v = status_of (View.percentage v)
    /\ View.remaining v = Math_max 0 (View.budget v - View.spent v) in
  (exists vs,
     getCategoryLimits tza now userId db = json_views 200 vs
     /\ Forall computed vs)
  /\ (forall v db',
        upsertCategoryLimit tza fresh now userId body db
        = (json_view 201 v, db') ->
        computed v)
  /\ (forall v,
        computed v -> 0 < View.budget v -> View.budget v < View.spent v ->
        View.percentage v
        = Math_round (View.spent v / View.budget v * 100)
        /\ (100 <= View.percentage v)%Z
        /\ View.status v = exceeded
        /\ View.remaining v == 0)
  /\ (forall v,
        computed v -> 0 < View.budget v ->
        (101 # 100) * View.budget v <= View.spent v ->
        (100 < View.percentage v)%Z)
  /\ (exists v,
        getCategoryLimits 0 Scenario.june15 Scenario.alice
          Scenario.db_food550 = json_views 200 [v]
        /\ View.spent v == 550 /\ View.percentage v = 110%Z
        /\ View.remaining v == 0 /\ View.status v = exceeded)
  /\ (exists v db',
        upsertCategoryLimit 0 Scenario.fresh_id Scenario.june15
          Scenario.alice Scenario.body_food500 Scenario.db_food550
        = (json_view 201 v, db')
        /\ View.spent v == 550 /\ View.percentage v = 110%Z
        /\ View.remaining v == 0 /\ View.status v = exceeded).
Proof.
  intros computed.
  split; [|split; [|split; [|split; [|split]]]].
  - unfold getCategoryLimits.
    destruct (monthWindow tza now) as [start end_].
    eexists. split; [reflexivity|].
    apply Forall_forall. intros v Hv.
    apply in_map_iff in Hv as (cat & E & _). subst v.
    repeat split.
  - intros v db'. unfold upsertCategoryLimit.
    destruct (body_categoriaId body) as [c|]; [|discriminate].
    destruct (body_valor body) as [valor|]; [|discriminate].
    destruct (negb (truthy c) || Qeq_bool valor 0 || Qle_bool valor 0);
      [discriminate|].
    destruct (negb (JSString.length c =? 24)%nat); [discriminate|].
    destruct (castObjectId c) as [cid|]; [|discriminate].
    destruct (findOneAndUpdate fresh now userId cid valor db)
      as [limit db1].
    destruct (monthWindow tza now) as [start end_].
    intros E. inversion E; subst. repeat split.
  - intros v (Hp & Hst & Hr) Hb Hs.
    pose proof (percentage_over _ _ Hb Hs) as Hover.
    rewrite <- Hp in Hover.
    split.
    { rewrite Hp. unfold percentage_of.
      apply Qltb_iff in Hb. rewrite Hb. reflexivity. }
    split; [exact Hover|].
    split.
    { rewrite Hst. unfold status_of.
      apply Z.leb_le in Hover. rewrite Hover. reflexivity. }
    rewrite Hr. apply remaining_over, Hs.
  - intros v (Hp & _) Hb Hs. rewrite Hp.
    apply percentage_above; assumption.
  - eexists. split; [vm_compute; reflexivity|].
    repeat split; reflexivity.
  - do 2 eexists. split; [vm_compute; reflexivity|].
    repeat split; reflexivity.
Qed.

(** The theorem on a budget of 500 with 550 spent: the view of the list
    is computed without a clamp. *)
Lemma budget_percentage_unclamped_witness :
  exists v,
    getCategoryLimits 0 Scenario.june15 Scenario.alice Scenario.db_food550
    = json_views 200 [v]
    /\ View.percentage v = percentage_of (View.budget v) (View.spent v)
    /\ View.percentage v = 110%Z.
Proof.
  destruct (budget_percentage_unclamped 0 Scenario.fresh_id Scenario.june15
              Scenario.alice Scenario.body_food500 Scenario.db_food550)
    as ((vs & E & F) & _).
  vm_compute in E. inversion E; subst vs.
  inversion F as [|v l (Hp & _) _]; subst.
  eexists. split; [vm_compute; reflexivity|].
  split; [exact Hp|reflexivity].
Defined.

End BudgetFacts.

(* ================================================================== *)
(** ** Ownership and the category reference *)

Module OwnerFacts.
Import JSNum JSDate NumFacts Aggregate CategoryLimitController AccrualFacts.

Local Open Scope Q_scope.

(** C9 fails on the code.  Two databases differ only by a category that
    belongs to Bob and has the name of Alice's category Food.  Without it,
    [deleteCategoryLimit] called by Alice removes her limit on Food; with
    it, the name resolves to Bob's category, no limit of Alice matches,
    her limit stays and the response is the same success:
    [Category.findOne({ nome: categoryName })] has no filter on the
    owner. *)
Theorem deleteCategoryLimit_resolves_other_owner :
  categories Scenario.db_with_bob
  = Scenario.cat_food_bob :: categories Scenario.db_alice_only
  /\ Category.user Scenario.cat_food_bob <> Scenario.alice
  /\ limits Scenario.db_with_bob = limits Scenario.db_alice_only
  /\ transactions Scenario.db_with_bob = transactions Scenario.db_alice_only
  /\ deleteCategoryLimit Scenario.alice "Food" Scenario.db_alice_only
     = (json_success 200, with_limits [] Scenario.db_alice_only)
  /\ deleteCategoryLimit Scenario.alice "Food" Scenario.db_with_bob
     = (json_success 200, Scenario.db_with_bob)
  /\ limits Scenario.db_with_bob = [Scenario.limit_food500].
Proof.
  split; [reflexivity|]. split; [discriminate|].
  split; [reflexivity|]. split; [reflexivity|].
  split; [reflexivity|]. split; reflexivity.
Qed.

Lemma findOneAndUpdate_spec fresh now userId cid valor db :
  let '(l, db') := findOneAndUpdate fresh now userId cid valor db in
  In l (limits db')
  /\ Limit.user l = userId /\ Limit.tipo l = categoria_
  /\ Limit.categoria l = Some cid /\ Limit.categoriaId l = Some cid
  /\ Limit.ativo l = true /\ Limit.valorLimite l = round2 valor
  /\ categories db' = categories db
  /\ transactions db' = transactions db.
Proof.
  unfold findOneAndUpdate.
  destruct (find _ (limits db)) as [l|] eqn:F.
  - apply find_some in F as [Hin Hp].
    apply andb_true_iff in Hp as [Hp _].
    apply andb_true_iff in Hp as [Hu _]. apply oid_eqb_eq in Hu.
    cbn. repeat split; try assumption.
    unfold LimitModel.replace_doc. apply in_map_iff.
    exists l. split; [|exact Hin]. cbn.
    unfold oid_eqb. rewrite String.eqb_refl. reflexivity.
  - cbn. repeat split. apply in_or_app. right. left. reflexivity.
Qed.

Lemma truthy_length s n : String.length s = S n -> truthy s = true.
Proof. destruct s; [discriminate|reflexivity]. Qed.

(** A hexadecimal digit is one code unit: on a string of hexadecimal
    digits [length] counts the characters. *)
Lemma is_hex_units c : is_hex c = true -> JSString.units c = 1%nat.
Proof.
  unfold is_hex, JSString.units. cbv zeta. intros H.
  destruct (Nat.ltb_spec (nat_of_ascii c) 128); [reflexivity|].
  exfalso.
  rewrite !orb_true_iff, !andb_true_iff, !Nat.leb_le in H. lia.
Qed.

Lemma all_hex_length s :
  all_hex s = true -> JSString.length s = String.length s.
Proof.
  induction s as [|c rest IH]; cbn [all_hex JSString.length String.length];
    [reflexivity|].
  intros H. apply andb_true_iff in H as [Hc Hr].
  rewrite (is_hex_units c Hc), (IH Hr). reflexivity.
Qed.

(** Against C10 as stated.  Alice sends the id of Bob's category Viagem.  The response is 201
    with the name and icon of Bob's category, not a fallback name, and a
    limit of Alice on that category is created. *)
Lemma upsert_shows_other_owner_category :
  exists v db' l,
    upsertCategoryLimit 0 Scenario.fresh_id Scenario.june15 Scenario.alice
      Scenario.body_trip Scenario.db_trip = (json_view 201 v, db')
    /\ limits db' = [l]
    /\ Limit.user l = Scenario.alice
    /\ Limit.categoria l = Some (Category._id Scenario.cat_trip_bob)
    /\ Category.user Scenario.cat_trip_bob = Scenario.bob
    /\ View.name v = "Viagem"%string
    /\ View.icon v = Some "plane"%string
    /\ View.name v <> fallback_name l.
Proof.
  do 3 eexists. split; [vm_compute; reflexivity|].
  split; [reflexivity|]. repeat (split; [reflexivity|]).
  vm_compute. discriminate.
Qed.

(** C10, as the code has it.  For an id of 24 hexadecimal digits and an
    amount above 0, [upsertCategoryLimit] responds 201 and leaves in the
    collection an active limit of kind category of the caller on that id,
    with the amount as ceiling, whether or not a category with that id
    exists and whoever owns it.  The name of the view is the fallback name
    (the [nome] of the limit, else "Categoria") when no category has the
    id; when a category has it, of the caller or not, the name is the name
    of that category. *)
Theorem upsert_without_category_check
    (tza : Z) (fresh : ObjectId) (now : Z) (userId : ObjectId)
    (categoriaId : string) (valor : Q) (db : DB) :
  String.length categoriaId = 24%nat ->
  all_hex categoriaId = true ->
  0 < valor ->
  exists v db' l,
    upsertCategoryLimit tza fresh now userId
      (mkBody (Some categoriaId) (Some valor)) db = (json_view 201 v, db')
    /\ In l (limits db')
    /\ View.id v = Limit._id l
    /\ Limit.user l = userId /\ Limit.tipo l = categoria_
    /\ Limit.categoria l = Some (lower_hex categoriaId)
    /\ Limit.ativo l = true /\ Limit.valorLimite l = round2 valor
    /\ match find (fun c => oid_eqb (Category._id c) (lower_hex categoriaId))
                  (categories db) with
       | None => View.name v = fallback_name l /\ View.icon v = None
       | Some c => View.name v = (if truthy (Category.nome c)
                                  then Category.nome c else fallback_name l)
       end.
Proof.
  intros Hlen Hhex Hpos.
  unfold upsertCategoryLimit.
  cbn [body_categoriaId body_valor].
  rewrite (truthy_length categoriaId 23 Hlen).
  assert (Hz : Qeq_bool valor 0 = false).
  { apply not_true_iff_false. intros E. apply Qeq_bool_iff in E.
    rewrite E in Hpos. discriminate Hpos. }
  assert (Hle : Qle_bool valor 0 = false).
  { apply not_true_iff_false. intros E. apply Qle_bool_iff in E.
    apply (Qlt_not_le _ _ Hpos E). }
  rewrite Hz, Hle, (all_hex_length _ Hhex), Hlen. cbn [negb orb Nat.eqb].
  unfold castObjectId. rewrite Hhex.
  pose proof (findOneAndUpdate_spec fresh now userId (lower_hex categoriaId)
                valor db) as S.
  destruct (findOneAndUpdate fresh now userId (lower_hex categoriaId) valor db)
    as [l db'].
  destruct S as (Hin & Hu & Ht & Hc & _ & Ha & Hv & Hcat & _).
  destruct (monthWindow tza now) as [start end_].
  do 3 eexists. split; [reflexivity|].
  split; [exact Hin|]. cbn [View.id View.name View.icon].
  repeat (split; [first [reflexivity|assumption]|]).
  rewrite Hcat.
  destruct (find _ (categories db)) as [c|].
  - reflexivity.
  - split; reflexivity.
Qed.

(** The theorem at an id no category has, on an empty database. *)
Lemma upsert_without_category_check_witness :
  exists v db' l,
    upsertCategoryLimit 0 Scenario.fresh_id Scenario.june15 Scenario.alice
      (mkBody (Some Scenario.food) (Some 500)) (mkDB [] [] [])
    = (json_view 201 v, db')
    /\ In l (limits db')
    /\ Limit.categoria l = Some Scenario.food
    /\ View.name v = "Categoria"%string.
Proof.
  destruct (upsert_without_category_check 0 Scenario.fresh_id
              Scenario.june15 Scenario.alice Scenario.food 500
              (mkDB [] [] []))
    as (v & db' & l & R & Hin & _ & _ & _ & Hc & _ & _ & Hname);
    [reflexivity|reflexivity|reflexivity|].
  exists v, db', l. split; [exact R|]. split; [exact Hin|].
  split; [exact Hc|].
  cbn in Hname. destruct Hname as [Hname _]. rewrite Hname.
  vm_compute in R. injection R as Rv Rdb. subst db'.
  cbn in Hin. destruct Hin as [Hin|[]]. subst l. reflexivity.
Defined.

End OwnerFacts.

(* ================================================================== *)
(** ** The cash-flow report *)

Module ReportFacts.
Import JSNum JSDate NumFacts Aggregate ReportService.

Local Open Scope Q_scope.

Section GroupKeys.
Context {A K Acc : Type}.
Variable key_eqb : K -> K -> bool.
Variable key : A -> K.
Variable init : Acc.
Variable step : Acc -> A -> Acc.

Lemma group_add_keys d gs k acc :
  In (k, acc) (group_add key_eqb key init step d gs) ->
  k = key d \/ exists acc', In (k, acc') gs.
Proof.
  induction gs as [|[k0 a0] rest IH]; cbn.
  - intros [E|[]]. inversion E. left. reflexivity.
  - destruct (key_eqb k0 (key d)); cbn.
    + intros [E|H].
      * inversion E; subst. right. exists a0. left. reflexivity.
      * right. exists acc. right. exact H.
    + intros [E|H].
      * inversion E; subst. right. exists acc. left. reflexivity.
      * destruct (IH H) as [E|[acc' H']]; [left; exact E|].
        right. exists acc'. right. exact H'.
Qed.

(** Every group of [$group] has the key of a document that entered. *)
Lemma group_keys docs k acc :
  In (k, acc) (group key_eqb key init step docs) ->
  exists d, In d docs /\ k = key d.
Proof.
  unfold group.
  assert (G : forall gs,
             In (k, acc) (fold_left
                            (fun gs d => group_add key_eqb key init step d gs)
                            docs gs) ->
             (exists d, In d docs /\ k = key d)
             \/ exists acc', In (k, acc') gs).
  { induction docs as [|d rest IH]; cbn; intros gs H.
    - right. exists acc. exact H.
    - destruct (IH _ H) as [[d' [Hd' E]]|[acc' H']].
      + left. exists d'. split; [right; exact Hd'|exact E].
      + destruct (group_add_keys _ _ _ _ H') as [E|R].
        * left. exists d. split; [left; reflexivity|exact E].
        * right. exact R. }
  intros H. destruct (G [] H) as [R|[acc' []]]. exact R.
Qed.

End GroupKeys.

Lemma insert_sorted_In {A} (field : A -> Z) x y l :
  In y (insert_sorted field x l) -> y = x \/ In y l.
Proof.
  induction l as [|z rest IH]; cbn.
  - intros [E|[]]. left. symmetry. exact E.
  - destruct (field x <? field z)%Z; cbn.
    + intros [E|H]; [left; symmetry; exact E|right; exact H].
    + intros [E|H]; [right; left; exact E|].
      destruct (IH H) as [E|R]; [left; exact E|right; right; exact R].
Qed.

Lemma sort_asc_In {A} (field : A -> Z) y l :
  In y (sort_asc field l) -> In y l.
Proof.
  induction l as [|x rest IH]; cbn; [tauto|].
  intros H. apply insert_sorted_In in H as [E|H].
  - left. symmetry. exact E.
  - right. apply IH, H.
Qed.

Lemma find_none_all {A} (p : A -> bool) l :
  (forall x, In x l -> p x = false) -> find p l = None.
Proof.
  induction l as [|x rest IH]; cbn; intros H; [reflexivity|].
  rewrite (H x) by (left; reflexivity).
  apply IH. intros y Hy. apply H. right. exact Hy.
Qed.

Lemma filter_filter_implied {A} (p q : A -> bool) l :
  (forall x, p x = true -> q x = true) ->
  filter p (filter q l) = filter p l.
Proof.
  intros H. induction l as [|x rest IH]; cbn; [reflexivity|].
  destruct (q x) eqn:Q; cbn.
  - rewrite IH. reflexivity.
  - destruct (p x) eqn:P; [|exact IH].
    rewrite (H x P) in Q. discriminate.
Qed.

Lemma day_between a b x :
  (a * msPerDay <= x <= b * msPerDay + 86399000)%Z ->
  (a <= x / msPerDay <= b)%Z.
Proof.
  unfold msPerDay. intros H. Z.to_euclidean_division_equations. lia.
Qed.

(** The year [new Date(year, ...)] builds its date in. *)
Lemma year_window yr :
  MakeDay yr 0 1 = DayFromYear yr
  /\ (MakeDay yr 11 31 = DayFromYear (yr + 1) - 1)%Z.
Proof.
  rewrite !DateSetters.MakeDay_in_range by lia.
  rewrite DateFacts.DayFromYear_succ, DateSetters.DaysInYear_leap.
  cbv [DaysBeforeMonth]. lia.
Qed.

Lemma window_year tza year t :
  (newDate tza year 0 1 0 0 0 <= t)%Z ->
  (t <= newDate tza year 11 31 23 59 59)%Z ->
  getFullYear tza t
  = if ((0 <=? year) && (year <=? 99))%Z then (1900 + year)%Z else year.
Proof.
  unfold newDate.
  generalize (if ((0 <=? year) && (year <=? 99))%Z
              then (1900 + year)%Z else year).
  intros yr.
  unfold getFullYear, YearFromTime, UTC, LocalTime, MakeDate, MakeTime.
  destruct (year_window yr) as [E0 E1]. rewrite E0, E1.
  intros Hlo Hhi.
  apply DateSetters.YearFromDay_unique.
  remember (DayFromYear yr) as a eqn:Ea.
  remember (DayFromYear (yr + 1)) as b eqn:Eb.
  assert (H : (a <= Day (t + tza) <= b - 1)%Z).
  { apply day_between. unfold msPerDay in *. lia. }
  lia.
Qed.

Section Zone.
Variable tza : Z.

(** A row of [getMonthlyCashFlow] is the month of a matched
    transaction. *)
Lemma getMonthlyCashFlow_months userId year db f :
  In f (getMonthlyCashFlow tza userId year db) ->
  exists t, In t (transactions db)
            /\ cashFlowMatch tza userId year t = true
            /\ mongo_month (Transaction.data t) = mes f.
Proof.
  unfold getMonthlyCashFlow. intros H.
  apply sort_asc_In in H. apply in_map_iff in H as ([m [r d]] & E & H).
  subst f. cbn [mes fst].
  apply group_keys in H as ([[m' ty] total] & H & E). cbn in E. subst m.
  apply group_keys in H as (t & H & E). inversion E; subst.
  apply filter_In in H as [Hin Hm].
  exists t. repeat split; assumption.
Qed.

(** Pending and cancelled transactions do not reach the pipeline. *)
Lemma getMonthlyCashFlow_confirmed userId year db :
  getMonthlyCashFlow tza userId year (confirmed_only db)
  = getMonthlyCashFlow tza userId year db.
Proof.
  unfold getMonthlyCashFlow, confirmed_only.
  cbn [transactions with_transactions].
  rewrite filter_filter_implied; [reflexivity|].
  intros t H. unfold cashFlowMatch in H.
  apply andb_true_iff in H as [H _]. apply andb_true_iff in H as [H _].
  apply andb_true_iff in H as [_ H]. exact H.
Qed.

Lemma acumular_fluxo s l : map fluxo (acumular s l) = l.
Proof.
  revert s. induction l as [|m rest IH]; intros s; cbn; [reflexivity|].
  rewrite IH. reflexivity.
Qed.

Lemma sumQ_from a l : fold_left Qplus l a == a + sumQ l.
Proof.
  unfold sumQ. revert a. induction l as [|x rest IH]; intros a; cbn.
  - rewrite Qplus_0_r. reflexivity.
  - rewrite (IH (a + x)), (IH (0 + x)). ring.
Qed.

Lemma acumular_nth s l i e :
  nth_error (acumular s l) i = Some e ->
  saldoAcumulado e == s + sumQ (map saldo (firstn (S i) l)).
Proof.
  revert s i. induction l as [|m rest IH]; intros s i; cbn [acumular].
  - destruct i; discriminate.
  - destruct i as [|i]; cbn [nth_error].
    + intros E. inversion E; subst. cbn.
      unfold sumQ. cbn. ring.
    + intros H. rewrite (IH _ _ H).
      cbn [firstn map]. unfold sumQ at 2. cbn [fold_left].
      rewrite (sumQ_from (0 + saldo m)). ring.
Qed.

Lemma fluxoCompleto_of_report userId ano db :
  map fluxo (fluxoMensal (generateCashFlowReport tza userId ano db))
  = map (fun m =>
           match find (fun f => (mes f =? m)%Z)
                      (getMonthlyCashFlow tza userId ano db) with
           | Some dadosMes => dadosMes
           | None => mkFluxo m 0 0 0
           end) meses.
Proof.
  unfold generateCashFlowReport. cbn [fluxoMensal]. apply acumular_fluxo.
Qed.

End Zone.

(** What the [$match] stage lets through: the confirmed transactions of
    the owner whose date, read in local time, lies in the year. *)
Lemma cashFlowMatch_year tza userId ano t :
  cashFlowMatch tza userId ano t = true ->
  Transaction.user t = userId
  /\ Transaction.status t = confirmada
  /\ getFullYear tza (Transaction.data t)
     = if ((0 <=? ano) && (ano <=? 99))%Z then (1900 + ano)%Z else ano.
Proof.
  unfold cashFlowMatch. rewrite !andb_true_iff.
  intros [[[Hu Hs] Hlo] Hhi].
  apply Z.leb_le in Hlo, Hhi.
  split; [apply String.eqb_eq, Hu|].
  split; [destruct (Transaction.status t); try discriminate; reflexivity|].
  apply window_year; assumption.
Qed.

(** C8 fails on the code outside UTC.  The pipeline matches the
    transactions of the year in local time and groups them by their month
    in UTC.  Three hours behind UTC, a confirmed expense of 40 on
    31 December 2024 at 22:00 is the only transaction; no transaction is
    of January 2024, in local time or in UTC, and the report for 2024
    shows 40 spent in January and nothing in December, where the claim
    has a month without confirmed transactions as zeros.  What holds in
    every zone: the report has 12 entries, for the months 1 to 12 in this
    order; the accumulated balance of the entry at position [i] is the
    sum of the balances of the entries up to it; the report is the one
    computed from the database without its pending and cancelled
    transactions; and the entry of a month is an entry of zeros when no
    confirmed transaction of the owner has its local year equal to the
    year of the report and its UTC month equal to the month of the
    entry. *)
Theorem cash_flow_report (tza : Z) (userId : ObjectId) (ano : Z) (db : DB) :
  let r := generateCashFlowReport tza userId ano db in
  let year := if ((0 <=? ano) && (ano <=? 99))%Z
              then (1900 + ano)%Z else ano in
  map (fun e => mes (fluxo e)) (fluxoMensal r)
  = [1; 2; 3; 4; 5; 6; 7; 8; 9; 10; 11; 12]%Z
  /\ (forall e,
        In e (fluxoMensal r) ->
        (forall t, In t (transactions db) ->
                   Transaction.user t = userId ->
                   Transaction.status t = confirmada ->
                   getFullYear tza (Transaction.data t) = year ->
                   (MonthFromTime (Transaction.data t) + 1)%Z
                   <> mes (fluxo e)) ->
        receitas (fluxo e) = 0 /\ despesas (fluxo e) = 0
        /\ saldo (fluxo e) = 0)
  /\ (forall i e,
        nth_error (fluxoMensal r) i = Some e ->
        saldoAcumulado e
        == sumQ (map (fun x => saldo (fluxo x))
                     (firstn (S i) (fluxoMensal r))))
  /\ generateCashFlowReport tza userId ano (confirmed_only db) = r
  /\ (let zone := Scenario.utc_minus_3 in
      let t := Scenario.expense_dec31 in
      let r := generateCashFlowReport zone Scenario.alice 2024
                 Scenario.db_dec31 in
      transactions Scenario.db_dec31 = [t]
      /\ Transaction.status t = confirmada
      /\ getFullYear zone (Transaction.data t) = 2024%Z
      /\ getMonth zone (Transaction.data t) = 11%Z
      /\ YearFromTime (Transaction.data t) = 2025%Z
      /\ MonthFromTime (Transaction.data t) = 0%Z
      /\ map (fun e => (mes (fluxo e), Qred (despesas (fluxo e)),
                        Qred (saldo (fluxo e))))
             (fluxoMensal r)
         = [(1%Z, 40, -40); (2%Z, 0, 0); (3%Z, 0, 0); (4%Z, 0, 0);
            (5%Z, 0, 0); (6%Z, 0, 0); (7%Z, 0, 0); (8%Z, 0, 0);
            (9%Z, 0, 0); (10%Z, 0, 0); (11%Z, 0, 0); (12%Z, 0, 0)]).
Proof.
  intros r year.
  pose proof (fluxoCompleto_of_report tza userId ano db) as Hfc. fold r in Hfc.
  split; [|split; [|split; [|split]]].
  - rewrite <- (map_map fluxo mes), Hfc, map_map.
    transitivity (map (fun m : Z => m) meses); [|reflexivity].
    apply map_ext. intros m.
    destruct (find _ _) as [f|] eqn:F; [|reflexivity].
    apply find_some in F as [_ F]. apply Z.eqb_eq, F.
  - intros e He Hnone.
    assert (Hin : In (fluxo e) (map fluxo (fluxoMensal r)))
      by (apply in_map, He).
    rewrite Hfc in Hin. apply in_map_iff in Hin as (m & E & _).
    destruct (find _ _) as [f|] eqn:F.
    + exfalso. apply find_some in F as [Hf _]. subst f.
      destruct (getMonthlyCashFlow_months tza _ _ _ _ Hf)
        as (t & Ht & Hm & Emonth).
      destruct (cashFlowMatch_year tza userId ano t Hm) as (Hu & Hs & Hy).
      exact (Hnone t Ht Hu Hs Hy Emonth).
    + rewrite <- E. cbn. repeat split.
  - intros i e Hnth.
    change (fluxoMensal r)
      with (acumular 0 (map (fun m =>
              match find (fun f => (mes f =? m)%Z)
                         (getMonthlyCashFlow tza userId ano db) with
              | Some dadosMes => dadosMes
              | None => mkFluxo m 0 0 0
              end) meses)) in Hnth.
    rewrite (acumular_nth _ _ _ _ Hnth), Qplus_0_l.
    rewrite <- (map_map fluxo saldo), <- (firstn_map fluxo), Hfc.
    reflexivity.
  - unfold r, generateCashFlowReport.
    rewrite getMonthlyCashFlow_confirmed. reflexivity.
  - repeat split; vm_compute; reflexivity.
Qed.

End ReportFacts.

(* ================================================================== *)
(** ** More on the Limit model *)

Module LimitExtra.
Import JSNum JSDate NumFacts DateSetters Limit LimitModel LimitStatics
  LimitFacts ResetFacts.

Local Open Scope Q_scope.

(** X1.  The getter and setter [v => Math.round(v * 100) / 100] of the
    monetary paths give an amount of whole cents, and give an amount of
    whole cents back as it is: applied twice they give what they give
    once.  They keep the order of two amounts, and a non-negative amount
    non-negative. *)
Theorem round2_stable (v w : Q) :
  round2 (round2 v) == round2 v
  /\ is_cents (round2 v)
  /\ (is_cents v -> round2 v == v)
  /\ (v <= w -> round2 v <= round2 w)
  /\ (0 <= v -> 0 <= round2 v).
Proof.
  split; [apply round2_cents, round2_is_cents|].
  split; [apply round2_is_cents|].
  split; [apply round2_cents|].
  split; [|apply round2_nonneg].
  intros H. unfold round2, Math_round.
  apply Qmult_le_compat_r; [|discriminate].
  rewrite <- Zle_Qle. apply Qfloor_resp_le. lra.
Qed.

Lemma percent_ge g c k :
  0 < c -> (k <= g / c * 100 <-> k * c <= g * 100).
Proof.
  intros Hc.
  assert (E : g / c * 100 * c == g * 100) by (field; lra).
  rewrite <- E. symmetry. apply Qmult_le_r, Hc.
Qed.

Lemma Math_min_ge k x y : k <= Math_min x y <-> k <= x /\ k <= y.
Proof.
  unfold Math_min. destruct (Qle_bool x y) eqn:E.
  - apply Qle_bool_iff in E. split; [intros H; split; lra|tauto].
  - assert (y < x).
    { apply Qnot_le_lt. intros H. apply Qle_bool_iff in H. congruence. }
    split; [intros H0; split; lra|tauto].
Qed.

Lemma Qle_bool_false x y : Qle_bool x y = false <-> y < x.
Proof.
  split.
  - intros E. apply Qnot_le_lt. intros H. apply Qle_bool_iff in H.
    congruence.
  - intros H. apply not_true_iff_false. intros E.
    apply Qle_bool_iff in E. lra.
Qed.

(** The test [percentual >= k] of [status], for a positive ceiling and a
    threshold of at most 100. *)
Lemma percentual_ge l k :
  0 < get_valorLimite l -> k <= 100 ->
  (k <= percentualUsado l
   <-> k * get_valorLimite l <= get_valorGasto l * 100).
Proof.
  intros Hc Hk. unfold percentualUsado.
  destruct (Qeq_bool (get_valorLimite l) 0) eqn:E.
  - apply Qeq_bool_iff in E. lra.
  - rewrite Math_min_ge, (percent_ge _ _ _ Hc). tauto.
Qed.

Ltac status_case E :=
  match goal with
  | |- context [Qle_bool ?k (percentualUsado ?l)] =>
      destruct (Qle_bool k (percentualUsado l)) eqn:E;
      [apply Qle_bool_iff in E | apply Qle_bool_false in E]
  end.

(** X2.  For a limit of positive ceiling, [status] is "excedido" exactly
    when the accrued amount has reached the ceiling, and "normal" exactly
    when it is under half of it; [excedido] implies the status
    "excedido", but a limit spent exactly to its ceiling has the status
    "excedido" while [excedido] is false. *)
Theorem status_and_excedido (l : Limit.doc) :
  0 < get_valorLimite l ->
  (status l = st_excedido <-> get_valorLimite l <= get_valorGasto l)
  /\ (status l = st_normal <-> get_valorGasto l * 100 < 50 * get_valorLimite l)
  /\ (excedido l = true -> status l = st_excedido)
  /\ (get_valorGasto l == get_valorLimite l ->
      status l = st_excedido /\ excedido l = false).
Proof.
  intros Hc.
  pose proof (percentual_ge l 100 Hc ltac:(lra)) as H100.
  pose proof (percentual_ge l 90 Hc ltac:(lra)) as H90.
  pose proof (percentual_ge l 75 Hc ltac:(lra)) as H75.
  pose proof (percentual_ge l 50 Hc ltac:(lra)) as H50.
  assert (Hex : status l = st_excedido
                <-> get_valorLimite l <= get_valorGasto l).
  { unfold status. status_case E100.
    - split; [intros _; apply H100 in E100; lra|reflexivity].
    - split.
      + status_case E90; [discriminate|].
        status_case E75; [discriminate|].
        status_case E50; discriminate.
      + intros H. assert (T : 100 <= percentualUsado l)
          by (apply H100; lra). lra. }
  split; [exact Hex|]. split; [|split].
  - unfold status.
    status_case E100; [apply H100 in E100; split; [discriminate|lra]|].
    status_case E90; [apply H90 in E90; split; [discriminate|lra]|].
    status_case E75; [apply H75 in E75; split; [discriminate|lra]|].
    status_case E50; [apply H50 in E50; split; [discriminate|lra]|].
    split; [intros _|reflexivity].
    apply Qnot_le_lt. intros H.
    assert (T : 50 <= percentualUsado l) by (apply H50; lra). lra.
  - intros E. unfold excedido in E. apply Qltb_iff in E.
    apply Hex. lra.
  - intros E. split; [apply Hex; lra|].
    unfold excedido. apply not_true_iff_false. intros T.
    apply Qltb_iff in T. lra.
Qed.

(** The theorem at the limit of ceiling 300 with 550 accrued. *)
Lemma status_and_excedido_witness :
  status Scenario.limit_over = st_excedido
  /\ excedido Scenario.limit_over = true.
Proof.
  destruct (status_and_excedido Scenario.limit_over) as (H & _);
    [reflexivity|].
  split; [apply H; vm_compute; discriminate|reflexivity].
Defined.

(** X3.  [valorRestante] is never negative; it is 0 exactly when the
    accrued amount has reached the ceiling, and otherwise it is what is
    left of the ceiling. *)
Theorem valorRestante_spec (l : Limit.doc) :
  0 <= valorRestante l
  /\ (valorRestante l == 0 <-> get_valorLimite l <= get_valorGasto l)
  /\ (get_valorGasto l <= get_valorLimite l ->
      valorRestante l + get_valorGasto l == get_valorLimite l).
Proof.
  unfold valorRestante, Math_max.
  destruct (Qle_bool 0 (get_valorLimite l - get_valorGasto l)) eqn:E.
  - apply Qle_bool_iff in E.
    split; [exact E|]. split; [split; intros H; lra|intros _; ring].
  - apply Qle_bool_false in E.
    split; [lra|]. split; [split; intros H; lra|intros H; lra].
Qed.

(** The theorem at the limit of ceiling 300 with 550 accrued. *)
Lemma valorRestante_spec_witness : valorRestante Scenario.limit_over == 0.
Proof.
  destruct (valorRestante_spec Scenario.limit_over) as (_ & H & _).
  apply H. vm_compute. discriminate.
Defined.





Lemma filter_length_implied {A} (p q : A -> bool) l :
  (forall x, p x = true -> q x = true) ->
  (List.length (filter p l) <= List.length (filter q l))%nat.
Proof.
  intros H. induction l as [|x rest IH]; cbn; [lia|].
  destruct (p x) eqn:P.
  - rewrite (H x P). cbn. lia.
  - destruct (q x); cbn; lia.
Qed.


Lemma proximoReset_after tza l :
  (ultimoReset l < proximoResetCalculado tza l)%Z.
Proof.
  pose proof (proximoReset_shift tza l) as E. cbv zeta in E. rewrite E.
  pose proof (DaysInMonthOf_range
                (YearFromTime (LocalTime tza (ultimoReset l))) _
                (MonthFromTime_range (LocalTime tza (ultimoReset l)))) as Hm.
  fold (DaysInMonth (LocalTime tza (ultimoReset l))) in Hm.
  pose proof (DaysInYear_leap (YearFromTime (LocalTime tza (ultimoReset l)))).
  pose proof (DaysInYear_leap
                (YearFromTime (LocalTime tza (ultimoReset l)) + 1)).
  pose proof (LeapFlag_cases (YearFromTime (LocalTime tza (ultimoReset l)))).
  pose proof (LeapFlag_cases
                (YearFromTime (LocalTime tza (ultimoReset l)) + 1)).
  unfold msPerDay.
  destruct (periodo l); try lia.
  destruct (MonthFromTime (LocalTime tza (ultimoReset l)) <? 2)%Z; lia.
Qed.

Lemma In_replace_doc l1 l ls :
  In l ls -> _id l1 = _id l -> In l1 (replace_doc l1 ls).
Proof.
  intros Hin Hid. unfold replace_doc. apply in_map_iff.
  exists l. split; [|exact Hin].
  rewrite Hid. unfold oid_eqb. rewrite String.eqb_refl. reflexivity.
Qed.

(** X6.  A limit of the collection that passes its validators and is
    reset at an instant is no longer due at that instant: its next reset
    is strictly later, [findToReset] at the instant of the reset does not
    return it, and later [findToReset] returns it exactly when it is
    active and its next reset has come. *)
Theorem resetar_then_findToReset
    (tza now : Z) (l : Limit.doc) (db : DB) :
  In l (limits db) -> validate l = true ->
  exists l1 db1,
    resetar tza now l db = (inr l1, db1)
    /\ In l1 (limits db1)
    /\ (now < proximoResetCalculado tza l1)%Z
    /\ ~ In l1 (findToReset now db1)
    /\ (forall t, In l1 (findToReset t db1)
                  <-> ativo l = true
                      /\ (proximoResetCalculado tza l1 <= t)%Z).
Proof.
  intros Hin Hv.
  destruct (resetar_ok tza now l db Hv) as (R & _ & U & P & _).
  set (l1 := preSave tza (resetar_doc tza now l)) in *.
  destruct (preSave_fields tza (resetar_doc tza now l))
    as (Hid & _ & _ & _ & _ & _ & _ & _ & Ha & _).
  fold l1 in Hid, Ha. cbn in Hid, Ha.
  exists l1, (with_limits (replace_doc l1 (limits db)) db).
  assert (Hin1 : In l1 (limits (with_limits (replace_doc l1 (limits db)) db)))
    by (cbn; apply (In_replace_doc l1 l); assumption).
  assert (Hlt : (now < proximoResetCalculado tza l1)%Z).
  { pose proof (proximoReset_after tza l1) as H. rewrite U in H. exact H. }
  assert (Hdue : forall t,
             In l1 (findToReset t
                      (with_limits (replace_doc l1 (limits db)) db))
             <-> ativo l = true /\ (proximoResetCalculado tza l1 <= t)%Z).
  { intros t. unfold findToReset. rewrite filter_In, P, Ha, andb_true_iff.
    rewrite Z.leb_le. tauto. }
  split; [exact R|]. split; [exact Hin1|]. split; [exact Hlt|].
  split; [|exact Hdue].
  intros H. apply Hdue in H as [_ H]. lia.
Qed.

(** The theorem on the general limit of the example. *)
Lemma resetar_then_findToReset_witness :
  exists l1 db1,
    resetar 0 Scenario.june15 Scenario.limit_geral Scenario.db_limits
    = (inr l1, db1)
    /\ ~ In l1 (findToReset Scenario.june15 db1).
Proof.
  destruct (resetar_then_findToReset 0 Scenario.june15 Scenario.limit_geral
              Scenario.db_limits)
    as (l1 & db1 & R & _ & _ & H & _);
    [left; reflexivity|reflexivity|].
  exists l1, db1. split; assumption.
Defined.





(** X8.  [pre('save')] run twice gives what it gives once.  When only
    one of [categoria] and [categoriaId] is set, both hold that reference
    afterwards, and likewise for [cartao] and [cartaoId]; two different
    references are left as they are. *)
Theorem preSave_sync (tza : Z) (l : Limit.doc) :
  preSave tza (preSave tza l) = preSave tza l
  /\ (categoria l = None \/ categoriaId l = None ->
      categoria (preSave tza l) = Limit.categoriaId (preSave tza l))
  /\ (cartao l = None \/ cartaoId l = None ->
      cartao (preSave tza l) = Limit.cartaoId (preSave tza l))
  /\ (forall a b, categoria l = Some a -> categoriaId l = Some b ->
                  categoria (preSave tza l) = Some a
                  /\ Limit.categoriaId (preSave tza l) = Some b).
Proof.
  split; [|split; [|split]].
  - unfold preSave at 1. rewrite proximoResetCalculado_preSave.
    unfold preSave.
    destruct (categoria l), (categoriaId l), (cartao l), (cartaoId l);
      reflexivity.
  - unfold preSave.
    destruct (categoria l), (categoriaId l), (cartao l), (cartaoId l);
      cbn; intros [H|H]; congruence.
  - unfold preSave.
    destruct (categoria l), (categoriaId l), (cartao l), (cartaoId l);
      cbn; intros [H|H]; congruence.
  - intros a b Ha Hb. unfold preSave. rewrite Ha, Hb.
    destruct (cartao l), (cartaoId l); cbn; split; reflexivity.
Qed.

End LimitExtra.

(* ================================================================== *)
(** ** More on the category-limit controller *)

Module ControllerExtra.
Import JSNum JSDate NumFacts DateSetters Aggregate CategoryLimitController
  AccrualFacts OwnerFacts.

Local Open Scope Q_scope.

(** X9.  [upsertCategoryLimit] answers 201 exactly when the body has a
    [categoriaId] of 24 hexadecimal digits and a [valor] above 0; every
    other request is answered 400 and leaves the database as it was. *)
Theorem upsert_accepts_iff
    (tza : Z) (fresh : ObjectId) (now : Z) (userId : ObjectId)
    (body : UpsertBody) (db : DB) :
  let r := upsertCategoryLimit tza fresh now userId body db in
  (statusCode_of (fst r) = 201%Z
   <-> match body_categoriaId body, body_valor body with
       | Some c, Some v =>
           String.length c = 24%nat /\ all_hex c = true /\ 0 < v
       | _, _ => False
       end)
  /\ (statusCode_of (fst r) <> 201%Z ->
      statusCode_of (fst r) = 400%Z /\ snd r = db).
Proof.
  unfold upsertCategoryLimit.
  destruct (body_categoriaId body) as [c|], (body_valor body) as [v|];
    cbn; try (split; [split; [discriminate|tauto]|intros _; split; reflexivity]).
  destruct (truthy c) eqn:Tc; cbn.
  2:{ split; [split; [discriminate|]|intros _; split; reflexivity].
      intros (Hl & _). destruct c; [discriminate Hl|discriminate Tc]. }
  destruct (Qeq_bool v 0) eqn:Ez; cbn.
  { apply Qeq_bool_iff in Ez.
    split; [split; [discriminate|]|intros _; split; reflexivity].
    intros (_ & _ & Hv). lra. }
  destruct (Qle_bool v 0) eqn:El; cbn.
  { apply Qle_bool_iff in El.
    split; [split; [discriminate|]|intros _; split; reflexivity].
    intros (_ & _ & Hv). lra. }
  assert (Hpos : 0 < v).
  { apply Qnot_le_lt. intros H. apply Qle_bool_iff in H. congruence. }
  destruct (Nat.eqb_spec (JSString.length c) 24) as [Hl|Hl]; cbn.
  2:{ split; [split; [discriminate|]|intros _; split; reflexivity].
      intros (Hl' & Hh & _). exfalso. apply Hl.
      rewrite (all_hex_length c Hh). exact Hl'. }
  unfold castObjectId. destruct (all_hex c) eqn:Hh.
  2:{ cbn. split; [split; [discriminate|]|intros _; split; reflexivity].
      intros (_ & F & _). discriminate F. }
  rewrite (all_hex_length c Hh) in Hl.
  destruct (findOneAndUpdate fresh now userId (lower_hex c) v db) as [l db'].
  destruct (monthWindow tza now) as [start end_]. cbn.
  split; [tauto|]. intros H. exfalso. apply H. reflexivity.
Qed.

Lemma find_replace (p : Limit.doc -> bool) l0 l' ls :
  NoDup (map Limit._id ls) ->
  find p ls = Some l0 -> Limit._id l' = Limit._id l0 -> p l' = true ->
  find p (LimitModel.replace_doc l' ls) = Some l'.
Proof.
  intros Hnd Hf Hid Hp. induction ls as [|x rest IH]; [discriminate|].
  inversion Hnd as [|? ? Hnot Hrest]; subst. cbn in Hf |- *.
  destruct (p x) eqn:Px.
  - inversion Hf; subst x. rewrite Hid. unfold oid_eqb.
    rewrite String.eqb_refl, Hp. reflexivity.
  - assert (Hne : oid_eqb (Limit._id x) (Limit._id l') = false).
    { apply not_true_iff_false. intros E. apply oid_eqb_eq in E.
      apply Hnot. rewrite E, Hid. apply in_map.
      apply (find_some _ _ Hf). }
    rewrite Hne, Px. apply IH; assumption.
Qed.

Lemma replace_doc_twice l' ls :
  LimitModel.replace_doc l' (LimitModel.replace_doc l' ls)
  = LimitModel.replace_doc l' ls.
Proof.
  unfold LimitModel.replace_doc. rewrite map_map. apply map_ext.
  intros x. destruct (oid_eqb (Limit._id x) (Limit._id l')) eqn:E.
  - unfold oid_eqb. rewrite String.eqb_refl. reflexivity.
  - rewrite E. reflexivity.
Qed.

Lemma replace_doc_absent l' ls :
  ~ In (Limit._id l') (map Limit._id ls) ->
  LimitModel.replace_doc l' ls = ls.
Proof.
  intros Hnot. unfold LimitModel.replace_doc.
  rewrite <- (map_id ls) at 2. apply map_ext_in. intros x Hx.
  destruct (oid_eqb (Limit._id x) (Limit._id l')) eqn:E; [|reflexivity].
  exfalso. apply oid_eqb_eq in E. apply Hnot. rewrite <- E.
  apply in_map, Hx.
Qed.

Lemma replace_doc_app_fresh l' ls :
  ~ In (Limit._id l') (map Limit._id ls) ->
  LimitModel.replace_doc l' (ls ++ [l']) = ls ++ [l'].
Proof.
  intros Hnot. unfold LimitModel.replace_doc. rewrite map_app. f_equal.
  - exact (replace_doc_absent l' ls Hnot).
  - cbn. unfold oid_eqb. rewrite String.eqb_refl. reflexivity.
Qed.

Lemma find_app_none {A} (p : A -> bool) l x :
  find p l = None -> p x = true -> find p (l ++ [x]) = Some x.
Proof.
  intros Hn Hp. induction l as [|y rest IH]; cbn in *.
  - rewrite Hp. reflexivity.
  - destruct (p y); [discriminate|]. apply IH, Hn.
Qed.

(** The upsert of the collection, run again on its own result, finds the
    limit it wrote and writes it again unchanged. *)
Lemma findOneAndUpdate_again fresh fresh2 now now2 userId cid valor db :
  NoDup (map Limit._id (limits db)) ->
  ~ In fresh (map Limit._id (limits db)) ->
  let r := findOneAndUpdate fresh now userId cid valor db in
  findOneAndUpdate fresh2 now2 userId cid valor (snd r) = r.
Proof.
  intros Hnd Hfresh r. subst r. unfold findOneAndUpdate.
  set (p := fun l => oid_eqb (Limit.user l) userId
                     && ref_eqb (Limit.categoria l) (Some cid)
                     && TipoLimite_eqb (Limit.tipo l) categoria_).
  assert (Hp : forall l', Limit.user l' = userId ->
                          Limit.categoria l' = Some cid ->
                          Limit.tipo l' = categoria_ -> p l' = true).
  { intros l' Hu Hc Ht. unfold p. rewrite Hu, Hc, Ht. cbn.
    unfold oid_eqb. rewrite !String.eqb_refl. reflexivity. }
  destruct (find p (limits db)) as [l0|] eqn:F; cbn [snd limits with_limits].
  - set (l' := Limit.mk (Limit._id l0) (Limit.user l0) (Limit.nome l0)
                  categoria_ (round2 valor) (Limit.valorGasto l0)
                  (Limit.periodo l0) (Some cid) (Some cid)
                  (Limit.cartao l0) (Limit.cartaoId l0) true
                  (Limit.ultimoReset l0) (Limit.proximoReset l0)).
    assert (Hu : Limit.user l0 = userId).
    { apply find_some in F as [_ F]. unfold p in F.
      apply andb_true_iff in F as [F _]. apply andb_true_iff in F as [F _].
      apply oid_eqb_eq, F. }
    rewrite (find_replace p l0 l' (limits db) Hnd F eq_refl
               (Hp l' Hu eq_refl eq_refl)).
    cbn -[LimitModel.replace_doc]. fold l'.
    rewrite replace_doc_twice. reflexivity.
  - set (l' := Limit.mk fresh userId None categoria_ (round2 valor) 0
                  mensal (Some cid) (Some cid) None None true now None).
    rewrite (find_app_none p (limits db) l' F
               (Hp l' eq_refl eq_refl eq_refl)).
    cbn -[LimitModel.replace_doc]. fold l'.
    rewrite (replace_doc_app_fresh l' (limits db) Hfresh).
    reflexivity.
Qed.

Lemma findOneAndUpdate_length fresh now userId cid valor db :
  (List.length (limits (snd (findOneAndUpdate fresh now userId cid valor db)))
   <= S (List.length (limits db)))%nat.
Proof.
  unfold findOneAndUpdate. destruct (find _ (limits db)); cbn.
  - unfold LimitModel.replace_doc. rewrite List.length_map. lia.
  - rewrite List.length_app. cbn. lia.
Qed.

(** X10.  [upsertCategoryLimit] is idempotent: on a collection of distinct
    [_id]s, the same request sent again at the same instant gets the same
    response and leaves the database as the first call left it, so a
    category never gets a second limit this way; one call adds at most
    one limit. *)
Theorem upsert_idempotent
    (tza : Z) (fresh fresh2 : ObjectId) (now : Z) (userId : ObjectId)
    (body : UpsertBody) (db : DB) :
  NoDup (map Limit._id (limits db)) ->
  ~ In fresh (map Limit._id (limits db)) ->
  let r := upsertCategoryLimit tza fresh now userId body db in
  upsertCategoryLimit tza fresh2 now userId body (snd r) = r
  /\ (List.length (limits (snd r)) <= S (List.length (limits db)))%nat.
Proof.
  intros Hnd Hfresh. unfold upsertCategoryLimit.
  destruct (body_categoriaId body) as [c|], (body_valor body) as [v|];
    cbn; try (split; [reflexivity|lia]).
  destruct (negb (truthy c) || Qeq_bool v 0 || Qle_bool v 0);
    [cbn; split; [reflexivity|lia]|].
  destruct (negb (JSString.length c =? 24)%nat);
    [cbn; split; [reflexivity|lia]|].
  destruct (castObjectId c) as [cid|]; [|cbn; split; [reflexivity|lia]].
  pose proof (findOneAndUpdate_again fresh fresh2 now now userId cid v db
                Hnd Hfresh) as Hagain.
  pose proof (findOneAndUpdate_length fresh now userId cid v db) as Hlen.
  destruct (findOneAndUpdate fresh now userId cid v db) as [l db'].
  cbn in Hagain, Hlen.
  destruct (monthWindow tza now) as [start end_]. cbn [snd].
  rewrite Hagain. split; [reflexivity|exact Hlen].
Qed.

(** The theorem on the example with a budget of 500 on Food. *)
Lemma upsert_idempotent_witness :
  let r := upsertCategoryLimit 0 Scenario.fresh_id Scenario.june15
             Scenario.alice Scenario.body_food500 Scenario.db_food550 in
  upsertCategoryLimit 0 Scenario.bob Scenario.june15 Scenario.alice
    Scenario.body_food500 (snd r) = r.
Proof.
  apply (upsert_idempotent 0 Scenario.fresh_id Scenario.bob Scenario.june15
           Scenario.alice Scenario.body_food500 Scenario.db_food550).
  - cbn. repeat constructor. intros [].
  - cbn. intros [H|[]]. discriminate H.
Defined.

(** X11.  When the caller has no limit on the category yet, an accepted
    upsert appends one new limit: nothing accrued, monthly, without [nome]
    and without [proximoReset] (the update does not run [pre('save')]), so
    [findToReset] returns it at no instant. *)
Theorem upsert_new_limit_unscheduled
    (tza : Z) (fresh : ObjectId) (now : Z) (userId : ObjectId)
    (c : string) (v : Q) (db : DB) :
  String.length c = 24%nat -> all_hex c = true -> 0 < v ->
  (forall l, In l (limits db) ->
             ~ (Limit.user l = userId
                /\ Limit.categoria l = Some (lower_hex c)
                /\ Limit.tipo l = categoria_)) ->
  exists view l,
    upsertCategoryLimit tza fresh now userId (mkBody (Some c) (Some v)) db
    = (json_view 201 view, with_limits (limits db ++ [l]) db)
    /\ Limit._id l = fresh /\ Limit.valorGasto l = 0
    /\ Limit.periodo l = mensal /\ Limit.nome l = None
    /\ Limit.ultimoReset l = now /\ Limit.proximoReset l = None
    /\ forall t,
         ~ In l (LimitModel.findToReset t
                   (with_limits (limits db ++ [l]) db)).
Proof.
  intros Hlen Hhex Hpos Hnone.
  unfold upsertCategoryLimit. cbn [body_categoriaId body_valor].
  rewrite (truthy_length c 23 Hlen).
  assert (Hz : Qeq_bool v 0 = false).
  { apply not_true_iff_false. intros E. apply Qeq_bool_iff in E. lra. }
  assert (Hle : Qle_bool v 0 = false).
  { apply not_true_iff_false. intros E. apply Qle_bool_iff in E. lra. }
  rewrite Hz, Hle, (all_hex_length _ Hhex), Hlen. cbn [negb orb Nat.eqb].
  unfold castObjectId. rewrite Hhex.
  unfold findOneAndUpdate.
  rewrite (ReportFacts.find_none_all _ (limits db)).
  2:{ intros l Hl. apply not_true_iff_false. intros E.
      apply andb_true_iff in E as [E Et].
      apply andb_true_iff in E as [Eu Ec].
      apply (Hnone l Hl). split; [apply oid_eqb_eq, Eu|].
      split; [apply ref_eqb_eq, Ec|apply TipoLimite_eqb_eq, Et]. }
  destruct (monthWindow tza now) as [start end_].
  do 2 eexists. split; [reflexivity|].
  cbn. repeat (split; [reflexivity|]).
  intros t Hin. unfold LimitModel.findToReset in Hin.
  apply filter_In in Hin as [_ Hin]. cbn in Hin. discriminate Hin.
Qed.

(** The theorem on an empty database. *)
Lemma upsert_new_limit_unscheduled_witness :
  exists view l,
    upsertCategoryLimit 0 Scenario.fresh_id Scenario.june15 Scenario.alice
      (mkBody (Some Scenario.food) (Some 500)) (mkDB [] [] [])
    = (json_view 201 view, with_limits [l] (mkDB [] [] []))
    /\ Limit.proximoReset l = None.
Proof.
  destruct (upsert_new_limit_unscheduled 0 Scenario.fresh_id Scenario.june15
              Scenario.alice Scenario.food 500 (mkDB [] [] []))
    as (view & l & R & _ & _ & _ & _ & _ & P & _);
    [reflexivity|reflexivity|reflexivity|intros l []|].
  exists view, l. split; [exact R|exact P].
Defined.









Lemma filter_and {A} (p q : A -> bool) l :
  filter (fun x => p x && q x) l = filter q (filter p l).
Proof.
  induction l as [|x rest IH]; cbn; [reflexivity|].
  destruct (p x); cbn; [destruct (q x)|]; rewrite IH; reflexivity.
Qed.

(** The budget view reads the database through the categories, the
    limits of the caller and the transactions of the caller. *)
Lemma getCategoryLimits_owner tza now userId db :
  getCategoryLimits tza now userId db
  = getCategoryLimits tza now userId
      (mkDB (categories db)
            (filter (fun l => oid_eqb (Limit.user l) userId) (limits db))
            (filter (fun t => oid_eqb (Transaction.user t) userId)
                    (transactions db))).
Proof.
  unfold getCategoryLimits. destruct (monthWindow tza now) as [start end_].
  cbn [categories limits transactions].
  rewrite (ReportFacts.filter_filter_implied
             (fun l => oid_eqb (Limit.user l) userId
                       && TipoLimite_eqb (Limit.tipo l) categoria_
                       && Bool.eqb (Limit.ativo l) true)
             (fun l => oid_eqb (Limit.user l) userId)).
  2:{ intros x H. apply andb_true_iff in H as [H _].
      apply andb_true_iff in H as [H _]. exact H. }
  rewrite (ReportFacts.filter_filter_implied
             (fun t => oid_eqb (Transaction.user t) userId
                       && Tipo_eqb (Transaction.tipo t) despesa
                       && (start <=? Transaction.data t)%Z
                       && (Transaction.data t <=? end_)%Z)
             (fun t => oid_eqb (Transaction.user t) userId)).
  2:{ intros x H. apply andb_true_iff in H as [H _].
      apply andb_true_iff in H as [H _].
      apply andb_true_iff in H as [H _]. exact H. }
  reflexivity.
Qed.

(** X13.  The budget view of a user does not depend on the limits and
    the transactions of the other users: two databases with the same
    categories, the same limits of the user and the same transactions of
    the user give the same view. *)
Theorem getCategoryLimits_isolated
    (tza now : Z) (userId : ObjectId) (db1 db2 : DB) :
  categories db1 = categories db2 ->
  filter (fun l => oid_eqb (Limit.user l) userId) (limits db1)
  = filter (fun l => oid_eqb (Limit.user l) userId) (limits db2) ->
  filter (fun t => oid_eqb (Transaction.user t) userId) (transactions db1)
  = filter (fun t => oid_eqb (Transaction.user t) userId) (transactions db2) ->
  getCategoryLimits tza now userId db1 = getCategoryLimits tza now userId db2.
Proof.
  intros Hc Hl Ht.
  rewrite (getCategoryLimits_owner tza now userId db1),
    (getCategoryLimits_owner tza now userId db2), Hc, Hl, Ht.
  reflexivity.
Qed.

(** The theorem on the example, with a limit and an expense of Bob
    added. *)
Lemma getCategoryLimits_isolated_witness :
  getCategoryLimits 0 Scenario.june15 Scenario.alice Scenario.db_food550_bob
  = getCategoryLimits 0 Scenario.june15 Scenario.alice Scenario.db_food550.
Proof.
  apply getCategoryLimits_isolated; reflexivity.
Defined.

End ControllerExtra.

(* ================================================================== *)
(** ** The month window *)

Module WindowFacts.
Import JSDate DateFacts DateSetters CategoryLimitController.

Local Open Scope Z_scope.

Lemma MakeDay_date y m d d' : MakeDay y m d = MakeDay y m d' + (d - d').
Proof. unfold MakeDay. lia. Qed.

(** X14.  For an instant of year 100 or later, the window of the budget
    view starts at the first instant of the local month of [now] and ends
    1000 ms before the first instant of the next month, at 23:59:59.000 of
    the last day: [now] is in the month, every instant of the month has the
    year and month of [now], and the instants of the last 999 ms of the
    month, after [end], are outside the window. *)
Theorem monthWindow_bounds (tza now : Z) :
  99 < getFullYear tza now ->
  let lt := LocalTime tza now in
  let start := fst (monthWindow tza now) in
  let end_ := snd (monthWindow tza now) in
  let next := start + DaysInMonth lt * msPerDay in
  start <= now < next
  /\ end_ = next - 1000
  /\ (forall t, start <= t < next ->
                getFullYear tza t = getFullYear tza now
                /\ getMonth tza t = getMonth tza now)
  /\ (forall t, next - 1000 < t < next ->
                getMonth tza t = getMonth tza now /\ end_ < t).
Proof.
  intros Hy lt start end_ next.
  pose proof (MonthFromTime_range lt) as Hm.
  pose proof (DateFromTime_range lt) as Hd.
  assert (Htod : 0 <= TimeWithinDay lt < msPerDay)
    by (apply Z.mod_pos_bound; reflexivity).
  assert (Hlt : lt = Day lt * msPerDay + TimeWithinDay lt).
  { unfold Day, TimeWithinDay. pose proof (Z.div_mod lt msPerDay). 
    unfold msPerDay in *. lia. }
  set (S0 := Day lt + 1 - DateFromTime lt).
  assert (Hs1 : MakeDay (YearFromTime lt) (MonthFromTime lt) 1 = S0).
  { replace 1 with (DateFromTime lt + (1 - DateFromTime lt)) by lia.
    rewrite MakeDay_same_month. unfold S0. lia. }
  assert (Hyr : (if (0 <=? getFullYear tza now)
                    && (getFullYear tza now <=? 99)
                 then 1900 + getFullYear tza now
                 else getFullYear tza now) = YearFromTime lt).
  { destruct (Z.leb_spec (getFullYear tza now) 99); [lia|].
    rewrite andb_false_r. reflexivity. }
  assert (Estart : start = S0 * msPerDay - tza).
  { unfold start, monthWindow, newDate. cbn [fst]. rewrite Hyr.
    replace (getMonth tza now + 1 - 1) with (MonthFromTime lt)
      by (unfold getMonth; fold lt; lia).
    rewrite Hs1. unfold UTC, MakeDate, MakeTime. lia. }
  assert (Eend : end_ = (S0 + DaysInMonth lt - 1) * msPerDay + 86399000 - tza).
  { unfold end_, monthWindow, newDate. cbn [snd]. rewrite Hyr.
    unfold getMonth. fold lt.
    rewrite (MakeDay_date _ _ 0 (DateFromTime lt)), MakeDay_next_month.
    unfold UTC, MakeDate, MakeTime, S0. lia. }
  assert (Enow : now = lt - tza) by (unfold lt, LocalTime; lia).
  assert (Hmonth : forall t, start <= t < next ->
             getFullYear tza t = getFullYear tza now
             /\ getMonth tza t = getMonth tza now).
  { intros t Ht. unfold getFullYear, getMonth. fold lt.
    set (lt' := LocalTime tza t).
    assert (Hr : S0 * msPerDay <= lt' < (S0 + DaysInMonth lt) * msPerDay)
      by (unfold lt', LocalTime, next in *; lia).
    assert (Hq : S0 <= lt' / msPerDay < S0 + DaysInMonth lt).
    { unfold msPerDay in *. split.
      - apply Z.div_le_lower_bound; lia.
      - apply Z.div_lt_upper_bound; lia. }
    destruct (date_round_trip (YearFromTime lt) (MonthFromTime lt)
                (lt' / msPerDay - S0 + 1) (lt' mod msPerDay))
      as (Y & M & _).
    - exact Hm.
    - fold (DaysInMonth lt). lia.
    - apply Z.mod_pos_bound. reflexivity.
    - assert (E : MakeDate (MakeDay (YearFromTime lt) (MonthFromTime lt)
                                    (lt' / msPerDay - S0 + 1))
                           (lt' mod msPerDay) = lt').
      { rewrite (MakeDay_date _ _ _ 1), Hs1. unfold MakeDate.
        pose proof (Z.div_mod lt' msPerDay). unfold msPerDay in *. lia. }
      rewrite E in Y, M. split; assumption. }
  unfold msPerDay in *.
  split; [unfold next; lia|]. split; [unfold next; lia|].
  split; [exact Hmonth|].
  intros t Ht. split; [apply Hmonth; unfold next in *; lia|].
  unfold next in *. lia.
Qed.

(** The theorem at 15 June 2024: the window of June. *)
Lemma monthWindow_bounds_witness :
  monthWindow 0 Scenario.june15
  = (newDate 0 2024 5 1 0 0 0, newDate 0 2024 5 30 23 59 59)
  /\ snd (monthWindow 0 Scenario.june15)
     = fst (monthWindow 0 Scenario.june15) + 30 * msPerDay - 1000.
Proof.
  destruct (monthWindow_bounds 0 Scenario.june15) as (_ & H & _);
    [vm_compute; reflexivity|].
  split; [vm_compute; reflexivity|].
  rewrite H. vm_compute. reflexivity.
Defined.

End WindowFacts.

(* ================================================================== *)
(** ** The [$group] stage *)

Module GroupFacts.
Import JSNum Aggregate.

Section Lookup.
Context {K V : Type}.
Variable key_eqb : K -> K -> bool.
Hypothesis key_eqb_eq : forall a b, key_eqb a b = true <-> a = b.

Local Abbreviation lookup := (obj_get (V := V) key_eqb).

Lemma key_eqb_refl k : key_eqb k k = true.
Proof. apply key_eqb_eq. reflexivity. Qed.

Lemma lookup_None k gs : lookup k gs = None <-> ~ In k (map fst gs).
Proof.
  induction gs as [|[k0 a0] rest IH]; cbn.
  - tauto.
  - destruct (key_eqb k0 k) eqn:E.
    + apply key_eqb_eq in E. split; [discriminate|tauto].
    + rewrite IH. split.
      * intros H [F|F]; [|tauto]. subst k0.
        rewrite key_eqb_refl in E. discriminate.
      * tauto.
Qed.

Lemma lookup_In k a gs :
  NoDup (map fst gs) -> In (k, a) gs -> lookup k gs = Some a.
Proof.
  induction gs as [|[k0 a0] rest IH]; cbn; [tauto|].
  intros Hnd [E|Hin]; inversion Hnd as [|? ? Hnot Hrest]; subst.
  - inversion E; subst. rewrite key_eqb_refl. reflexivity.
  - destruct (key_eqb k0 k) eqn:E.
    + apply key_eqb_eq in E. subst k0. exfalso. apply Hnot.
      apply (in_map fst _ _ Hin).
    + apply IH; assumption.
Qed.

Lemma lookup_Some_In k a gs : lookup k gs = Some a -> In (k, a) gs.
Proof.
  induction gs as [|[k0 a0] rest IH]; cbn; [discriminate|].
  destruct (key_eqb k0 k) eqn:E.
  - apply key_eqb_eq in E. subst k0. intros H. inversion H. left. reflexivity.
  - intros H. right. apply IH, H.
Qed.

(** A plain object filled from the groups reads as the groups do. *)
Lemma lookup_object gs k :
  NoDup (map fst gs) ->
  lookup k (fold_left (fun o t => obj_set (fst t) (snd t) o) gs [])
  = lookup k gs.
Proof.
  intros Hnd.
  assert (E : forall acc,
             fold_left (fun o (t : K * V) => obj_set (fst t) (snd t) o)
                       gs acc = rev gs ++ acc).
  { induction gs as [|[k0 a0] rest IH]; intros acc; cbn; [reflexivity|].
    inversion Hnd; subst. rewrite IH by assumption.
    unfold obj_set. cbn. rewrite <- app_assoc. reflexivity. }
  rewrite E, app_nil_r.
  destruct (lookup k gs) as [a|] eqn:L.
  - apply lookup_In.
    + rewrite map_rev. apply NoDup_rev, Hnd.
    + apply in_rev. rewrite rev_involutive. apply lookup_Some_In, L.
  - apply lookup_None. apply lookup_None in L.
    rewrite map_rev. intros H. apply L. apply in_rev, H.
Qed.

End Lookup.

Section Group.
Context {A K Acc : Type}.
Variable key_eqb : K -> K -> bool.
Hypothesis key_eqb_eq : forall a b, key_eqb a b = true <-> a = b.
Variable key : A -> K.
Variable init : Acc.
Variable step : Acc -> A -> Acc.

Local Abbreviation group_add := (Aggregate.group_add key_eqb key init step).
Local Abbreviation group := (Aggregate.group key_eqb key init step).
Local Abbreviation lookup := (obj_get (V := Acc) key_eqb).

Local Abbreviation key_eqb_refl := (key_eqb_refl key_eqb key_eqb_eq).
Local Abbreviation lookup_In := (lookup_In key_eqb key_eqb_eq).

Lemma lookup_group_add d gs k :
  lookup k (group_add d gs)
  = if key_eqb (key d) k
    then Some (step (match lookup (key d) gs with
                     | Some a => a
                     | None => init
                     end) d)
    else lookup k gs.
Proof.
  induction gs as [|[k0 a0] rest IH]; cbn.
  - reflexivity.
  - destruct (key_eqb k0 (key d)) eqn:E0; cbn.
    + apply key_eqb_eq in E0. subst k0.
      destruct (key_eqb (key d) k); reflexivity.
    + rewrite IH.
      destruct (key_eqb k0 k) eqn:E1; [|reflexivity].
      apply key_eqb_eq in E1. subst k0.
      destruct (key_eqb (key d) k) eqn:E2; [|reflexivity].
      apply key_eqb_eq in E2. subst k.
      rewrite key_eqb_refl in E0. discriminate.
Qed.

Lemma lookup_group_fold docs :
  forall gs k,
    lookup k (fold_left (fun gs d => group_add d gs) docs gs)
    = match filter (fun d => key_eqb (key d) k) docs with
      | [] => lookup k gs
      | ds => Some (fold_left step ds
                      (match lookup k gs with
                       | Some a => a
                       | None => init
                       end))
      end.
Proof.
  induction docs as [|d rest IH]; intros gs k; cbn; [reflexivity|].
  rewrite IH, lookup_group_add.
  destruct (key_eqb (key d) k) eqn:E.
  - apply key_eqb_eq in E. subst k.
    destruct (filter (fun d0 => key_eqb (key d0) (key d)) rest);
      reflexivity.
  - reflexivity.
Qed.

(** The group of a key holds the accumulation of the documents of that
    key, in their order; a key without documents has no group. *)
Lemma lookup_group docs k :
  lookup k (group docs)
  = match filter (fun d => key_eqb (key d) k) docs with
    | [] => None
    | ds => Some (fold_left step ds init)
    end.
Proof. unfold Aggregate.group. apply lookup_group_fold. Qed.

Lemma group_add_fst d gs :
  map fst (group_add d gs)
  = if existsb (fun k => key_eqb k (key d)) (map fst gs)
    then map fst gs else map fst gs ++ [key d].
Proof.
  induction gs as [|[k0 a0] rest IH]; cbn; [reflexivity|].
  destruct (key_eqb k0 (key d)); cbn; [reflexivity|].
  rewrite IH. destruct (existsb _ (map fst rest)); reflexivity.
Qed.

Lemma group_add_NoDup d gs :
  NoDup (map fst gs) -> NoDup (map fst (group_add d gs)).
Proof.
  intros Hnd. rewrite group_add_fst.
  destruct (existsb _ (map fst gs)) eqn:E; [exact Hnd|].
  apply NoDup_app; [exact Hnd|repeat constructor; intros []|].
  intros k Hk [Ek|[]]. subst k.
  assert (T : existsb (fun k => key_eqb k (key d)) (map fst gs) = true).
  { apply existsb_exists. exists (key d). split; [exact Hk|].
    apply key_eqb_refl. }
  congruence.
Qed.

(** The groups have distinct keys. *)
Lemma group_NoDup docs : NoDup (map fst (group docs)).
Proof.
  unfold Aggregate.group.
  assert (G : forall gs, NoDup (map fst gs) ->
                NoDup (map fst (fold_left (fun gs d => group_add d gs)
                                          docs gs))).
  { induction docs as [|d rest IH]; intros gs H; cbn; [exact H|].
    apply IH, group_add_NoDup, H. }
  apply G. constructor.
Qed.

(** What holds of the initial accumulator and is kept by every step
    holds of the accumulator of every group. *)
Lemma group_invariant (P : Acc -> Prop) docs :
  P init -> (forall acc d, P acc -> P (step acc d)) ->
  forall k acc, In (k, acc) (group docs) -> P acc.
Proof.
  intros Hinit Hstep k acc Hin.
  assert (G : forall l a, P a -> P (fold_left step l a)).
  { induction l as [|x l IH]; intros a Ha; cbn; [exact Ha|].
    apply IH, Hstep, Ha. }
  apply (lookup_In k acc _ (group_NoDup docs)) in Hin.
  rewrite lookup_group in Hin.
  destruct (filter _ docs) as [|d0 ds]; [discriminate|].
  inversion Hin. apply G, Hstep, Hinit.
Qed.

End Group.

End GroupFacts.

(* ================================================================== *)
(** ** What the budget view counts *)

Module SpentFacts.
Import JSNum JSDate NumFacts Aggregate GroupFacts CategoryLimitController
  AccrualFacts.

Local Open Scope Q_scope.

Lemma or_zero_eq x : or_zero x == x.
Proof.
  unfold or_zero. destruct (Qeq_bool x 0) eqn:E; [|reflexivity].
  apply Qeq_bool_iff in E. symmetry. exact E.
Qed.

Lemma sum_count_fold ds :
  forall acc,
    fst (fold_left sum_count ds acc)
    == fst acc + sumQ (map Transaction.valor ds)
    /\ snd (fold_left sum_count ds acc)
       = (snd acc + Z.of_nat (List.length ds))%Z.
Proof.
  induction ds as [|d rest IH]; intros acc; cbn [fold_left map List.length].
  - split; [unfold sumQ; cbn; ring|lia].
  - destruct (IH (sum_count acc d)) as [Hs Hc]. rewrite Hs, Hc.
    unfold sum_count. cbn [fst snd].
    split; [|lia].
    unfold sumQ at 2. cbn [fold_left].
    rewrite (ReportFacts.sumQ_from (0 + Transaction.valor d)). ring.
Qed.

(** What the object [gastosPorCategoria] holds for a category. *)
Lemma gasto_lookup (matched : list Transaction.doc) k :
  obj_get ref_eqb k
    (fold_left (fun o t => obj_set (fst t) (snd t) o)
       (group ref_eqb Transaction.categoria (0, 0%Z) sum_count matched) [])
  = match filter (fun t => ref_eqb (Transaction.categoria t) k) matched with
    | [] => None
    | ds => Some (fold_left sum_count ds (0, 0%Z))
    end.
Proof.
  rewrite (lookup_object ref_eqb ref_eqb_eq).
  - apply (lookup_group ref_eqb ref_eqb_eq).
  - apply (group_NoDup ref_eqb ref_eqb_eq).
Qed.

Lemma Forall2_map_r {A B} (R : A -> B -> Prop) (f : A -> B) l :
  (forall x, In x l -> R x (f x)) -> Forall2 R l (map f l).
Proof.
  induction l as [|x rest IH]; intros H; cbn; constructor.
  - apply H. left. reflexivity.
  - apply IH. intros y Hy. apply H. right. exact Hy.
Qed.

(** X15.  The budget view has one entry for each expense category of the
    caller, in the order of the collection; its [spent] is the sum of the
    amounts of the caller's expense transactions of that category dated
    within the window of the month, and [transactions] is their number,
    both 0 when there is none. *)
Theorem getCategoryLimits_spent (tza now : Z) (userId : ObjectId) (db : DB) :
  let start := fst (monthWindow tza now) in
  let end_ := snd (monthWindow tza now) in
  exists views,
    getCategoryLimits tza now userId db = json_views 200 views
    /\ Forall2
         (fun cat v =>
            let txs :=
              filter (fun t => oid_eqb (Transaction.user t) userId
                               && Tipo_eqb (Transaction.tipo t) despesa
                               && (start <=? Transaction.data t)%Z
                               && (Transaction.data t <=? end_)%Z
                               && ref_eqb (Transaction.categoria t)
                                          (Some (Category._id cat)))
                     (transactions db) in
            View.spent v == sumQ (map Transaction.valor txs)
            /\ View.transactions v = Z.of_nat (List.length txs))
         (filter (fun c => oid_eqb (Category.user c) userId
                           && Tipo_eqb (Category.tipo c) despesa)
                 (categories db))
         views.
Proof.
  unfold getCategoryLimits.
  destruct (monthWindow tza now) as [start end_]. cbn [fst snd].
  eexists. split; [reflexivity|].
  rewrite ControllerExtra.filter_and.
  apply Forall2_map_r. intros cat _.
  cbn [View.spent View.transactions]. rewrite gasto_lookup.
  rewrite (ControllerExtra.filter_and
             (fun t => oid_eqb (Transaction.user t) userId
                       && Tipo_eqb (Transaction.tipo t) despesa
                       && (start <=? Transaction.data t)%Z
                       && (Transaction.data t <=? end_)%Z)
             (fun t => ref_eqb (Transaction.categoria t)
                               (Some (Category._id cat)))).
  destruct (filter (fun t => ref_eqb (Transaction.categoria t)
                                     (Some (Category._id cat))) _)
    as [|d ds].
  - split; reflexivity.
  - destruct (sum_count_fold (d :: ds) (0, 0%Z)) as [Hs Hc].
    cbn [fst snd] in Hs, Hc.
    split.
    + rewrite or_zero_eq, Hs. ring.
    + rewrite Hc. lia.
Qed.

End SpentFacts.

(* ================================================================== *)
(** ** Transactions by id: read, create, delete, update *)

Module TransactionFactsById.
Import JSNum NumFacts AccrualFacts TransactionRepository TransactionById.

Local Open Scope Z_scope.

Local Abbreviation ids ts := (map Transaction._id ts).

Lemma findById_Some id db t :
  findById id db = Some t ->
  In t (transactions db) /\ Transaction._id t = id.
Proof.
  unfold findById. intros H. apply find_some in H as [Hin E].
  apply oid_eqb_eq in E. split; assumption.
Qed.

Lemma findById_None id db :
  findById id db = None <-> ~ In id (ids (transactions db)).
Proof.
  unfold findById. split.
  - intros H Hin. apply in_map_iff in Hin as (t & E & Hin).
    apply (find_none _ _ H) in Hin. subst id.
    rewrite (proj2 (oid_eqb_eq _ _) eq_refl) in Hin. discriminate.
  - intros H. apply ReportFacts.find_none_all. intros t Hin.
    destruct (oid_eqb (Transaction._id t) id) eqn:E; [|reflexivity].
    apply oid_eqb_eq in E. exfalso. apply H. subst id.
    apply in_map, Hin.
Qed.

Lemma find_id_app id ts t :
  ~ In id (ids ts) -> Transaction._id t = id ->
  find (fun x => oid_eqb (Transaction._id x) id) (ts ++ [t]) = Some t.
Proof.
  intros Hn E. induction ts as [|x rest IH]; cbn.
  - rewrite (proj2 (oid_eqb_eq _ _) E). reflexivity.
  - destruct (oid_eqb (Transaction._id x) id) eqn:Ex.
    + apply oid_eqb_eq in Ex. exfalso. apply Hn. left. exact Ex.
    + apply IH. intros H. apply Hn. right. exact H.
Qed.

(** X16.  [getTransactionById] answers with a transaction only when that
    transaction is stored under the id and belongs to the caller; it
    answers 404 exactly when no transaction has the id and 403 when the
    transaction of the id is another user's. *)
Theorem getTransactionById_access (id userId : ObjectId) (db : DB) :
  match getTransactionById id userId db with
  | tx_data c d =>
      c = 200
      /\ exists t, d = Some t /\ In t (transactions db)
                   /\ Transaction._id t = id /\ Transaction.user t = userId
  | tx_error c _ =>
      (c = 404 /\ ~ In id (ids (transactions db)))
      \/ (c = 403
          /\ exists t, In t (transactions db) /\ Transaction._id t = id
                       /\ Transaction.user t <> userId)
  | tx_done _ _ => False
  end.
Proof.
  unfold getTransactionById.
  destruct (findById id db) as [t|] eqn:F.
  - destruct (findById_Some _ _ _ F) as [Hin E].
    destruct (oid_eqb (Transaction.user t) userId) eqn:U; cbn [negb].
    + apply oid_eqb_eq in U. split; [reflexivity|].
      exists t. repeat split; assumption.
    + right. split; [reflexivity|]. exists t. repeat split; try assumption.
      intros Eu. apply oid_eqb_eq in Eu. congruence.
  - left. split; [reflexivity|]. apply findById_None, F.
Qed.

Import TransactionController.

(** What [createTransaction] stores for an accepted body. *)
Lemma createTransaction_ok fresh userId body db :
  descricao body <> ""%string ->
  (JSString.length (descricao body) <= 500)%nat ->
  exists t,
    createTransaction fresh userId body db
    = (json_transaction 201 t,
       with_transactions (transactions db ++ [t]) db)
    /\ Transaction._id t = fresh
    /\ Transaction.user t = userId
    /\ Transaction.valor t = round2 (valor body)
    /\ Transaction.categoria t
       = match categoriaId body, categoria_id body with
         | Some c, _ => Some c
         | None, Some c => Some c
         | None, None => categoria body
         end
    /\ Transaction.categoriaId t = Transaction.categoria t
    /\ Transaction.status t
       = match status body with Some s => s | None => confirmada end.
Proof.
  intros Hd Hl. unfold createTransaction, create, validate.
  cbn [Transaction.descricao].
  apply String.eqb_neq in Hd. rewrite Hd.
  apply Nat.leb_le in Hl. rewrite Hl. cbn [negb andb].
  eexists. split; [reflexivity|].
  unfold preSave.
  cbn [Transaction.categoria Transaction.categoriaId Transaction.cartao
       Transaction.cartaoId Transaction._id Transaction.user
       Transaction.valor Transaction.status].
  destruct (categoriaId body), (categoria_id body), (categoria body),
    (cartao body), (cartaoId body); cbn; repeat split; reflexivity.
Qed.

(** X17.  A transaction created under a fresh id is read back by its
    owner as it was answered at creation, and is refused (403) to every
    other user. *)
Theorem createTransaction_then_get (fresh userId : ObjectId) (body : Body)
    (db : DB) :
  ~ In fresh (ids (transactions db)) ->
  descricao body <> ""%string ->
  (JSString.length (descricao body) <= 500)%nat ->
  exists t db',
    createTransaction fresh userId body db = (json_transaction 201 t, db')
    /\ getTransactionById fresh userId db' = tx_data 200 (Some t)
    /\ forall other,
         other <> userId ->
         getTransactionById fresh other db'
         = tx_error 403 "Acesso negado".
Proof.
  intros Hfresh Hd Hl.
  destruct (createTransaction_ok fresh userId body db Hd Hl)
    as (t & Hc & Hid & Hu & _).
  exists t, (with_transactions (transactions db ++ [t]) db).
  split; [exact Hc|].
  assert (F : findById fresh
                (with_transactions (transactions db ++ [t]) db) = Some t).
  { unfold findById. cbn [transactions with_transactions].
    apply find_id_app; assumption. }
  unfold getTransactionById. rewrite F, Hu. split.
  - rewrite (proj2 (oid_eqb_eq _ _) eq_refl). reflexivity.
  - intros other Ho.
    destruct (oid_eqb userId other) eqn:E; [|reflexivity].
    apply oid_eqb_eq in E. congruence.
Qed.

Lemma createTransaction_then_get_witness :
  exists t db',
    createTransaction Scenario.fresh_id Scenario.alice Scenario.body80
      Scenario.db_food550 = (json_transaction 201 t, db')
    /\ getTransactionById Scenario.fresh_id Scenario.alice db'
       = tx_data 200 (Some t)
    /\ forall other,
         other <> Scenario.alice ->
         getTransactionById Scenario.fresh_id other db'
         = tx_error 403 "Acesso negado".
Proof.
  apply (createTransaction_then_get Scenario.fresh_id Scenario.alice
           Scenario.body80 Scenario.db_food550).
  - cbn. intros [H|[H|[H|[]]]]; discriminate.
  - discriminate.
  - apply Nat.leb_le. reflexivity.
Defined.

(** X18.  Every transaction [createTransaction] stores has [categoria]
    and [categoriaId] equal: both hold the body's [categoriaId] when it
    has one, else its [categoria_id], else its [categoria].  The stored
    amount is what the setter of the schema makes of the amount of the
    body, and the document is added after the stored ones. *)
Theorem createTransaction_stored (fresh userId : ObjectId) (body : Body)
    (db : DB) (t : Transaction.doc) (db' : DB) :
  createTransaction fresh userId body db = (json_transaction 201 t, db') ->
  Transaction.categoriaId t = Transaction.categoria t
  /\ Transaction.categoria t
     = match categoriaId body, categoria_id body with
       | Some c, _ => Some c
       | None, Some c => Some c
       | None, None => categoria body
       end
  /\ Transaction.valor t = round2 (valor body)
  /\ transactions db' = transactions db ++ [t].
Proof.
  intros H.
  assert (V : validate
                (Transaction.mk fresh userId (tipo body)
                   (round2 (valor body)) (descricao body) (data body)
                   None None None None confirmada) = true).
  { revert H. unfold createTransaction, create, validate.
    cbn [Transaction.descricao].
    destruct (negb _ && _); [reflexivity|].
    intros H. inversion H. }
  unfold validate in V. cbn [Transaction.descricao] in V.
  apply andb_true_iff in V as [Vd Vl].
  apply negb_true_iff, String.eqb_neq in Vd. apply Nat.leb_le in Vl.
  destruct (createTransaction_ok fresh userId body db Vd Vl)
    as (t0 & Hc & _ & _ & Hv & Hcat & Hid & _).
  rewrite Hc in H. inversion H; subst t0 db'. clear H.
  repeat split; assumption.
Qed.

Lemma createTransaction_stored_witness :
  exists t db',
    createTransaction Scenario.fresh_id Scenario.alice Scenario.body80
      Scenario.db_food550 = (json_transaction 201 t, db')
    /\ Transaction.categoriaId t = Some Scenario.food
    /\ Transaction.categoria t = Some Scenario.food.
Proof.
  eexists. eexists. split; [reflexivity|].
  destruct (createTransaction_stored Scenario.fresh_id Scenario.alice
              Scenario.body80 Scenario.db_food550 _ _ eq_refl)
    as (H1 & H2 & _).
  split; [rewrite H1|]; exact H2.
Defined.

Lemma remove_first_filter (p : Transaction.doc -> bool) id ts t0 :
  find (fun x => oid_eqb (Transaction._id x) id) ts = Some t0 ->
  p t0 = false ->
  filter p (remove_first id ts) = filter p ts.
Proof.
  induction ts as [|x rest IH]; cbn; [discriminate|].
  destruct (oid_eqb (Transaction._id x) id).
  - intros E Hp. inversion E; subst x. rewrite Hp. reflexivity.
  - intros E Hp. cbn. rewrite (IH E Hp). reflexivity.
Qed.

Lemma remove_first_In id ts t :
  NoDup (ids ts) ->
  (In t (remove_first id ts) <-> In t ts /\ Transaction._id t <> id).
Proof.
  induction ts as [|x rest IH]; cbn; [tauto|].
  intros Hnd. inversion Hnd as [|? ? Hnot Hrest]; subst.
  destruct (oid_eqb (Transaction._id x) id) eqn:E.
  - apply oid_eqb_eq in E. split.
    + intros H. split; [right; exact H|].
      intros Et. apply Hnot. rewrite E, <- Et. apply in_map, H.
    + intros [[Ex|H] Hne]; [congruence|exact H].
  - assert (Transaction._id x <> id).
    { intros Ex. apply oid_eqb_eq in Ex. congruence. }
    cbn. rewrite (IH Hrest). split.
    + intros [Ex|[H1 H2]]; [subst x; tauto|tauto].
    + tauto.
Qed.

Lemma remove_first_length id ts t0 :
  find (fun x => oid_eqb (Transaction._id x) id) ts = Some t0 ->
  S (List.length (remove_first id ts)) = List.length ts.
Proof.
  induction ts as [|x rest IH]; cbn; [discriminate|].
  destruct (oid_eqb (Transaction._id x) id); [reflexivity|].
  intros E. cbn. rewrite (IH E). reflexivity.
Qed.

(** X19.  [deleteTransaction] never touches the categories, the limits or
    a transaction of another user.  When it answers success the caller
    owned a transaction of the id, exactly that transaction is gone, and
    a later read of the id answers 404; when it refuses (404 or 403) the
    database is unchanged. *)
Theorem deleteTransaction_effect (id userId : ObjectId) (db : DB) :
  NoDup (ids (transactions db)) ->
  let r := fst (deleteTransaction id userId db) in
  let db' := snd (deleteTransaction id userId db) in
  categories db' = categories db
  /\ limits db' = limits db
  /\ filter (fun t => negb (oid_eqb (Transaction.user t) userId))
        (transactions db')
     = filter (fun t => negb (oid_eqb (Transaction.user t) userId))
         (transactions db)
  /\ match r with
     | tx_done c _ =>
         c = 200
         /\ (exists t, In t (transactions db) /\ Transaction._id t = id
                       /\ Transaction.user t = userId)
         /\ (forall t, In t (transactions db')
                       <-> In t (transactions db)
                           /\ Transaction._id t <> id)
         /\ S (List.length (transactions db'))
            = List.length (transactions db)
         /\ getTransactionById id userId db'
            = tx_error 404 "Transação não encontrada"
     | tx_error c _ => db' = db /\ (c = 404 \/ c = 403)
     | tx_data _ _ => False
     end.
Proof.
  intros Hnd. unfold deleteTransaction.
  destruct (findById id db) as [t|] eqn:F; cbn [fst snd].
  2:{ repeat split; try reflexivity. left. reflexivity. }
  destruct (findById_Some _ _ _ F) as [Hin E].
  destruct (oid_eqb (Transaction.user t) userId) eqn:U; cbn [negb fst snd].
  2:{ repeat split; try reflexivity. right. reflexivity. }
  apply oid_eqb_eq in U.
  unfold delete. cbn [categories limits transactions with_transactions].
  split; [reflexivity|]. split; [reflexivity|]. split.
  { apply (remove_first_filter _ id _ t F).
    rewrite (proj2 (oid_eqb_eq _ _) U). reflexivity. }
  split; [reflexivity|]. split.
  { exists t. repeat split; assumption. }
  split; [intros x; apply remove_first_In, Hnd|].
  split; [apply (remove_first_length id _ t F)|].
  unfold getTransactionById.
  assert (N : findById id
                (with_transactions (remove_first id (transactions db)) db)
              = None).
  { apply findById_None. cbn [transactions with_transactions].
    intros H. apply in_map_iff in H as (x & Ex & Hx).
    apply (remove_first_In id _ x Hnd) in Hx as [_ Hne]. congruence. }
  rewrite N. reflexivity.
Qed.

Lemma deleteTransaction_effect_witness :
  let db := Scenario.db_food550_bob in
  let db' := snd (deleteTransaction Scenario.tx_bob Scenario.alice db) in
  let db'' := snd (deleteTransaction Scenario.tx_bob Scenario.bob db) in
  db' = db /\ List.length (transactions db'') = 3%nat.
Proof.
  intros db db' db''.
  assert (Hnd : NoDup (ids (transactions db))).
  { repeat constructor; cbn; intuition discriminate. }
  pose proof (deleteTransaction_effect Scenario.tx_bob Scenario.alice db Hnd)
    as (_ & _ & _ & Ha).
  pose proof (deleteTransaction_effect Scenario.tx_bob Scenario.bob db Hnd)
    as (_ & _ & _ & Hb).
  split.
  - apply Ha.
  - destruct Hb as (_ & _ & _ & Hlen & _).
    apply eq_add_S. exact Hlen.
Defined.

Lemma replace_first_find id t' ts t0 :
  find (fun x => oid_eqb (Transaction._id x) id) ts = Some t0 ->
  Transaction._id t' = id ->
  find (fun x => oid_eqb (Transaction._id x) id) (replace_first id t' ts)
  = Some t'.
Proof.
  intros F E. induction ts as [|x rest IH]; cbn in *; [discriminate|].
  destruct (oid_eqb (Transaction._id x) id) eqn:Ex; cbn.
  - rewrite (proj2 (oid_eqb_eq _ _) E). reflexivity.
  - rewrite Ex. apply IH, F.
Qed.

Lemma replace_first_ids id t' ts :
  Transaction._id t' = id -> ids (replace_first id t' ts) = ids ts.
Proof.
  intros E. induction ts as [|x rest IH]; cbn; [reflexivity|].
  destruct (oid_eqb (Transaction._id x) id) eqn:Ex; cbn.
  - apply oid_eqb_eq in Ex. congruence.
  - rewrite IH. reflexivity.
Qed.

Lemma replace_first_nth id t' ts i t :
  nth_error ts i = Some t -> Transaction._id t <> id ->
  nth_error (replace_first id t' ts) i = Some t.
Proof.
  revert i. induction ts as [|x rest IH]; intros i; cbn.
  - destruct i; discriminate.
  - destruct (oid_eqb (Transaction._id x) id) eqn:Ex.
    + destruct i as [|i]; cbn; [|tauto].
      intros H Hne. inversion H; subst x.
      apply oid_eqb_eq in Ex. contradiction.
    + destruct i as [|i]; cbn; [tauto|]. apply IH.
Qed.

Lemma updateTransaction_found id userId body db t :
  findById id db = Some t ->
  validate_update (update_of body) = true ->
  let t' := apply_update (update_of body) t in
  let db' := with_transactions (replace_first id t' (transactions db)) db in
  updateTransaction id userId body db = (tx_data 200 (Some t'), db')
  /\ findById id db' = Some t'.
Proof.
  intros F V t' db'.
  assert (F' : findById id db' = Some t').
  { unfold findById, db'. cbn [transactions with_transactions].
    apply (replace_first_find id t' _ t F).
    apply (findById_Some _ _ _ F). }
  split; [|exact F'].
  unfold updateTransaction, update.
  rewrite V, F. fold t'. fold db'. rewrite F'. reflexivity.
Qed.

(** X20.  [updateTransaction] does not look at who calls: whoever the
    caller is, the transaction of the id is rewritten with the paths of
    the body and answered with status 200, and a later read finds the
    rewritten document.  A category of the body goes to [categoria] only:
    [categoriaId], the path the limits accrue by, keeps its former
    value. *)
Theorem updateTransaction_any_caller (id userId : ObjectId)
    (body : UpdateBody) (db : DB) (t : Transaction.doc) :
  findById id db = Some t ->
  match b_descricao body with
  | Some d => d <> ""%string /\ (JSString.length d <= 500)%nat
  | None => True
  end ->
  exists t' db',
    updateTransaction id userId body db = (tx_data 200 (Some t'), db')
    /\ findById id db' = Some t'
    /\ Transaction.user t'
       = match b_user body with
         | Some u => u
         | None => Transaction.user t
         end
    /\ Transaction.categoria t'
       = match b_categoriaId body, b_categoria_id body, b_categoria body with
         | Some c, _, _ => Some c
         | None, Some c, _ => Some c
         | None, None, Some c => Some c
         | None, None, None => Transaction.categoria t
         end
    /\ Transaction.categoriaId t' = Transaction.categoriaId t
    /\ (forall v, b_valor body = Some v -> Transaction.valor t' = round2 v)
    /\ (b_valor body = None -> Transaction.valor t' = Transaction.valor t).
Proof.
  intros F Hd.
  assert (V : validate_update (update_of body) = true).
  { unfold validate_update, update_of. cbn [u_descricao].
    destruct (b_descricao body) as [d|]; [|reflexivity].
    destruct Hd as [Hne Hl]. apply String.eqb_neq in Hne.
    apply Nat.leb_le in Hl. rewrite Hne, Hl. reflexivity. }
  destruct (updateTransaction_found id userId body db t F V) as [Hu Hf].
  eexists. eexists. split; [exact Hu|]. split; [exact Hf|].
  unfold apply_update, update_of.
  cbn [Transaction.user Transaction.categoria Transaction.categoriaId
       Transaction.valor u_user u_categoria u_valor].
  split; [destruct (b_user body); reflexivity|].
  split.
  { destruct (b_categoriaId body), (b_categoria_id body),
      (b_categoria body); reflexivity. }
  split; [reflexivity|].
  split; intros; rewrite H; reflexivity.
Qed.

(** Alice rewrites Bob's expense: it moves to another category in
    [categoria] and keeps the former one in [categoriaId]. *)
Lemma updateTransaction_any_caller_witness :
  exists t' db',
    updateTransaction Scenario.tx_bob Scenario.alice
      Scenario.update_food_bob Scenario.db_food550_bob
    = (tx_data 200 (Some t'), db')
    /\ Transaction.user t' = Scenario.bob
    /\ Transaction.categoria t' = Some Scenario.food_bob
    /\ Transaction.categoriaId t' = Some Scenario.food.
Proof.
  destruct (updateTransaction_any_caller Scenario.tx_bob Scenario.alice
              Scenario.update_food_bob Scenario.db_food550_bob
              _ eq_refl I)
    as (t' & db' & Hu & _ & H1 & H2 & H3 & _).
  exists t', db'. repeat split; assumption.
Defined.

(** X21.  [updateTransaction] leaves the categories and the limits as
    they are, keeps the ids of the transactions in their order, and keeps
    every transaction of another id at its place.  For an id that no
    transaction has it changes nothing, and answers 200 with no document
    when the body passes the update validators and 500 when it does
    not. *)
Theorem updateTransaction_frame (id userId : ObjectId) (body : UpdateBody)
    (db : DB) :
  let r := fst (updateTransaction id userId body db) in
  let db' := snd (updateTransaction id userId body db) in
  categories db' = categories db
  /\ limits db' = limits db
  /\ ids (transactions db') = ids (transactions db)
  /\ (forall i t,
        nth_error (transactions db) i = Some t ->
        Transaction._id t <> id ->
        nth_error (transactions db') i = Some t)
  /\ (~ In id (ids (transactions db)) ->
      db' = db
      /\ (validate_update (update_of body) = true ->
          r = tx_data 200 None)
      /\ (validate_update (update_of body) = false ->
          r = tx_error 500 "Erro ao atualizar transação")).
Proof.
  unfold updateTransaction, update.
  destruct (validate_update (update_of body)); cbn [fst snd].
  2:{ repeat split; try reflexivity; try tauto; discriminate. }
  destruct (findById id db) as [t|] eqn:F; cbn [fst snd].
  2:{ repeat split; try reflexivity; try tauto; discriminate. }
  destruct (findById_Some _ _ _ F) as [Hin E].
  cbn [categories limits transactions with_transactions].
  split; [reflexivity|]. split; [reflexivity|]. split.
  { apply replace_first_ids. exact E. }
  split.
  { intros i x. apply replace_first_nth. }
  intros Hn. exfalso. apply Hn. subst id. apply in_map, Hin.
Qed.

End TransactionFactsById.

(* ================================================================== *)
(** ** The financial summary *)

Module SummaryFacts.
Import JSNum NumFacts Aggregate GroupFacts CategoryLimitController
  TransactionRepository SpentFacts.

Local Open Scope Q_scope.

Lemma Tipo_eqb_eq a b : Tipo_eqb a b = true <-> a = b.
Proof. destruct a, b; cbn; split; congruence. Qed.

Local Abbreviation lookup := (obj_get (V := Q * Z) Tipo_eqb).

(** [result.forEach] reads each of the two groups once. *)
Lemma summary_fold gs :
  forall acc,
    NoDup (map fst gs) ->
    fold_left summaryItem gs acc
    = (match lookup receita gs with
       | Some a => Qabs (fst a)
       | None => fst (fst acc)
       end,
       match lookup despesa gs with
       | Some a => Qabs (fst a)
       | None => snd (fst acc)
       end,
       (snd acc
        + match lookup receita gs with Some a => snd a | None => 0 end
        + match lookup despesa gs with Some a => snd a | None => 0 end)%Z).
Proof.
  induction gs as [|[k a] rest IH]; intros [[r d] n] Hnd;
    cbn [fold_left obj_get fst snd].
  - f_equal. lia.
  - inversion Hnd as [|? ? Hnot Hrest]; subst.
    rewrite (IH _ Hrest).
    assert (N : lookup k rest = None).
    { apply (lookup_None Tipo_eqb Tipo_eqb_eq). exact Hnot. }
    destruct k; cbn [summaryItem fst snd Tipo_eqb]; rewrite N.
    + destruct (lookup despesa rest); f_equal; lia.
    + destruct (lookup receita rest); f_equal; lia.
Qed.

Lemma filter_tipo_length (ts : list Transaction.doc) :
  List.length ts
  = (List.length
       (filter (fun t => Tipo_eqb (Transaction.tipo t) receita) ts)
     + List.length
         (filter (fun t => Tipo_eqb (Transaction.tipo t) despesa) ts))%nat.
Proof.
  induction ts as [|t rest IH]; cbn; [reflexivity|].
  destruct (Transaction.tipo t); cbn; lia.
Qed.

(** The total and the count of one group of the summary. *)
Lemma summary_group (ts : list Transaction.doc) k :
  let ds := filter (fun t => Tipo_eqb (Transaction.tipo t) k) ts in
  match lookup k (group Tipo_eqb Transaction.tipo (0, 0%Z) sum_count ts) with
  | Some a => Qabs (fst a)
  | None => 0
  end == Qabs (sumQ (map Transaction.valor ds))
  /\ match lookup k (group Tipo_eqb Transaction.tipo (0, 0%Z) sum_count ts)
     with
     | Some a => snd a
     | None => 0%Z
     end = Z.of_nat (List.length ds).
Proof.
  intros ds. rewrite (lookup_group Tipo_eqb Tipo_eqb_eq). fold ds.
  destruct ds as [|d rest] eqn:E.
  - split; reflexivity.
  - destruct (sum_count_fold (d :: rest) (0, 0%Z)) as [Hs Hc].
    cbn [fst snd] in Hs, Hc. split.
    + rewrite Hs. apply Qabs_wd. ring.
    + rewrite Hc. lia.
Qed.

(** X22.  The financial summary of a user over an optional range of
    dates: [receitas] and [despesas] are the absolute values of the sums
    of the amounts of the user's confirmed income and expense
    transactions of the range, [saldo] is their difference, and
    [totalTransacoes] counts the confirmed transactions of the range;
    pending and cancelled transactions and those of other users count
    for nothing. *)
Theorem getFinancialSummary_spec (userId : ObjectId)
    (startDate endDate : option Z) (db : DB) :
  let ts :=
    filter (summaryMatch userId startDate endDate) (transactions db) in
  let of_tipo k :=
    filter (fun t => Tipo_eqb (Transaction.tipo t) k) ts in
  let s := getFinancialSummary userId startDate endDate db in
  receitas s == Qabs (sumQ (map Transaction.valor (of_tipo receita)))
  /\ despesas s == Qabs (sumQ (map Transaction.valor (of_tipo despesa)))
  /\ saldo s == receitas s - despesas s
  /\ totalTransacoes s = Z.of_nat (List.length ts).
Proof.
  intros ts of_tipo s. subst s. unfold getFinancialSummary. fold ts.
  rewrite summary_fold by apply (group_NoDup Tipo_eqb Tipo_eqb_eq).
  cbn [fst snd receitas despesas saldo totalTransacoes].
  destruct (summary_group ts receita) as [Hr Hrc].
  destruct (summary_group ts despesa) as [Hd Hdc].
  cbn zeta in Hr, Hrc, Hd, Hdc.
  split; [exact Hr|]. split; [exact Hd|]. split; [reflexivity|].
  rewrite Hrc, Hdc, (filter_tipo_length ts). lia.
Qed.

End SummaryFacts.

(* ================================================================== *)
(** ** The rows of the monthly cash flow *)

Module CashFlowRows.
Import JSNum JSDate NumFacts DateSetters Aggregate GroupFacts ReportService
  ReportFacts.

Local Open Scope Q_scope.

Lemma month_tipo_eqb_eq a b : month_tipo_eqb a b = true <-> a = b.
Proof.
  destruct a as [m ty], b as [m' ty']. unfold month_tipo_eqb. cbn [fst snd].
  rewrite andb_true_iff, Z.eqb_eq, SummaryFacts.Tipo_eqb_eq.
  split; [intros [? ?]; congruence|intros E; inversion E; tauto].
Qed.

Lemma month_tipo_eqb_pair m ty m' ty' :
  month_tipo_eqb (m, ty) (m', ty') = (m =? m')%Z && Tipo_eqb ty ty'.
Proof. reflexivity. Qed.

Section Sorting.
Context {A : Type}.
Variable field : A -> Z.

Local Abbreviation before := (fun a b : A => (field a < field b)%Z).

Lemma insert_sorted_strict x l :
  StronglySorted before l -> ~ In (field x) (map field l) ->
  StronglySorted before (insert_sorted field x l).
Proof.
  induction l as [|y rest IH]; cbn [insert_sorted]; intros Hs Hn.
  - repeat constructor.
  - apply StronglySorted_inv in Hs as [Hrest Hy].
    destruct (field x <? field y)%Z eqn:E.
    + apply Z.ltb_lt in E. constructor.
      * constructor; assumption.
      * constructor; [exact E|].
        rewrite Forall_forall in *. intros z Hz.
        specialize (Hy z Hz). cbn in Hy. lia.
    + apply Z.ltb_ge in E.
      assert (field y <> field x).
      { intros Ey. apply Hn. left. exact Ey. }
      constructor.
      * apply IH; [exact Hrest|]. intros H'. apply Hn. right. exact H'.
      * rewrite Forall_forall in *. intros z Hz.
        apply insert_sorted_In in Hz as [Ez|Hz].
        -- subst z. lia.
        -- apply Hy, Hz.
Qed.

Lemma sort_asc_strict l :
  NoDup (map field l) -> StronglySorted before (sort_asc field l).
Proof.
  induction l as [|x rest IH]; cbn; intros Hnd.
  - constructor.
  - inversion Hnd as [|? ? Hnot Hrest]; subst.
    apply insert_sorted_strict; [apply IH, Hrest|].
    intros H. apply Hnot. apply in_map_iff in H as (y & E & Hy).
    rewrite <- E. apply in_map. apply (sort_asc_In field), Hy.
Qed.

Lemma insert_sorted_keeps x y l :
  y = x \/ In y l -> In y (insert_sorted field x l).
Proof.
  induction l as [|z rest IH]; cbn.
  - intros [E|[]]. left. symmetry. exact E.
  - destruct (field x <? field z)%Z; cbn.
    + intros [E|H]; [left; symmetry; exact E|right; exact H].
    + intros [E|[E|H]].
      * right. apply IH. left. exact E.
      * left. exact E.
      * right. apply IH. right. exact H.
Qed.

Lemma sort_asc_keeps y l : In y l -> In y (sort_asc field l).
Proof.
  induction l as [|x rest IH]; cbn; [tauto|].
  intros [E|H]; apply insert_sorted_keeps.
  - left. symmetry. exact E.
  - right. apply IH, H.
Qed.

End Sorting.

Lemma fold_plus_map {A} (f : A -> Q) l :
  forall a, fold_left (fun total t => total + f t) l a
            = fold_left Qplus (map f l) a.
Proof. induction l as [|x rest IH]; intros a; cbn; [reflexivity|apply IH]. Qed.

Local Abbreviation lookupMT := (obj_get (V := Q) month_tipo_eqb).

Local Abbreviation by_tipo :=
  (fun (acc : Q * Q) (g : (Z * Tipo) * Q) =>
     (fst acc + (if Tipo_eqb (snd (fst g)) receita then Qabs (snd g) else 0),
      snd acc + (if Tipo_eqb (snd (fst g)) despesa then Qabs (snd g) else 0))).

Local Abbreviation abs_of o :=
  (match o with Some tot => Qabs tot | None => 0 end).

(** The second [$group] adds, for a month, the one total of each type. *)
Lemma month_fold (gs : list ((Z * Tipo) * Q)) m :
  forall acc,
    NoDup (map fst gs) ->
    let r :=
      fold_left by_tipo (filter (fun g => (fst (fst g) =? m)%Z) gs) acc in
    fst r == fst acc + abs_of (lookupMT (m, receita) gs)
    /\ snd r == snd acc + abs_of (lookupMT (m, despesa) gs).
Proof.
  induction gs as [|[[m' ty] tot] rest IH]; intros acc Hnd;
    cbn [filter fst snd obj_get].
  - cbn. split; ring.
  - inversion Hnd as [|? ? Hnot Hrest]; subst.
    rewrite !month_tipo_eqb_pair.
    destruct (Z.eqb_spec m' m) as [E|E]; cbn [andb fold_left].
    + subst m'.
      assert (N : lookupMT (m, ty) rest = None).
      { apply (lookup_None month_tipo_eqb month_tipo_eqb_eq).
        exact Hnot. }
      destruct (IH (by_tipo acc ((m, ty), tot)) Hrest) as [H1 H2].
      cbn zeta in H1, H2. rewrite H1, H2. cbn [fst snd].
      destruct ty; cbn [Tipo_eqb]; rewrite N; split; ring.
    + apply (IH acc Hrest).
Qed.

Section Zone.
Variable tza : Z.

(** A row is a balance of two amounts that are not negative. *)
Lemma row_balance (userId : ObjectId) (year : Z) (db : DB) f :
  In f (getMonthlyCashFlow tza userId year db) ->
  saldo f = receitas f - despesas f
  /\ 0 <= receitas f /\ 0 <= despesas f.
Proof.
  unfold getMonthlyCashFlow. intros H.
  apply sort_asc_In in H. apply in_map_iff in H as ([m [r d]] & E & H).
  subst f. cbn [saldo receitas despesas fst snd].
  split; [reflexivity|].
  apply (group_invariant Z.eqb Z.eqb_eq _ _ _
           (fun acc : Q * Q => 0 <= fst acc /\ 0 <= snd acc)) in H.
  - exact H.
  - cbn. split; apply Qle_refl.
  - intros acc g [H1 H2]. cbn [fst snd].
    pose proof (Qabs_nonneg (snd g)).
    split.
    + destruct (Tipo_eqb (snd (fst g)) receita); lra.
    + destruct (Tipo_eqb (snd (fst g)) despesa); lra.
Qed.

(** X23.  The rows of [getMonthlyCashFlow] come in strictly increasing
    order of month, one for each month (1 to 12, in UTC) in which the user
    has a confirmed transaction dated within the year.  In a row,
    [receitas] and [despesas] are the absolute values of the sums of the
    amounts of those income and expense transactions of the month, and
    [saldo] is their difference. *)
Theorem getMonthlyCashFlow_rows (userId : ObjectId) (year : Z) (db : DB) :
  let rows := getMonthlyCashFlow tza userId year db in
  let matched := filter (cashFlowMatch tza userId year) (transactions db) in
  let of_month m k :=
    filter (fun t => (mongo_month (Transaction.data t) =? m)%Z
                     && Tipo_eqb (Transaction.tipo t) k) matched in
  StronglySorted (fun a b => (mes a < mes b)%Z) rows
  /\ (forall m,
        In m (map mes rows)
        <-> In m (map (fun t => mongo_month (Transaction.data t)) matched))
  /\ (forall f,
        In f rows ->
        (1 <= mes f <= 12)%Z
        /\ receitas f
           == Qabs (sumQ (map Transaction.valor (of_month (mes f) receita)))
        /\ despesas f
           == Qabs (sumQ (map Transaction.valor (of_month (mes f) despesa)))
        /\ saldo f = receitas f - despesas f).
Proof.
  intros rows matched of_month.
  set (byMonthTipo :=
         group month_tipo_eqb
           (fun t => (mongo_month (Transaction.data t), Transaction.tipo t))
           0 (fun total t => total + Transaction.valor t) matched).
  set (byMonth :=
         group Z.eqb (fun g : (Z * Tipo) * Q => fst (fst g)) (0, 0)
           by_tipo byMonthTipo).
  set (proj := fun g : Z * (Q * Q) =>
                 mkFluxo (fst g) (fst (snd g)) (snd (snd g))
                         (fst (snd g) - snd (snd g))).
  assert (R : rows = sort_asc mes (map proj byMonth)) by reflexivity.
  assert (Hmes : map mes (map proj byMonth) = map fst byMonth).
  { rewrite map_map. apply map_ext. reflexivity. }
  assert (Hnd : NoDup (map fst byMonth)).
  { apply (group_NoDup Z.eqb Z.eqb_eq). }
  assert (HndMT : NoDup (map fst byMonthTipo)).
  { apply (group_NoDup month_tipo_eqb month_tipo_eqb_eq). }
  (* the total of a month and a type *)
  assert (T : forall m k,
             abs_of (lookupMT (m, k) byMonthTipo)
             == Qabs (sumQ (map Transaction.valor (of_month m k)))).
  { intros m k. unfold byMonthTipo.
    rewrite (lookup_group month_tipo_eqb month_tipo_eqb_eq).
    change (filter _ matched) with (of_month m k).
    destruct (of_month m k) as [|d ds]; [reflexivity|].
    rewrite fold_plus_map. apply Qabs_wd.
    rewrite (sumQ_from 0). ring. }
  (* the months that have a group *)
  assert (K : forall m,
             In m (map fst byMonth)
             <-> In m (map (fun t => mongo_month (Transaction.data t))
                           matched)).
  { intros m. split.
    - intros H. apply in_map_iff in H as ([m' acc] & E & H).
      cbn in E. subst m'.
      apply group_keys in H as ([[m' ty] tot] & H & E). cbn in E. subst m'.
      apply group_keys in H as (t & H & E). inversion E; subst.
      apply in_map_iff. exists t. split; [reflexivity|exact H].
    - intros H. apply in_map_iff in H as (t & E & H).
      destruct (obj_get Z.eqb m byMonth) as [acc|] eqn:L.
      + apply (lookup_Some_In Z.eqb Z.eqb_eq) in L.
        apply (in_map fst) in L. exact L.
      + exfalso. unfold byMonth in L.
        rewrite (lookup_group Z.eqb Z.eqb_eq) in L.
        destruct (lookupMT (m, Transaction.tipo t) byMonthTipo)
          as [tot|] eqn:L2.
        * apply (lookup_Some_In month_tipo_eqb month_tipo_eqb_eq) in L2.
          destruct (filter (fun d => (fst (fst d) =? m)%Z) byMonthTipo)
            as [|g gs] eqn:F; [|discriminate].
          assert (In ((m, Transaction.tipo t), tot)
                     (filter (fun d => (fst (fst d) =? m)%Z) byMonthTipo)).
          { apply filter_In. split; [exact L2|]. cbn. apply Z.eqb_refl. }
          rewrite F in H0. destruct H0.
        * unfold byMonthTipo in L2.
          rewrite (lookup_group month_tipo_eqb month_tipo_eqb_eq) in L2.
          destruct (filter _ matched) as [|d ds] eqn:F; [|discriminate].
          assert (In t (filter
                          (fun d =>
                             month_tipo_eqb
                               (mongo_month (Transaction.data d),
                                Transaction.tipo d)
                               (m, Transaction.tipo t)) matched)).
          { apply filter_In. split; [exact H|].
            apply month_tipo_eqb_eq. rewrite E. reflexivity. }
          rewrite F in H0. destruct H0. }
  split; [|split].
  - rewrite R. apply sort_asc_strict. rewrite Hmes. exact Hnd.
  - intros m. rewrite <- K, <- Hmes, R. split.
    + intros H. apply in_map_iff in H as (f & E & H).
      subst m. apply in_map. apply (sort_asc_In mes), H.
    + intros H. apply in_map_iff in H as (f & E & H).
      subst m. apply in_map. apply sort_asc_keeps, H.
  - intros f Hf. rewrite R in Hf. apply sort_asc_In in Hf.
    apply in_map_iff in Hf as ([m [r d]] & E & Hg). subst f.
    cbn [proj mes receitas despesas saldo fst snd].
    split.
    { assert (Hk : In m (map fst byMonth)) by apply (in_map fst _ _ Hg).
      apply K in Hk. apply in_map_iff in Hk as (t & E & _). subst m.
      unfold mongo_month.
      pose proof (MonthFromTime_range (Transaction.data t)). lia. }
    apply (lookup_In Z.eqb Z.eqb_eq m (r, d) _ Hnd) in Hg.
    unfold byMonth in Hg. rewrite (lookup_group Z.eqb Z.eqb_eq) in Hg.
    destruct (month_fold byMonthTipo m (0, 0) HndMT) as [H1 H2].
    cbn zeta in H1, H2. cbn [fst snd] in H1, H2.
    destruct (filter (fun d0 => (fst (fst d0) =? m)%Z) byMonthTipo)
      as [|g gs] eqn:F; [discriminate|].
    assert (Hrd : fold_left by_tipo (g :: gs) (0, 0) = (r, d))
      by congruence.
    rewrite Hrd in H1, H2. cbn [fst snd] in H1, H2.
    split; [|split; [|reflexivity]].
    + rewrite H1, Qplus_0_l. apply T.
    + rewrite H2, Qplus_0_l. apply T.
Qed.



End Zone.

End CashFlowRows.

(* ================================================================== *)
(** ** The annual summary and the analyses of the cash-flow report *)

Module ReportTotals.
Import JSNum JSDate NumFacts Aggregate ReportService ReportFacts
  CashFlowRows ReportAnalysis.

Local Open Scope Q_scope.

Lemma sumQ_cons x l : sumQ (x :: l) == x + sumQ l.
Proof. unfold sumQ at 1. cbn. rewrite (sumQ_from (0 + x)). ring. Qed.

Lemma sumQ_nonneg l : (forall x, In x l -> 0 <= x) -> 0 <= sumQ l.
Proof.
  induction l as [|x rest IH]; intros H.
  - apply Qle_refl.
  - rewrite sumQ_cons.
    assert (0 <= x) by (apply H; left; reflexivity).
    assert (0 <= sumQ rest) by (apply IH; intros y Hy; apply H; right; exact Hy).
    lra.
Qed.

Lemma sumQ_balance (l : list FluxoMes) :
  (forall m, In m l -> saldo m == receitas m - despesas m) ->
  sumQ (map saldo l) == sumQ (map receitas l) - sumQ (map despesas l).
Proof.
  induction l as [|m rest IH]; intros H; cbn [map].
  - reflexivity.
  - assert (Hm : saldo m == receitas m - despesas m)
      by (apply H; left; reflexivity).
    assert (Hrest : sumQ (map saldo rest)
                    == sumQ (map receitas rest) - sumQ (map despesas rest))
      by (apply IH; intros y Hy; apply H; right; exact Hy).
    rewrite !sumQ_cons, Hrest, Hm. ring.
Qed.

Section Zone.
Variable tza : Z.

(** An entry of [fluxoCompleto] is a row of the pipeline or a month of
    zeros. *)
Lemma fluxoCompleto_entry userId ano db m :
  In m (map fluxo (fluxoMensal (generateCashFlowReport tza userId ano db))) ->
  saldo m == receitas m - despesas m
  /\ 0 <= receitas m /\ 0 <= despesas m.
Proof.
  rewrite fluxoCompleto_of_report. intros H.
  apply in_map_iff in H as (k & E & _).
  destruct (find _ _) as [f|] eqn:F.
  - subst m. apply find_some in F as [Hin _].
    destruct (row_balance tza userId ano db f Hin) as (Hs & Hr & Hd).
    rewrite Hs. split; [reflexivity|split; assumption].
  - subst m. cbn. split; [reflexivity|split; apply Qle_refl].
Qed.

(** X24.  The annual summary of the cash-flow report agrees with its
    twelve entries: [totalReceitas] and [totalDespesas] are the sums of
    the entries' [receitas] and [despesas] and are not negative, the
    accumulated balance of December is [saldoTotal], and the monthly
    means are a twelfth of the totals, with
    [mediaSaldo = mediaReceitas - mediaDespesas]. *)
Theorem cash_flow_totals (userId : ObjectId) (ano : Z) (db : DB) :
  let r := generateCashFlowReport tza userId ano db in
  let a := resumoAnual r in
  totalReceitas a
  == sumQ (map (fun e => receitas (fluxo e)) (fluxoMensal r))
  /\ totalDespesas a
     == sumQ (map (fun e => despesas (fluxo e)) (fluxoMensal r))
  /\ 0 <= totalReceitas a
  /\ 0 <= totalDespesas a
  /\ (exists dezembro,
        nth_error (fluxoMensal r) 11 = Some dezembro
        /\ saldoAcumulado dezembro == saldoTotal a)
  /\ mediaReceitas a * 12 == totalReceitas a
  /\ mediaDespesas a * 12 == totalDespesas a
  /\ mediaSaldo a == mediaReceitas a - mediaDespesas a.
Proof.
  intros r a.
  pose proof (fluxoCompleto_entry userId ano db) as He. fold r in He.
  pose proof (fluxoCompleto_of_report tza userId ano db) as Hc. fold r in Hc.
  set (completo := map fluxo (fluxoMensal r)) in *.
  assert (Hr : totalReceitas a = sumQ (map receitas completo)).
  { rewrite Hc. unfold a, r, generateCashFlowReport.
    cbn [resumoAnual totalReceitas]. apply fold_plus_map. }
  assert (Hd : totalDespesas a = sumQ (map despesas completo)).
  { rewrite Hc. unfold a, r, generateCashFlowReport.
    cbn [resumoAnual totalDespesas]. apply fold_plus_map. }
  assert (Hs : saldoTotal a = totalReceitas a - totalDespesas a)
    by reflexivity.
  assert (Hlen : List.length (fluxoMensal r) = 12%nat).
  { rewrite <- (List.length_map fluxo). fold completo. rewrite Hc.
    reflexivity. }
  split; [rewrite Hr; unfold completo; rewrite map_map; reflexivity|].
  split; [rewrite Hd; unfold completo; rewrite map_map; reflexivity|].
  split.
  { rewrite Hr. apply sumQ_nonneg. intros x Hx.
    apply in_map_iff in Hx as (m & E & Hm). subst x. apply (He m Hm). }
  split.
  { rewrite Hd. apply sumQ_nonneg. intros x Hx.
    apply in_map_iff in Hx as (m & E & Hm). subst x. apply (He m Hm). }
  split.
  { destruct (nth_error (fluxoMensal r) 11) as [dez|] eqn:N.
    2:{ apply nth_error_None in N. lia. }
    exists dez. split; [reflexivity|].
    assert (Hacc : fluxoMensal r = acumular 0 completo).
    { rewrite Hc. reflexivity. }
    rewrite Hacc in N. rewrite (acumular_nth _ _ _ _ N).
    rewrite firstn_all2
      by (unfold completo; rewrite List.length_map, Hlen; lia).
    rewrite Hs, Hr, Hd, sumQ_balance; [ring|].
    intros m Hm. apply (He m Hm). }
  unfold a, r, generateCashFlowReport.
  cbn [resumoAnual mediaReceitas mediaDespesas mediaSaldo totalReceitas
       totalDespesas].
  repeat split; field.
Qed.

End Zone.

Section Extremes.
Context {A : Type}.
Variable v : A -> Q.
Variable better : A -> A -> bool.
Hypothesis better_spec : forall a b, better a b = true <-> v a < v b.

Local Abbreviation pick :=
  (fun best current : A => if better best current then current else best).

(** The fold of [reduce] keeps the first element that no later one
    beats. *)
Lemma fold_extreme rest :
  forall pre x post,
    (forall e, In e pre -> v e < v x) ->
    (forall e, In e post -> v e <= v x) ->
    exists l1 l2,
      pre ++ x :: post ++ rest = l1 ++ fold_left pick rest x :: l2
      /\ (forall e, In e l1 -> v e < v (fold_left pick rest x))
      /\ (forall e, In e l2 -> v e <= v (fold_left pick rest x)).
Proof.
  induction rest as [|c rest IH]; intros pre x post Hpre Hpost;
    cbn [fold_left].
  - exists pre, post. rewrite app_nil_r. repeat split; assumption.
  - destruct (better x c) eqn:B.
    + apply better_spec in B.
      destruct (IH (pre ++ x :: post) c []) as (l1 & l2 & E & H1 & H2).
      * intros e He. apply in_app_iff in He as [He|[He|He]].
        -- specialize (Hpre e He). lra.
        -- subst e. exact B.
        -- specialize (Hpost e He). lra.
      * intros e [].
      * exists l1, l2. split; [|split; assumption].
        rewrite <- E. rewrite <- app_assoc. reflexivity.
    + assert (v c <= v x).
      { apply Qnot_lt_le. intros Hlt. apply better_spec in Hlt.
        congruence. }
      destruct (IH pre x (post ++ [c])) as (l1 & l2 & E & H1 & H2).
      * exact Hpre.
      * intros e He. apply in_app_iff in He as [He|[He|[]]].
        -- apply Hpost, He.
        -- subst e. assumption.
      * exists l1, l2. split; [|split; assumption].
        rewrite <- E. rewrite <- app_assoc. reflexivity.
Qed.

Lemma reduce_extreme x rest :
  exists best l1 l2,
    reduce pick (x :: rest) = Some best
    /\ x :: rest = l1 ++ best :: l2
    /\ (forall e, In e l1 -> v e < v best)
    /\ (forall e, In e l2 -> v e <= v best).
Proof.
  destruct (fold_extreme rest [] x []) as (l1 & l2 & E & H1 & H2).
  - intros e [].
  - intros e [].
  - exists (fold_left pick rest x), l1, l2.
    split; [reflexivity|]. split; [exact E|]. split; assumption.
Qed.

End Extremes.

(** X25.  On a cash flow that has an entry, [analyzeCashFlow] names as
    best month the first entry whose balance no entry exceeds and as
    worst month the first entry whose balance is exceeded by none; it
    lists the months of negative balance, with their number, exactly
    when there is one. *)
Theorem analyzeCashFlow_extremes (fluxoMensal : list FluxoAcumulado) :
  fluxoMensal <> [] ->
  let s e := saldo (fluxo e) in
  exists melhor piorMes l1 l2 l3 l4,
    fluxoMensal = l1 ++ melhor :: l2
    /\ (forall e, In e l1 -> s e < s melhor)
    /\ (forall e, In e l2 -> s e <= s melhor)
    /\ fluxoMensal = l3 ++ piorMes :: l4
    /\ (forall e, In e l3 -> s piorMes < s e)
    /\ (forall e, In e l4 -> s piorMes <= s e)
    /\ analyzeCashFlow fluxoMensal
       = Some (match List.length
                       (filter (fun e => Qltb (s e) 0) fluxoMensal) with
               | O => []
               | S n => [MesesNegativos (S n)]
               end
               ++ [MelhorMes (mes (fluxo melhor)) (s melhor);
                   PiorMes (mes (fluxo piorMes)) (s piorMes)]).
Proof.
  intros Hne s. destruct fluxoMensal as [|x rest]; [congruence|].
  destruct (reduce_extreme s
              (fun a b => Qltb (s a) (s b))
              (fun a b => Qltb_iff (s a) (s b)) x rest)
    as (best & l1 & l2 & Rb & Eb & Hb1 & Hb2).
  assert (W : forall a b, Qltb (s b) (s a) = true <-> - s a < - s b).
  { intros a b. rewrite Qltb_iff. split; intros H; lra. }
  destruct (reduce_extreme (fun e => - s e)
              (fun a b => Qltb (s b) (s a)) W x rest)
    as (worst & l3 & l4 & Rw & Ew & Hw1 & Hw2).
  exists best, worst, l1, l2, l3, l4.
  split; [exact Eb|]. split; [exact Hb1|]. split; [exact Hb2|].
  split; [exact Ew|].
  split; [intros e He; specialize (Hw1 e He); cbn beta in Hw1; lra|].
  split; [intros e He; specialize (Hw2 e He); cbn beta in Hw2; lra|].
  unfold analyzeCashFlow. unfold s in Rb, Rw. rewrite Rb, Rw. unfold s.
  destruct (List.length
              (filter (fun e => Qltb (saldo (fluxo e)) 0) (x :: rest)));
    reflexivity.
Qed.

(** The analyses of a year whose only movements are three expenses in
    June: one month of negative balance, a best and a worst month. *)
Lemma analyzeCashFlow_extremes_witness :
  let fluxoMensal :=
    fluxoMensal
      (generateCashFlowReport 0 Scenario.alice 2024 Scenario.db_food550) in
  exists melhor piorMes,
    analyzeCashFlow fluxoMensal
    = Some [MesesNegativos 1;
            MelhorMes (mes (fluxo melhor)) (saldo (fluxo melhor));
            PiorMes (mes (fluxo piorMes)) (saldo (fluxo piorMes))]
    /\ In melhor fluxoMensal /\ In piorMes fluxoMensal.
Proof.
  intros fluxoMensal.
  destruct (analyzeCashFlow_extremes fluxoMensal)
    as (melhor & pior & l1 & l2 & l3 & l4 & E1 & _ & _ & E2 & _ & _ & H).
  - discriminate.
  - exists melhor, pior. split; [exact H|]. split.
    + rewrite E1. apply in_elt.
    + rewrite E2. apply in_elt.
Defined.

End ReportTotals.

(* ================================================================== *)
(** ** Transaction statistics and top categories *)

Module StatsFacts.
Import JSDate DateFacts TransactionStats.

Local Open Scope Z_scope.

(** The bounds of "today" compare local days. *)
Lemma setHours_start tza now d :
  (setHours tza now 0 0 0 0 <=? d)
  = (Day (LocalTime tza now) <=? Day (LocalTime tza d)).
Proof.
  unfold setHours, UTC, LocalTime, MakeDate, MakeTime, Day, msPerDay.
  apply Bool.eq_true_iff_eq. rewrite !Z.leb_le. split; intros H; euclid.
Qed.

Lemma setHours_end tza now d :
  (d <=? setHours tza now 23 59 59 999)
  = (Day (LocalTime tza d) <=? Day (LocalTime tza now)).
Proof.
  unfold setHours, UTC, LocalTime, MakeDate, MakeTime, Day, msPerDay.
  apply Bool.eq_true_iff_eq. rewrite !Z.leb_le. split; intros H; euclid.
Qed.

Lemma user_tipo_length (userId : ObjectId) (ts : list Transaction.doc) :
  List.length (filter (fun t => oid_eqb (Transaction.user t) userId) ts)
  = (List.length
       (filter (fun t => oid_eqb (Transaction.user t) userId
                         && Tipo_eqb (Transaction.tipo t) receita) ts)
     + List.length
         (filter (fun t => oid_eqb (Transaction.user t) userId
                           && Tipo_eqb (Transaction.tipo t) despesa) ts))%nat.
Proof.
  induction ts as [|t rest IH]; cbn; [reflexivity|].
  destruct (oid_eqb (Transaction.user t) userId); cbn; [|exact IH].
  destruct (Transaction.tipo t); cbn; lia.
Qed.

(** X26.  The statistics of a user's transactions: every transaction is
    an income or an expense, so [total = receitas + despesas]; the
    pending ones and those of today are counted among them; and [hoje]
    counts the user's transactions whose local calendar day lies between
    the days of the two instants at which the bounds were taken, the day
    of the call when both fall on it. *)
Theorem getStatsByUser_counts (tza now1 now2 : Z) (userId : ObjectId)
    (db : DB) :
  let s := getStatsByUser tza now1 now2 userId db in
  total s = receitas s + despesas s
  /\ 0 <= pendentes s <= total s
  /\ 0 <= hoje s <= total s
  /\ hoje s
     = Z.of_nat
         (List.length
            (filter (fun t =>
                       oid_eqb (Transaction.user t) userId
                       && (Day (LocalTime tza now1)
                           <=? Day (LocalTime tza (Transaction.data t)))
                       && (Day (LocalTime tza (Transaction.data t))
                           <=? Day (LocalTime tza now2)))
                    (transactions db))).
Proof.
  intros s. unfold s, getStatsByUser, countDocuments.
  cbn [total receitas despesas pendentes hoje].
  pose proof (user_tipo_length userId (transactions db)) as Ht.
  pose proof (LimitExtra.filter_length_implied
                (fun t => oid_eqb (Transaction.user t) userId
                          && Status_eqb (Transaction.status t) pendente)
                (fun t => oid_eqb (Transaction.user t) userId)
                (transactions db)) as Hp.
  pose proof (LimitExtra.filter_length_implied
                (fun t => oid_eqb (Transaction.user t) userId
                          && (setHours tza now1 0 0 0 0
                              <=? Transaction.data t)
                          && (Transaction.data t
                              <=? setHours tza now2 23 59 59 999))
                (fun t => oid_eqb (Transaction.user t) userId)
                (transactions db)) as Hh.
  assert (Hp' := Hp (fun x Hx =>
                       proj1 (proj1 (andb_true_iff _ _) Hx))).
  assert (Hh' := Hh (fun x Hx =>
                       proj1 (proj1 (andb_true_iff _ _)
                                (proj1 (proj1 (andb_true_iff _ _) Hx))))).
  split; [lia|]. split; [lia|]. split; [lia|].
  f_equal. f_equal. apply filter_ext. intros t.
  rewrite setHours_start, setHours_end. reflexivity.
Qed.

End StatsFacts.

Module TopFacts.
Import JSNum NumFacts TopCategories.

Local Open Scope Q_scope.

Local Abbreviation desc := (fun a b : Row => total b <= total a).

Lemma insert_desc_perm x l : Permutation (x :: l) (insert_desc x l).
Proof.
  induction l as [|y rest IH]; cbn; [reflexivity|].
  destruct (Qltb (total x) (total y)); [|reflexivity].
  rewrite perm_swap. constructor. exact IH.
Qed.

Lemma sort_desc_perm l : Permutation l (sort_desc l).
Proof.
  induction l as [|x rest IH]; [constructor|].
  change (Permutation (x :: rest) (insert_desc x (sort_desc rest))).
  rewrite <- insert_desc_perm. constructor. exact IH.
Qed.

Lemma insert_desc_sorted x l :
  StronglySorted desc l -> StronglySorted desc (insert_desc x l).
Proof.
  induction l as [|y rest IH]; cbn; intros Hs.
  - repeat constructor.
  - apply StronglySorted_inv in Hs as [Hrest Hy].
    destruct (Qltb (total x) (total y)) eqn:E.
    + apply Qltb_iff in E. constructor; [apply IH, Hrest|].
      rewrite Forall_forall in *. intros z Hz.
      apply (Permutation_in _ (Permutation_sym (insert_desc_perm x rest)))
        in Hz.
      destruct Hz as [Ez|Hz]; [subst z; lra|apply Hy, Hz].
    + assert (total y <= total x).
      { apply Qnot_lt_le. intros H. apply Qltb_iff in H. congruence. }
      constructor; [constructor; assumption|].
      constructor; [assumption|].
      rewrite Forall_forall in *. intros z Hz. specialize (Hy z Hz).
      cbn in Hy. lra.
Qed.

Lemma sort_desc_sorted l : StronglySorted desc (sort_desc l).
Proof.
  induction l as [|x rest IH]; [constructor|].
  change (StronglySorted desc (insert_desc x (sort_desc rest))).
  apply insert_desc_sorted, IH.
Qed.

(** The sort leaves a list that is already in descending order as it
    is. *)
Lemma sort_desc_fixed l : StronglySorted desc l -> sort_desc l = l.
Proof.
  induction l as [|x rest IH]; intros Hs; [reflexivity|].
  apply StronglySorted_inv in Hs as [Hrest Hx].
  change (insert_desc x (sort_desc rest) = x :: rest).
  rewrite (IH Hrest). destruct rest as [|y rest']; [reflexivity|].
  cbn [insert_desc]. inversion Hx as [|? ? Hy _]; subst.
  destruct (Qltb (total x) (total y)) eqn:E; [|reflexivity].
  apply Qltb_iff in E. cbn in Hy. lra.
Qed.

Lemma filter_sorted (p : Row -> bool) l :
  StronglySorted desc l -> StronglySorted desc (filter p l).
Proof.
  induction l as [|x rest IH]; cbn; intros Hs; [constructor|].
  apply StronglySorted_inv in Hs as [Hrest Hx].
  destruct (p x); [|apply IH, Hrest].
  constructor; [apply IH, Hrest|].
  rewrite Forall_forall in *. intros z Hz.
  apply filter_In in Hz as [Hz _]. apply Hx, Hz.
Qed.

Lemma In_firstn_skipn (n : nat) (l : list Row) z :
  In z (firstn n l) \/ In z (skipn n l) -> In z l.
Proof.
  intros H. rewrite <- (firstn_skipn n l). apply in_or_app, H.
Qed.

Lemma firstn_skipn_sorted n l :
  StronglySorted desc l ->
  StronglySorted desc (firstn n l)
  /\ forall a b, In a (firstn n l) -> In b (skipn n l) -> total b <= total a.
Proof.
  revert n. induction l as [|x rest IH]; intros n Hs.
  - rewrite firstn_nil, skipn_nil. split; [constructor|intros a b []].
  - destruct n as [|n]; cbn [firstn skipn].
    + split; [constructor|intros a b []].
    + apply StronglySorted_inv in Hs as [Hrest Hx].
      destruct (IH n Hrest) as [H1 H2].
      rewrite Forall_forall in Hx.
      split.
      * constructor; [exact H1|]. rewrite Forall_forall.
        intros z Hz. apply Hx. apply (In_firstn_skipn n). left. exact Hz.
      * intros a b [Ea|Ha] Hb.
        -- subst a. apply Hx. apply (In_firstn_skipn n). right. exact Hb.
        -- apply H2; assumption.
Qed.

(** X27.  Each list of [getTopCategories] holds at most five rows, all of
    its type and among the rows received, in descending order of total;
    the rows of the type that are left out have totals no greater than
    any row kept.  When the rows come in descending order of total, as
    [getByCategory] sorts them, the list is the first five rows of the
    type in the order received. *)
Theorem getTopCategories_top (transacoesPorCategoria : list Row) (k : Tipo) :
  let top := top5 k transacoesPorCategoria in
  let of_tipo :=
    filter (fun t => Tipo_eqb (tipo t) k) transacoesPorCategoria in
  receitas (getTopCategories transacoesPorCategoria)
  = top5 receita transacoesPorCategoria
  /\ despesas (getTopCategories transacoesPorCategoria)
     = top5 despesa transacoesPorCategoria
  /\ List.length top = Nat.min 5 (List.length of_tipo)
  /\ StronglySorted (fun a b => total b <= total a) top
  /\ (exists others,
        Permutation (top ++ others) of_tipo
        /\ forall a b, In a top -> In b others -> total b <= total a)
  /\ (StronglySorted (fun a b => total b <= total a) transacoesPorCategoria ->
      top = firstn 5 of_tipo).
Proof.
  intros top of_tipo.
  split; [reflexivity|]. split; [reflexivity|].
  pose proof (sort_desc_perm of_tipo) as Hperm.
  pose proof (sort_desc_sorted of_tipo) as Hsorted.
  destruct (firstn_skipn_sorted 5 _ Hsorted) as [H1 H2].
  split.
  { unfold top, top5. fold of_tipo.
    rewrite length_firstn, <- (Permutation_length Hperm). reflexivity. }
  split; [exact H1|]. split.
  - exists (skipn 5 (sort_desc of_tipo)). split; [|exact H2].
    unfold top, top5. fold of_tipo. rewrite firstn_skipn.
    symmetry. exact Hperm.
  - intros Hs. unfold top, top5. fold of_tipo.
    rewrite sort_desc_fixed; [reflexivity|]. apply filter_sorted, Hs.
Qed.

End TopFacts.

(* ================================================================== *)
(** ** The monthly evolution *)

Module EvolutionFacts.
Import JSDate DateFacts DateSetters TransactionRepository
  CategoryLimitController MonthlyEvolution.

Local Open Scope Z_scope.

(** Turns that are enough for the loop between two instants. *)
Lemma turns_bound e :
  let bound := (Z.to_nat (e / (28 * msPerDay)) + 2)%nat in
  (1 <= bound)%nat /\ e < (Z.of_nat bound - 1) * (28 * msPerDay).
Proof.
  intros bound. unfold bound.
  pose proof (Z.div_mod e (28 * msPerDay)) as Hq.
  pose proof (Z.mod_pos_bound e (28 * msPerDay)) as Hr.
  set (q := e / (28 * msPerDay)) in *.
  set (r := e mod (28 * msPerDay)) in *.
  clearbody q r. unfold msPerDay in *.
  split; [lia|].
  rewrite Nat2Z.inj_add.
  destruct (Z.le_gt_cases 0 q) as [Hp|Hn].
  - rewrite Z2Nat.id by exact Hp. lia.
  - replace (Z.to_nat q) with 0%nat by lia. lia.
Qed.

Lemma turns_more e (bound turns : nat) :
  (bound <= turns)%nat ->
  e < (Z.of_nat bound - 1) * (28 * msPerDay) ->
  e < (Z.of_nat turns - 1) * (28 * msPerDay).
Proof. unfold msPerDay. lia. Qed.

Section Zone.
Variable tza : Z.
Variable userId : ObjectId.
Variable db : DB.

Local Abbreviation avancar := (MonthlyEvolution.avancar tza).
Local Abbreviation mesDe := (MonthlyEvolution.mesDe tza userId db).
Local Abbreviation enquanto := (MonthlyEvolution.enquanto tza userId db).
Local Abbreviation seguinte :=
  (fun ym : Z * Z => nextMonth (fst ym) (snd ym)).

(** A turn moves [inicio] by the length of its month. *)
Lemma avancar_progress t : t + 28 * msPerDay <= avancar t.
Proof.
  unfold MonthlyEvolution.avancar. rewrite setMonth_next.
  pose proof (DaysInMonthOf_range (YearFromTime (LocalTime tza t)) _
                (MonthFromTime_range (LocalTime tza t))) as H.
  unfold DaysInMonth, msPerDay. lia.
Qed.

Lemma iter_avancar_ge t k : t <= Nat.iter k avancar t.
Proof.
  induction k as [|k IH]; [cbn; lia|].
  rewrite Nat.iter_succ.
  pose proof (avancar_progress (Nat.iter k avancar t)).
  unfold msPerDay in *. lia.
Qed.

(** From a day-of-month that every month has, a turn leads to the same
    day of the next month. *)
Lemma avancar_date t :
  getDate tza t <= 28 ->
  (getFullYear tza (avancar t), getMonth tza (avancar t))
  = nextMonth (getFullYear tza t) (getMonth tza t)
  /\ getDate tza (avancar t) = getDate tza t.
Proof.
  unfold getFullYear, getMonth, getDate. intros Hd28.
  set (lt := LocalTime tza t) in *.
  set (ym1 := nextMonth (YearFromTime lt) (MonthFromTime lt)).
  set (d := DateFromTime lt) in *.
  pose proof (MonthFromTime_range lt) as Hm.
  pose proof (DateFromTime_range lt) as Hd. fold d in Hd.
  pose proof (nextMonth_range (YearFromTime lt) _ Hm) as Hm1. fold ym1 in Hm1.
  pose proof (DaysInMonthOf_range (fst ym1) _ Hm1) as Hl1.
  assert (Htod : 0 <= TimeWithinDay lt < msPerDay)
    by (apply Z.mod_pos_bound; reflexivity).
  assert (E : LocalTime tza (avancar t)
              = MakeDate (MakeDay (fst ym1) (snd ym1) d) (TimeWithinDay lt)).
  { unfold MonthlyEvolution.avancar, setMonth, getMonth, LocalTime, UTC.
    fold (LocalTime tza t). fold lt.
    rewrite MakeDay_nextMonth by exact Hm. fold ym1 d. lia. }
  destruct (date_round_trip (fst ym1) (snd ym1) d (TimeWithinDay lt))
    as (Hy & Hmo & Hda & _); try lia.
  rewrite E, Hy, Hmo, Hda. split; [|reflexivity].
  destruct ym1; reflexivity.
Qed.

Lemma iter_month start k :
  getDate tza start <= 28 ->
  let t := Nat.iter k avancar start in
  (getFullYear tza t, getMonth tza t)
  = Nat.iter k seguinte (getFullYear tza start, getMonth tza start)
  /\ getDate tza t = getDate tza start.
Proof.
  intros Hd. induction k as [|k [IHm IHd]].
  - split; reflexivity.
  - cbn zeta. rewrite !Nat.iter_succ.
    destruct (avancar_date (Nat.iter k avancar start)) as [Em Ed];
      [lia|].
    rewrite Em, Ed. split; [|exact IHd].
    rewrite <- IHm. reflexivity.
Qed.

(** A turn keeps the time of day. *)
Lemma avancar_time t :
  TimeWithinDay (LocalTime tza (avancar t)) = TimeWithinDay (LocalTime tza t).
Proof.
  unfold MonthlyEvolution.avancar. rewrite setMonth_next.
  unfold LocalTime at 1 3, TimeWithinDay.
  replace (t + DaysInMonth (LocalTime tza t) * msPerDay + tza)
    with (t + tza + DaysInMonth (LocalTime tza t) * msPerDay) by lia.
  apply Z.mod_add. discriminate.
Qed.

Lemma iter_time start k :
  TimeWithinDay (LocalTime tza (Nat.iter k avancar start))
  = TimeWithinDay (LocalTime tza start).
Proof.
  induction k as [|k IH]; [reflexivity|].
  rewrite Nat.iter_succ, avancar_time. exact IH.
Qed.

(** The loop ends, and pushes one entry for each turn whose [inicio] has
    not passed [fim]. *)
Lemma enquanto_spec fim :
  forall turns inicio acc,
    (1 <= turns)%nat ->
    fim - inicio < (Z.of_nat turns - 1) * (28 * msPerDay) ->
    exists n,
      enquanto turns inicio fim acc
      = Some (acc ++ map (fun k => mesDe (Nat.iter k avancar inicio))
                         (seq 0 n))
      /\ forall k, (k < n)%nat <-> Nat.iter k avancar inicio <= fim.
Proof.
  induction turns as [|turns IH]; intros inicio acc H1 Hb; [lia|].
  cbn [MonthlyEvolution.enquanto].
  destruct (Z.leb_spec inicio fim) as [Hle|Hgt].
  - pose proof (avancar_progress inicio) as Hp.
    assert (A : (1 <= turns)%nat
                /\ fim - avancar inicio
                   < (Z.of_nat turns - 1) * (28 * msPerDay)).
    { clear IH. rewrite Nat2Z.inj_succ in Hb. unfold msPerDay in *.
      set (T := Z.of_nat turns) in *.
      assert (0 <= T) by apply Nat2Z.is_nonneg.
      assert (1 <= T) by lia.
      split; [unfold T in *|]; lia. }
    destruct (IH (avancar inicio) (acc ++ [mesDe inicio]) (proj1 A) (proj2 A))
      as (n & E & Hn).
    exists (S n). split.
    + rewrite E, <- app_assoc.
      apply (f_equal Some), (f_equal (app acc)).
      cbn [seq map app].
      change (Nat.iter 0 avancar inicio) with inicio.
      apply (f_equal (cons (mesDe inicio))).
      rewrite <- seq_shift, map_map. apply map_ext. intros k.
      rewrite Nat.iter_succ_r. reflexivity.
    + intros [|k].
      * change (Nat.iter 0 avancar inicio) with inicio.
        split; [intros _; exact Hle|lia].
      * rewrite Nat.iter_succ_r, <- Hn. lia.
  - exists 0%nat. split.
    + cbn [seq map]. rewrite app_nil_r. reflexivity.
    + intros k. pose proof (iter_avancar_ge inicio k). lia.
Qed.

(** X28.  [getMonthlyEvolution] from a start whose day-of-month is at
    most 28: the loop ends, and the entries are those of consecutive
    calendar months beginning with the month of the start, each with the
    financial summary of the window of its month, from its first instant
    to 23:59:59 of its last day.  The entry of a month exists exactly when
    the instant of that month with the day and the time of day of the
    start is not after the end, so the month of the end is left out when
    the end falls earlier in its month than the start in its own. *)
Theorem getMonthlyEvolution_months (startDate endDate : Z) :
  getDate tza startDate <= 28 ->
  let inicio k := Nat.iter k avancar startDate in
  let ym k :=
    Nat.iter k seguinte
      (getFullYear tza startDate, getMonth tza startDate) in
  exists meses,
    (forall turns,
       (Z.to_nat ((endDate - startDate) / (28 * msPerDay)) + 2 <= turns)%nat ->
       getMonthlyEvolution tza userId db turns startDate endDate
       = Some meses)
    /\ (forall k, (k < List.length meses)%nat <-> inicio k <= endDate)
    /\ (forall k e,
          nth_error meses k = Some e ->
          ano e = fst (ym k)
          /\ mes e = snd (ym k) + 1
          /\ getDate tza (inicio k) = getDate tza startDate
          /\ TimeWithinDay (LocalTime tza (inicio k))
             = TimeWithinDay (LocalTime tza startDate)
          /\ resumo e
             = getFinancialSummary userId
                 (Some (fst (monthWindow tza (inicio k))))
                 (Some (snd (monthWindow tza (inicio k)))) db).
Proof.
  intros Hd inicio ym.
  destruct (turns_bound (endDate - startDate)) as [Hb1 Hb].
  set (bound := (Z.to_nat ((endDate - startDate) / (28 * msPerDay)) + 2)%nat)
    in *.
  destruct (enquanto_spec endDate bound startDate []) as (n & E & Hn);
    [exact Hb1|exact Hb|].
  cbn [app] in E.
  exists (map (fun k => mesDe (inicio k)) (seq 0 n)).
  split; [|split].
  - intros turns Ht.
    destruct (enquanto_spec endDate turns startDate []) as (n' & E' & Hn');
      [exact (Nat.le_trans _ _ _ Hb1 Ht)
      |exact (turns_more _ _ _ Ht Hb)|].
    unfold getMonthlyEvolution. rewrite E'. cbn [app].
    assert (n' = n).
    { destruct (Nat.lt_trichotomy n' n) as [H|[H|H]]; [|exact H|].
      - apply Hn in H. apply Hn' in H. lia.
      - apply Hn' in H. apply Hn in H. lia. }
    subst n'. reflexivity.
  - intros k. rewrite length_map, length_seq. apply Hn.
  - intros k e He.
    assert (Hk : (k < n)%nat).
    { assert (Hl : (k < List.length
                           (map (fun k => mesDe (inicio k)) (seq 0 n)))%nat)
        by (apply nth_error_Some; rewrite He; discriminate).
      rewrite length_map, length_seq in Hl. exact Hl. }
    rewrite nth_error_map, nth_error_seq in He.
    apply Nat.ltb_lt in Hk. rewrite Hk in He.
    cbn [option_map Nat.add] in He.
    assert (Ee : e = mesDe (inicio k)) by congruence.
    destruct (iter_month startDate k Hd) as [Em Ed].
    fold (inicio k) in Em, Ed. fold (ym k) in Em.
    rewrite <- Em, Ee. unfold MonthlyEvolution.mesDe, monthWindow.
    cbn [ano mes resumo fst snd]. rewrite Z.add_simpl_r.
    split; [reflexivity|]. split; [reflexivity|].
    split; [exact Ed|]. split; [apply iter_time|reflexivity].
Qed.

Lemma avancar_upper t : avancar t <= t + 31 * msPerDay.
Proof.
  unfold MonthlyEvolution.avancar. rewrite setMonth_next.
  pose proof (DaysInMonthOf_range (YearFromTime (LocalTime tza t)) _
                (MonthFromTime_range (LocalTime tza t))) as H.
  unfold DaysInMonth, msPerDay. lia.
Qed.

(** The local month of an instant, from its first to its last
    millisecond. *)
Lemma month_span t :
  let first :=
    MakeDay (getFullYear tza t) (getMonth tza t) 1 * msPerDay in
  first + (getDate tza t - 1) * msPerDay
        + TimeWithinDay (LocalTime tza t) = LocalTime tza t
  /\ first <= LocalTime tza t
     < first + DaysInMonth (LocalTime tza t) * msPerDay.
Proof.
  unfold getFullYear, getMonth, getDate. set (lt := LocalTime tza t).
  pose proof (MakeDay_same_month lt (1 - DateFromTime lt)) as E.
  replace (DateFromTime lt + (1 - DateFromTime lt)) with 1 in E by lia.
  pose proof (DateFromTime_range lt) as Hd.
  cbn zeta. rewrite E.
  assert (Hm : 0 <= TimeWithinDay lt < msPerDay)
    by (apply Z.mod_pos_bound; reflexivity).
  assert (Hday : lt = Day lt * msPerDay + TimeWithinDay lt).
  { unfold Day, TimeWithinDay. rewrite Z.mul_comm.
    apply Z.div_mod. discriminate. }
  set (D := Day lt) in *. set (tod := TimeWithinDay lt) in *.
  set (n := DaysInMonth lt) in *. set (d := DateFromTime lt) in *.
  clearbody D tod n d. unfold msPerDay in *. lia.
Qed.

Lemma DaysInMonth_same a b :
  getFullYear tza a = getFullYear tza b ->
  getMonth tza a = getMonth tza b ->
  DaysInMonth (LocalTime tza a) = DaysInMonth (LocalTime tza b).
Proof.
  unfold getFullYear, getMonth, DaysInMonth. intros Ey Em.
  rewrite Ey, Em. reflexivity.
Qed.

(** [getDefaultStartDate]: the first instant of the month three months
    before the month of [hoje]. *)
Lemma defaultStart_local hoje :
  99 < getFullYear tza hoje ->
  let s := getDefaultStartDate tza hoje in
  (forall ym1 ym2 ym3,
     ym1 = nextMonth (getFullYear tza s) (getMonth tza s) ->
     ym2 = nextMonth (fst ym1) (snd ym1) ->
     ym3 = nextMonth (fst ym2) (snd ym2) ->
     ym3 = (getFullYear tza hoje, getMonth tza hoje))
  /\ getDate tza s = 1
  /\ TimeWithinDay (LocalTime tza s) = 0.
Proof.
  intros Hy s. subst s.
  unfold getDefaultStartDate, newDate.
  pose proof (MonthFromTime_range (LocalTime tza hoje)) as Hm.
  fold (getMonth tza hoje) in Hm.
  set (y := getFullYear tza hoje) in *.
  set (m := getMonth tza hoje) in *. clearbody y m.
  replace ((0 <=? y) && (y <=? 99)) with false
    by (symmetry; apply andb_false_iff; right; apply Z.leb_gt; lia).
  unfold getFullYear, getMonth, getDate.
  assert (L : forall x, LocalTime tza (UTC tza x) = x)
    by (intros x; unfold LocalTime, UTC; lia).
  rewrite L. change (MakeTime 0 0 0 0) with 0.
  assert (Hspan : forall y' m',
             0 <= m' <= 11 ->
             let t := MakeDate (MakeDay y' m' 1) 0 in
             YearFromTime t = y' /\ MonthFromTime t = m'
             /\ DateFromTime t = 1 /\ TimeWithinDay t = 0).
  { intros y' m' Hm'.
    pose proof (DaysInMonthOf_range y' m' Hm').
    apply date_round_trip; [exact Hm'|lia|unfold msPerDay; lia]. }
  destruct (Z.ltb_spec m 3) as [Hlt|Hge].
  - assert (E : MakeDay y (m - 3) 1 = MakeDay (y - 1) (m + 9) 1).
    { unfold MakeDay.
      replace ((m - 3) / 12) with (-1) by euclid.
      replace ((m - 3) mod 12) with (m + 9) by euclid.
      replace ((m + 9) / 12) with 0 by euclid.
      replace ((m + 9) mod 12) with (m + 9) by euclid.
      rewrite Z.add_0_r. reflexivity. }
    rewrite E.
    destruct (Hspan (y - 1) (m + 9)) as (H1 & H2 & H3 & H4); [lia|].
    rewrite H1, H2, H3, H4. split; [|split; reflexivity].
    intros ym1 ym2 ym3 E1 E2 E3.
    assert (C : m = 0 \/ m = 1 \/ m = 2) by lia.
    destruct C as [C|[C|C]]; subst m; cbn in E1; subst ym1;
      cbn in E2; subst ym2; cbn in E3; subst ym3; f_equal; lia.
  - destruct (Hspan y (m - 3)) as (H1 & H2 & H3 & H4); [lia|].
    rewrite H1, H2, H3, H4. split; [|split; reflexivity].
    intros ym1 ym2 ym3 E1 E2 E3.
    pose proof (month_cases m Hm) as C.
    repeat (destruct C as [C|C];
            [subst m; try lia; cbn in E1; subst ym1; cbn in E2; subst ym2;
             cbn in E3; subst ym3; reflexivity|]).
    subst m. cbn in E1. subst ym1. cbn in E2. subst ym2.
    cbn in E3. subst ym3. reflexivity.
Qed.

Lemma within_month first len t3 t4 fim :
  first * msPerDay + (1 - 1) * msPerDay + 0 = LocalTime tza t3 ->
  first * msPerDay <= LocalTime tza fim < first * msPerDay + len * msPerDay ->
  t4 = t3 + len * msPerDay ->
  t3 <= fim /\ fim < t4.
Proof. unfold LocalTime, msPerDay. lia. Qed.

Lemma four_months t0 t1 t2 t3 t4 :
  t1 <= t0 + 31 * msPerDay -> t2 <= t1 + 31 * msPerDay ->
  t3 <= t2 + 31 * msPerDay -> t4 <= t3 + 31 * msPerDay ->
  t4 <= t0 + 124 * msPerDay.
Proof. unfold msPerDay. lia. Qed.

Lemma six_turns (turns : nat) t0 t4 fim :
  (6 <= turns)%nat -> fim < t4 -> t4 <= t0 + 124 * msPerDay ->
  fim - t0 < (Z.of_nat turns - 1) * (28 * msPerDay).
Proof. unfold msPerDay. lia. Qed.

Lemma iter_unroll (f : Z -> Z) x :
  Nat.iter 0 f x = x
  /\ Nat.iter 1 f x = f x
  /\ Nat.iter 2 f x = f (f x)
  /\ Nat.iter 3 f x = f (f (f x))
  /\ Nat.iter 4 f x = f (f (f (f x))).
Proof. repeat split. Qed.

(** X29.  With the default start, three months before today, and an end
    in the month of today, [getMonthlyEvolution] returns exactly four
    entries: the three months before the month of today and that month,
    one after the other. *)
Theorem getMonthlyEvolution_default (hoje fim : Z) (turns : nat) :
  99 < getFullYear tza hoje ->
  getFullYear tza fim = getFullYear tza hoje ->
  getMonth tza fim = getMonth tza hoje ->
  (6 <= turns)%nat ->
  exists m0 m1 m2 m3,
    getMonthlyEvolution tza userId db turns (getDefaultStartDate tza hoje) fim
    = Some [m0; m1; m2; m3]
    /\ ano m3 = getFullYear tza hoje
    /\ mes m3 = getMonth tza hoje + 1
    /\ (ano m1, mes m1 - 1) = nextMonth (ano m0) (mes m0 - 1)
    /\ (ano m2, mes m2 - 1) = nextMonth (ano m1) (mes m1 - 1)
    /\ (ano m3, mes m3 - 1) = nextMonth (ano m2) (mes m2 - 1).
Proof.
  intros Hy Hfy Hfm Hturns.
  destruct (defaultStart_local hoje Hy) as (H3 & Hd0 & Ht0).
  cbn zeta in H3, Hd0, Ht0.
  remember (getDefaultStartDate tza hoje) as t0 eqn:E0.
  remember (avancar t0) as t1 eqn:E1.
  remember (avancar t1) as t2 eqn:E2.
  remember (avancar t2) as t3 eqn:E3.
  remember (avancar t3) as t4 eqn:E4.
  (* the months of the four turns *)
  destruct (avancar_date t0) as [M1 D1]; [rewrite Hd0; discriminate|].
  rewrite <- E1 in M1, D1.
  destruct (avancar_date t1) as [M2 D2]; [rewrite D1, Hd0; discriminate|].
  rewrite <- E2 in M2, D2.
  destruct (avancar_date t2) as [M3 D3];
    [rewrite D2, D1, Hd0; discriminate|].
  rewrite <- E3 in M3, D3.
  pose proof (H3 _ _ _ M1 M2 M3) as Hym. cbn [fst snd] in Hym.
  assert (Ey3 : getFullYear tza t3 = getFullYear tza hoje) by congruence.
  assert (Em3 : getMonth tza t3 = getMonth tza hoje) by congruence.
  assert (Ed3 : getDate tza t3 = 1) by congruence.
  assert (T3 : TimeWithinDay (LocalTime tza t3) = 0).
  { rewrite E3, avancar_time, E2, avancar_time, E1, avancar_time.
    exact Ht0. }
  (* the fourth turn starts with the month of today *)
  destruct (month_span t3) as [S3 _].
  destruct (month_span fim) as [_ Sf].
  cbn zeta in S3, Sf.
  rewrite Ey3, Em3, Ed3, T3 in S3. rewrite Hfy, Hfm in Sf.
  assert (Elen : DaysInMonth (LocalTime tza t3)
                 = DaysInMonth (LocalTime tza fim))
    by (apply DaysInMonth_same; congruence).
  assert (S4 : t4 = t3 + DaysInMonth (LocalTime tza fim) * msPerDay).
  { rewrite E4. unfold MonthlyEvolution.avancar.
    rewrite setMonth_next, Elen. reflexivity. }
  destruct (within_month _ _ _ _ _ S3 Sf S4) as [Hle3 Hgt4].
  pose proof (avancar_upper t0) as U1. rewrite <- E1 in U1.
  pose proof (avancar_upper t1) as U2. rewrite <- E2 in U2.
  pose proof (avancar_upper t2) as U3. rewrite <- E3 in U3.
  pose proof (avancar_upper t3) as U4. rewrite <- E4 in U4.
  pose proof (four_months _ _ _ _ _ U1 U2 U3 U4) as Hup.
  destruct (iter_unroll avancar t0) as (I0 & I1 & I2 & I3 & I4).
  rewrite <- E1 in I1, I2, I3, I4. rewrite <- E2 in I2, I3, I4.
  rewrite <- E3 in I3, I4. rewrite <- E4 in I4.
  destruct (enquanto_spec fim turns t0 []) as (n & E & Hn).
  { clear - Hturns. lia. }
  { exact (six_turns _ _ _ _ Hturns Hgt4 Hup). }
  assert (n = 4%nat).
  { pose proof (proj2 (Hn 3%nat)) as A3. rewrite I3 in A3.
    specialize (A3 Hle3).
    destruct (Nat.lt_ge_cases 4 n) as [H4|H4]; [|clear - A3 H4; lia].
    apply Hn in H4. rewrite I4 in H4. clear - H4 Hgt4. lia. }
  subst n. cbn [app seq map] in E. rewrite I0, I1, I2, I3 in E.
  exists (mesDe t0), (mesDe t1), (mesDe t2), (mesDe t3).
  split; [exact E|].
  unfold MonthlyEvolution.mesDe. cbn [ano mes].
  rewrite !Z.add_simpl_r.
  split; [exact Ey3|]. split; [rewrite Em3; reflexivity|].
  split; [exact M1|]. split; [exact M2|exact M3].
Qed.

End Zone.

(** From 15 June 2024 to 20 August 2024: June, July and August. *)
Lemma getMonthlyEvolution_months_witness :
  exists meses,
    getMonthlyEvolution 0 Scenario.alice Scenario.db_food550 5
      Scenario.june15 (newDate 0 2024 7 20 0 0 0) = Some meses
    /\ List.length meses = 3%nat.
Proof.
  assert (Hd : getDate 0 Scenario.june15 <= 28)
    by (vm_compute; discriminate).
  pose proof (getMonthlyEvolution_months 0 Scenario.alice
                Scenario.db_food550 Scenario.june15
                (newDate 0 2024 7 20 0 0 0) Hd) as (meses & Hrun & Hlen & _).
  exists meses. split.
  - apply Hrun. vm_compute. lia.
  - assert (A2 : Nat.iter 2 (MonthlyEvolution.avancar 0) Scenario.june15
                 <= newDate 0 2024 7 20 0 0 0)
      by (vm_compute; discriminate).
    assert (A3 : ~ Nat.iter 3 (MonthlyEvolution.avancar 0) Scenario.june15
                   <= newDate 0 2024 7 20 0 0 0)
      by (vm_compute; intros H; apply H; reflexivity).
    apply (Hlen 2%nat) in A2.
    assert (B3 : ~ (3 < List.length meses)%nat)
      by (intros H; apply A3, (Hlen 3%nat), H).
    lia.
Defined.

(** Called on 15 June 2024 with the defaults: March, April, May and
    June. *)
Lemma getMonthlyEvolution_default_witness :
  exists m0 m1 m2 m3,
    getMonthlyEvolution 0 Scenario.alice Scenario.db_food550 6
      (getDefaultStartDate 0 Scenario.june15) Scenario.june15
    = Some [m0; m1; m2; m3]
    /\ ano m3 = 2024 /\ mes m3 = 6.
Proof.
  assert (Hy : 99 < getFullYear 0 Scenario.june15)
    by (vm_compute; reflexivity).
  pose proof (getMonthlyEvolution_default 0 Scenario.alice
                Scenario.db_food550 Scenario.june15 Scenario.june15 6
                Hy eq_refl eq_refl (le_n 6))
    as (m0 & m1 & m2 & m3 & E & Ha & Hm & _).
  exists m0, m1, m2, m3. split; [exact E|].
  split; [rewrite Ha|rewrite Hm]; vm_compute; reflexivity.
Defined.


End EvolutionFacts.

(* ================================================================== *)
(** ** A budget set and read back *)

Module UpsertView.
Import JSNum JSDate NumFacts Aggregate CategoryLimitController AccrualFacts
  OwnerFacts SpentFacts.

Local Open Scope Q_scope.

Section Zone.
Variable tza : Z.

(** The limit a first upsert inserts. *)
Local Abbreviation inserted fresh now userId cid v :=
  (Limit.mk fresh userId None categoria_ (round2 v) 0 mensal (Some cid)
     (Some cid) None None true now None).

Lemma upsert_inserts (fresh : ObjectId) (now : Z) (userId : ObjectId)
    (c : string) (v : Q) (db : DB) :
  String.length c = 24%nat -> all_hex c = true -> 0 < v ->
  (forall l, In l (limits db) ->
             ~ (Limit.user l = userId
                /\ Limit.categoria l = Some (lower_hex c)
                /\ Limit.tipo l = categoria_)) ->
  exists view,
    upsertCategoryLimit tza fresh now userId (mkBody (Some c) (Some v)) db
    = (json_view 201 view,
       with_limits
         (limits db ++ [inserted fresh now userId (lower_hex c) v]) db)
    /\ View.id view = fresh
    /\ View.budget view = or_zero (round2 (round2 v)).
Proof.
  intros Hlen Hhex Hpos Hnone.
  unfold upsertCategoryLimit. cbn [body_categoriaId body_valor].
  rewrite (truthy_length c 23 Hlen).
  assert (Hz : Qeq_bool v 0 = false).
  { apply not_true_iff_false. intros E. apply Qeq_bool_iff in E. lra. }
  assert (Hle : Qle_bool v 0 = false).
  { apply not_true_iff_false. intros E. apply Qle_bool_iff in E. lra. }
  rewrite Hz, Hle, (all_hex_length _ Hhex), Hlen. cbn [negb orb Nat.eqb].
  unfold castObjectId. rewrite Hhex.
  unfold findOneAndUpdate.
  rewrite (ReportFacts.find_none_all _ (limits db)).
  2:{ intros l Hl. apply not_true_iff_false. intros E.
      apply andb_true_iff in E as [E Et].
      apply andb_true_iff in E as [Eu Ec].
      apply (Hnone l Hl). split; [apply oid_eqb_eq, Eu|].
      split; [apply ref_eqb_eq, Ec|apply TipoLimite_eqb_eq, Et]. }
  destruct (monthWindow tza now) as [start end_].
  eexists. split; [reflexivity|]. split; reflexivity.
Qed.

(** The limit the list shows for a category is the last one written
    under its id. *)
Lemma limit_lookup (db : DB) (userId : ObjectId) ls l cid c0 :
  limits db = ls ++ [l] ->
  Limit.user l = userId -> Limit.tipo l = categoria_ ->
  Limit.ativo l = true -> Limit.categoria l = Some cid ->
  find (fun cat => oid_eqb (Category._id cat) cid) (categories db)
  = Some c0 ->
  obj_get ref_eqb (Some cid)
    (fold_left
       (fun o limit =>
          let catId :=
            match snd limit with
            | Some c => Some (Category._id c)
            | None => Limit.categoriaId (fst limit)
            end in
          obj_set catId limit o)
       (map (populate db)
            (filter (fun l => oid_eqb (Limit.user l) userId
                              && TipoLimite_eqb (Limit.tipo l) categoria_
                              && Bool.eqb (Limit.ativo l) true)
                    (limits db))) [])
  = Some (l, Some c0).
Proof.
  intros Hl Hu Ht Ha Hc Hf.
  rewrite Hl, filter_app, map_app, fold_left_app.
  cbn [filter]. rewrite Hu, Ht, Ha.
  rewrite (proj2 (oid_eqb_eq _ _) eq_refl). cbn [TipoLimite_eqb Bool.eqb andb].
  cbn [map fold_left].
  assert (P : populate db l = (l, Some c0))
    by (unfold populate; rewrite Hc, Hf; reflexivity).
  rewrite !P. cbn [snd fst]. unfold obj_set. cbn [obj_get].
  apply find_some in Hf as [_ Hid]. apply oid_eqb_eq in Hid.
  rewrite Hid. rewrite (proj2 (ref_eqb_eq _ _) eq_refl). reflexivity.
Qed.

(** X30.  A first budget set on one of the caller's expense categories
    is read back: the upsert answers 201 with a view of the new limit, and
    the list requested afterwards has an entry of that limit; in both the
    budget is the amount of the request rounded to cents. *)
Theorem upsert_then_list (fresh : ObjectId) (now : Z) (userId : ObjectId)
    (c : string) (v : Q) (db : DB) (cat : Category.doc) :
  String.length c = 24%nat -> all_hex c = true -> 0 < v ->
  (forall l, In l (limits db) ->
             ~ (Limit.user l = userId
                /\ Limit.categoria l = Some (lower_hex c)
                /\ Limit.tipo l = categoria_)) ->
  In cat (categories db) ->
  Category._id cat = lower_hex c ->
  Category.user cat = userId ->
  Category.tipo cat = despesa ->
  exists view db' views entry,
    upsertCategoryLimit tza fresh now userId (mkBody (Some c) (Some v)) db
    = (json_view 201 view, db')
    /\ getCategoryLimits tza now userId db' = json_views 200 views
    /\ In entry views
    /\ View.id view = fresh /\ View.budget view == round2 v
    /\ View.id entry = fresh /\ View.budget entry == round2 v.
Proof.
  intros Hlen Hhex Hpos Hnone Hin Hid Hu Ht.
  destruct (upsert_inserts fresh now userId c v db Hlen Hhex Hpos Hnone)
    as (view & Hup & Hvid & Hvb).
  set (l := inserted fresh now userId (lower_hex c) v) in *.
  set (db' := with_limits (limits db ++ [l]) db) in *.
  destruct (find (fun x => oid_eqb (Category._id x) (lower_hex c))
                 (categories db')) as [c0|] eqn:Hf.
  2:{ exfalso. apply (find_none _ _ Hf) in Hin.
      rewrite Hid, (proj2 (oid_eqb_eq _ _) eq_refl) in Hin.
      discriminate. }
  pose proof (limit_lookup db' userId (limits db) l (lower_hex c) c0
                eq_refl eq_refl eq_refl eq_refl eq_refl Hf) as Hlook.
  exists view, db'.
  unfold getCategoryLimits.
  destruct (monthWindow tza now) as [start end_].
  eexists. eexists. split; [exact Hup|]. split; [reflexivity|].
  split.
  { apply in_map. apply filter_In. split.
    - apply filter_In. split; [exact Hin|].
      apply oid_eqb_eq, Hu.
    - rewrite Ht. reflexivity. }
  split; [exact Hvid|]. split.
  { rewrite Hvb, or_zero_eq. apply round2_cents, round2_is_cents. }
  cbn [View.id View.budget]. cbv zeta in Hlook. rewrite Hid, Hlook.
  split; [reflexivity|]. rewrite or_zero_eq. reflexivity.
Qed.

End Zone.

(** Alice sets a first budget of 500 on her category Food. *)
Lemma upsert_then_list_witness :
  exists view db' views entry,
    upsertCategoryLimit 0 Scenario.fresh_id Scenario.june15 Scenario.alice
      (mkBody (Some Scenario.food) (Some 500)) (mkDB [Scenario.cat_food] [] [])
    = (json_view 201 view, db')
    /\ getCategoryLimits 0 Scenario.june15 Scenario.alice db'
       = json_views 200 views
    /\ In entry views
    /\ View.budget entry == 500.
Proof.
  destruct (upsert_then_list 0 Scenario.fresh_id Scenario.june15
              Scenario.alice Scenario.food 500
              (mkDB [Scenario.cat_food] [] []) Scenario.cat_food)
    as (view & db' & views & entry & H1 & H2 & H3 & _ & _ & _ & H4);
    [reflexivity|reflexivity|reflexivity|intros l []|left; reflexivity
    |reflexivity|reflexivity|reflexivity|].
  exists view, db', views, entry.
  split; [exact H1|]. split; [exact H2|]. split; [exact H3|].
  rewrite H4. reflexivity.
Defined.

End UpsertView.
